(** * Speech capture of the L.A.U.R.A. Raspberry Pi client

    A shallow embedding of [src/audio/speech_processor.py]
    ([SpeechProcessor.capture_speech_with_unified_vad] and
    [SpeechProcessor.capture_speech_push_to_talk]) together with the
    properties of its voice-activity loop, its transcript filters and
    its clean-up discipline.

    Modelling conventions.
    - Python floats ([time.monotonic()], thresholds, durations,
      energies) are exact rationals [Q]; comparisons and arithmetic are
      those of the source, without binary64 rounding.
    - Python [str] values are [string]s whose characters are code points
      below 256 (Latin-1); [str.strip], [str.lower] and [str.split] are
      written out for that range.
    - Collaborators that the source only calls (audio manager, keyboard,
      recognizer, clock) are driven by explicit inputs: one [Tick] per
      loop iteration, and a [Recognizer] interface with its own state.
    - A call that raises a Python [Exception] yields [Exc]; every side
      effect on a collaborator is logged as an [Action].
    - [print] calls are left out, except the rate-limited partial text. *)

From Stdlib Require Import ZArith QArith Qabs Qround Bool List Lia Lqa.
From Stdlib Require Import Strings.Ascii Strings.String Strings.Byte.
Import ListNotations.

Local Open Scope Z_scope.

(** ** Python strings (Latin-1 range) *)

Module PyStr.

Local Open Scope string_scope.

(** [str.isspace] on one code point below 256: TAB..CR, FS..US, space,
    NEL (0x85) and NBSP (0xA0). *)
Definition isspace (c : ascii) : bool :=
  let n := N_of_ascii c in
  ((9 <=? n) && (n <=? 13) || (28 <=? n) && (n <=? 32)
   || (n =? 133) || (n =? 160))%N.

Arguments isspace : simpl never.

(** [str.lower] on one code point below 256: A..Z and the accented
    capitals 0xC0..0xDE (the multiplication sign 0xD7 left alone) move
    up by 32. *)
Definition lower_char (c : ascii) : ascii :=
  let n := N_of_ascii c in
  if ((65 <=? n) && (n <=? 90)
      || (192 <=? n) && (n <=? 222) && negb (n =? 215))%N
  then ascii_of_N (n + 32) else c.

Fixpoint lower (s : string) : string :=
  match s with
  | EmptyString => EmptyString
  | String c r => String (lower_char c) (lower r)
  end.

Definition is_empty (s : string) : bool :=
  match s with EmptyString => true | String _ _ => false end.

Fixpoint lstrip (s : string) : string :=
  match s with
  | EmptyString => EmptyString
  | String c r => if isspace c then lstrip r else s
  end.

Fixpoint rstrip (s : string) : string :=
  match s with
  | EmptyString => EmptyString
  | String c r =>
      let r' := rstrip r in
      if isspace c && is_empty r' then EmptyString else String c r'
  end.

(** [s.strip()] *)
Definition strip (s : string) : string := rstrip (lstrip s).

(** [s.split()]: the maximal runs of non-whitespace characters.
    [cur] is the word being read. *)
Fixpoint split_from (cur : string) (s : string) : list string :=
  match s with
  | EmptyString => if is_empty cur then [] else [cur]
  | String c r =>
      if isspace c
      then (if is_empty cur then split_from EmptyString r
            else cur :: split_from EmptyString r)
      else split_from (cur ++ String c EmptyString) r
  end.

Definition split (s : string) : list string := split_from EmptyString s.

(** A string that is empty or starts with a visible character. *)
Definition starts_clean (s : string) : bool :=
  match s with EmptyString => true | String c _ => negb (isspace c) end.

(** [len(s)] *)
Definition len (s : string) : Z := Z.of_nat (String.length s).

End PyStr.

(** ** Transcript filters *)

(** Lines 194-229 of [capture_speech_with_unified_vad]: what the timed
    capture returns for the recognizer's final text. *)
Definition vad_accept (final_transcript : string) : option string :=
  if PyStr.is_empty final_transcript then None
  else
    let final_transcript := PyStr.strip final_transcript in
    if PyStr.is_empty final_transcript then None
    else if String.eqb (PyStr.strip (PyStr.lower final_transcript)) "the"
    then None
    else
      let num_words := Z.of_nat (List.length (PyStr.split final_transcript)) in
      let min_chars_single := 2 in
      let min_words_overall := 1 in
      let min_transcript_length := 2 in
      if (num_words =? 0) || (PyStr.len final_transcript <? min_transcript_length)
      then None
      else if num_words <? min_words_overall then None
      else if (num_words =? 1) && (PyStr.len final_transcript <? min_chars_single)
      then None
      else Some final_transcript.

(** Lines 300-311 of [capture_speech_push_to_talk]. *)
Definition ptt_accept (final_transcript : string) : option string :=
  if PyStr.is_empty final_transcript then None
  else
    let final_transcript := PyStr.strip final_transcript in
    if String.eqb (PyStr.strip (PyStr.lower final_transcript)) "the"
    then None
    else if PyStr.is_empty final_transcript then None
    else Some final_transcript.

(** ** Python values and numbers *)

(** The outcome of a call that may raise. What is raised is an
    [Exception], unless it is said otherwise. *)
Inductive Py (A : Type) : Type :=
| Val (a : A)
| Exc.

Arguments Val {A} a.
Arguments Exc {A}.

Module PyNum.

(** [a > b] *)
Definition gt (a b : Q) : bool := negb (Qle_bool a b).

(** [a >= b] *)
Definition ge (a b : Q) : bool := Qle_bool b a.

(** [int(q)]: the fractional part is dropped (toward zero). *)
Definition int (q : Q) : Z := Z.quot (Qnum q) (Zpos (Qden q)).

(** [sum(l)]: Python adds from the left, starting at 0. *)
Definition sum (l : list Q) : Q := fold_left Qplus l 0%Q.

(** [np.mean(l)], the running total kept in lowest terms. *)
Definition mean (l : list Q) : Q :=
  (fold_left (fun a x => Qred (a + x)) l 0 / inject_Z (Z.of_nat (List.length l)))%Q.

(** [d.get(key, default)] on an optional entry. *)
Definition get (entry : option Q) (default : Q) : Q :=
  match entry with Some v => v | None => default end.


End PyNum.

(** Python floats are IEEE 754 doubles. The model keeps numbers as
    exact rationals; here is the rounding to the nearest double that
    the arithmetic of lines 93-94 performs. *)
Module PyFloat.

(** [a / b] rounded to the nearest integer, halves to the even one
    ([0 <= a], [0 < b]). *)
Definition nearest_even (a b : Z) : Z :=
  let k := a / b in
  match 2 * (a mod b) ?= b with
  | Lt => k
  | Gt => k + 1
  | Eq => if Z.even k then k else k + 1
  end.

(** The exponent of the leading bit of [n / d]: the [l] with
    [2 ^ l <= n / d < 2 ^ (l + 1)]. *)
Definition leading_bit (n d : positive) : Z :=
  let k := Z.log2 (Zpos n) - Z.log2 (Zpos d) in
  if (if 0 <=? k then Zpos d * 2 ^ k <=? Zpos n else Zpos d <=? Zpos n * 2 ^ (- k))
  then k else k - 1.

(** [m * 2 ^ e] *)
Definition scaled (m e : Z) : Q :=
  if 0 <=? e then inject_Z (m * 2 ^ e) else m # Z.to_pos (2 ^ (- e)).

(** The double nearest to [n / d], as a significand of at most 53 bits
    and its exponent; below the normal range the exponent stays at
    -1074. *)
Definition nearest_double (n d : positive) : Z * Z :=
  let e := Z.max (leading_bit n d - 52) (-1074) in
  (if 0 <=? e then nearest_even (Zpos n) (Zpos d * 2 ^ e)
   else nearest_even (Zpos n * 2 ^ (- e)) (Zpos d),
   e).

(** [float(q)]: the double nearest to [q]; [None] when [q] rounds past
    the largest double (an infinity). *)
Definition float (q : Q) : option Q :=
  match Qnum q with
  | Z0 => Some 0%Q
  | Zpos n =>
      let (m, e) := nearest_double n (Qden q) in
      if 1024 <=? Z.log2 m + e then None else Some (scaled m e)
  | Zneg n =>
      let (m, e) := nearest_double n (Qden q) in
      if 1024 <=? Z.log2 m + e then None else Some (- scaled m e)%Q
  end.

(** [a * b] on two numbers, each held as the double nearest to it;
    [None] when the product is not finite. *)
Definition mul (a b : Q) : option Q :=
  match float a, float b with
  | Some x, Some y => float (x * y)
  | _, _ => None
  end.

(** [a / b] on two integers, [b] not zero: the double nearest to the
    quotient; [None] when it is too large for a float
    ([OverflowError]). *)
Definition truediv (a b : Z) : option Q := float (inject_Z a / inject_Z b).

End PyFloat.

(** ** Audio frames *)

(** One little-endian signed 16-bit sample, as [np.frombuffer(..., dtype=np.int16)]
    reads it on the Raspberry Pi. *)
Definition int16_of (lo hi : byte) : Z :=
  let u := Z.of_N (Byte.to_N lo) + 256 * Z.of_N (Byte.to_N hi) in
  if u <? 32768 then u else u - 65536.

Fixpoint frombuffer_int16 (pcm : list byte) : list Z :=
  match pcm with
  | lo :: hi :: rest => int16_of lo hi :: frombuffer_int16 rest
  | _ => []
  end.

Definition is_nil {A} (l : list A) : bool :=
  match l with [] => true | _ => false end.

(** ** Configuration *)

(** The [vad_config] dictionary: a key may be missing. *)
Record VadDict : Type := {
  d_energy_threshold : option Q;
  d_continued_threshold : option Q;
  d_silence_duration : option Q;
  d_min_speech_duration : option Q;
  d_speech_buffer_time : option Q;
  d_max_recording_time : option Q
}.

(** Lines 61-68: the calibrated settings, or [VAD_SETTINGS] when loading
    them (or formatting their [energy_threshold]) raises. *)
Definition load_config (loaded : Py VadDict) (VAD_SETTINGS : VadDict) : VadDict :=
  match loaded with
  | Val d => match d_energy_threshold d with
             | Some _ => d
             | None => VAD_SETTINGS
             end
  | Exc => VAD_SETTINGS
  end.

(** The audio manager, as far as the capture functions use it. *)
Record AudioManager : Type := {
  sample_rate : Z;
  frame_length : Z;
  stream_starts : bool;   (* [start_listening()] returns a stream *)
  stop_raises : bool      (* [stop_listening()] raises *)
}.

(** Line 93: [sample_rate / frame_length], a float; the division
    raises when [frame_length] is zero or the quotient is too large. *)
Definition frames_per_second (am : AudioManager) : Py Q :=
  if frame_length am =? 0 then Exc
  else match PyFloat.truediv (sample_rate am) (frame_length am) with
       | Some fps => Val fps
       | None => Exc
       end.

(** Line 94: [int(silence_duration * frames_per_second)], the product
    of two floats; [int] raises on a product that is not finite. *)
Definition silence_frames_needed_of (silence_duration frames_per_second : Q) : Py Z :=
  match PyFloat.mul silence_duration frames_per_second with
  | Some product => Val (PyNum.int product)
  | None => Exc
  end.

(** Line 80. *)
Definition initial_timeout_of (is_follow_up : bool) : Q :=
  if is_follow_up then 4 else 8.

(** The values that stay fixed while the timed loop runs. *)
Record VadCtx : Type := {
  energy_threshold : Q;
  continued_threshold : Q;
  silence_duration : Q;
  min_speech_duration : Q;
  speech_buffer_time : Q;
  max_recording_time : Q;
  frame_history_length : Z;
  initial_timeout : Q;
  overall_start_time : Q;
  silence_frames_needed : Z;
  keyboard_device : bool;      (* [self.keyboard_device] is set *)
  am_frame_length : Z          (* [self.audio_manager.frame_length] *)
}.

(** ** Keyboard *)

Record InputEvent : Type := { ev_type : Z; ev_code : Z; ev_value : Z }.

Definition EV_KEY : Z := 1.
Definition KEY_LEFTMETA : Z := 125.

(** What happens when a loop awaits the keyboard poll at the head of
    an iteration. The last case is an exception that is not an
    [Exception] - the [CancelledError] of a cancelled task, a
    [KeyboardInterrupt] - reaching the task there or during the sleep
    that ended the iteration before. *)
Inductive KbdPoll : Type :=
| KbdQuiet                            (* [select] reports nothing to read *)
| KbdEvents (evs : list InputEvent)   (* [read()] yields these events *)
| KbdWouldBlock                       (* [BlockingIOError] *)
| KbdFault                            (* any other [Exception] *)
| KbdInterrupt.                       (* [CancelledError], [KeyboardInterrupt] *)

Definition interrupts (k : KbdPoll) : bool :=
  match k with
  | KbdInterrupt => true
  | _ => false
  end.

Definition is_stop_event (e : InputEvent) : bool :=
  (ev_type e =? EV_KEY) && (ev_code e =? KEY_LEFTMETA) && (ev_value e =? 1).

(** [await self._check_manual_vad_stop()]: the call raises when the
    task is interrupted at this await, and on an exception of the
    device that is not a [BlockingIOError]. [interrupts] tells the two
    apart. *)
Definition _check_manual_vad_stop (keyboard_device : bool) (k : KbdPoll) : Py bool :=
  if interrupts k then Exc
  else if negb keyboard_device then Val false
  else match k with
       | KbdQuiet => Val false
       | KbdEvents evs => Val (existsb is_stop_event evs)
       | KbdWouldBlock => Val false
       | KbdFault => Exc
       | KbdInterrupt => Exc
       end.

(** ** Recognizer interface *)

(** The triple returned by [process_frame]. *)
Record RecognitionEvent : Type := {
  is_final : bool;
  confidence : option Q;
  text : string
}.

(** [self.transcriber]: an object with its own state [T]. *)
Class Recognizer (T : Type) : Type := {
  reset : T -> T * Py unit;
  process_frame : T -> list byte -> T * Py RecognitionEvent;
  get_final_text : T -> T * Py string
}.

(** ** Effects and inputs *)

Inductive Action : Type :=
| AUpdateDisplay (state mood : string)
| AInitializeInput
| AStartListening
| AReset
| ASleep (seconds : Q)
| AProcessFrame (pcm : list byte)
| APrintPartial (partial : string)
| AGetFinalText
| AStopListening.

(** What one loop iteration observes. *)
Record Tick : Type := {
  now : Q;                         (* [time.monotonic()] *)
  kbd : KbdPoll;
  pcm : Py (option (list byte))    (* [read_audio_frame()] *)
}.

(** Why the timed loop stopped with [break]. *)
Inductive BreakReason : Type :=
| ManualStopWithSpeech
| ManualStopWithoutSpeech
| MaxDuration
| SilenceTimeout
| RecognizerFinal.

(** How an iteration leaves the loop. [ReturnNone] is the initial
    timeout (line 112), [Raise] an exception on its way to
    [except Exception], [Abort] an exception that [except Exception]
    does not catch. *)
Inductive Exit : Type :=
| Break (why : BreakReason)
| ReturnNone
| Raise
| Abort.

(** ** The capture loops *)

Section Capture.

(** [np.sqrt], from numpy. *)
Variable np_sqrt : Q -> Q.

Context {T : Type} `{Recognizer T}.

(** Lines 130-132: root mean square of the samples scaled to [-1, 1]. *)
Definition frame_energy (pcm_bytes : list byte) : Q :=
  let frame_data_int16 := frombuffer_int16 pcm_bytes in
  let frame_data_float32 := map (fun x => inject_Z x / 32768)%Q frame_data_int16 in
  if is_nil frame_data_float32 then 0%Q
  else np_sqrt (PyNum.mean (map (fun x => x * x)%Q frame_data_float32)).

(** Lines 135-137: append, then drop the oldest reading on overflow. *)
Definition push_history (frame_history_length : Z) (frame_history : list Q)
    (current_energy : Q) : list Q :=
  let frame_history := frame_history ++ [current_energy] in
  if Z.of_nat (List.length frame_history) >? frame_history_length
  then tl frame_history else frame_history.

(** Line 138. *)
Definition avg_energy_of (frame_history : list Q) : Q :=
  if is_nil frame_history then 0%Q
  else (PyNum.sum frame_history / inject_Z (Z.of_nat (List.length frame_history)))%Q.

(** Lines 141-156: the recognizer's answer for one frame; a raised
    exception counts as no final segment and no partial text. *)
Definition read_event (r : Py RecognitionEvent) : bool * option string :=
  match r with
  | Val ev =>
      let partial_text_vosk := text ev in
      (is_final ev,
       if negb (PyStr.is_empty partial_text_vosk)
          && (PyStr.len (PyStr.strip partial_text_vosk) >? 0)
       then
         if match confidence ev with
            | None => true
            | Some c => PyNum.gt c (3 # 10)
            end
            || (Z.of_nat (List.length (PyStr.split partial_text_vosk)) >=? 2)
         then Some (PyStr.strip partial_text_vosk)
         else None
       else None)
  | Exc => (false, None)
  end.

(** The local variables of one timed capture. *)
Record Session : Type := {
  voice_started : bool;
  speech_start_time : Q;
  silence_frames_count : Z;
  frame_history : list Q;
  transcriber : T;
  last_partial_print_time : option Q
}.

Definition with_transcriber (s : Session) (t : T) : Session :=
  {| voice_started := voice_started s;
     speech_start_time := speech_start_time s;
     silence_frames_count := silence_frames_count s;
     frame_history := frame_history s;
     transcriber := t;
     last_partial_print_time := last_partial_print_time s |}.

(** The result of one pass through the body of [while True]:
    [exit = None] means the loop goes round again. *)
Record Step : Type := {
  actions : list Action;
  next : Session;
  exit : option Exit
}.

Definition step (a : list Action) (s : Session) (e : option Exit) : Step :=
  {| actions := a; next := s; exit := e |}.

(** Lines 185-188: the partial text is shown at most every 0.5 s. *)
Definition show_partial (current_time : Q) (current_partial : option string)
    (acts : list Action) (s : Session) : Step :=
  match current_partial with
  | Some p =>
      if match last_partial_print_time s with
         | None => true
         | Some t => PyNum.gt (current_time - t) (1 # 2)
         end
      then step (acts ++ [APrintPartial p])
             {| voice_started := voice_started s;
                speech_start_time := speech_start_time s;
                silence_frames_count := silence_frames_count s;
                frame_history := frame_history s;
                transcriber := transcriber s;
                last_partial_print_time := Some current_time |}
             None
      else step acts s None
  | None => step acts s None
  end.

(** Lines 129-188: a frame of the right size. *)
Definition vad_frame (C : VadCtx) (s : Session) (current_time : Q)
    (pcm_bytes : list byte) : Step :=
  let current_energy := frame_energy pcm_bytes in
  let frame_history := push_history (frame_history_length C) (frame_history s) current_energy in
  let avg_energy := avg_energy_of frame_history in
  let (t', r) := process_frame (transcriber s) pcm_bytes in
  let (is_final_vosk, current_partial) := read_event r in
  let acts := [AProcessFrame pcm_bytes] in
  if negb (voice_started s) then
    if PyNum.gt avg_energy (energy_threshold C) then
      show_partial current_time current_partial acts
        {| voice_started := true;
           speech_start_time := current_time;
           silence_frames_count := 0;
           frame_history := frame_history;
           transcriber := t';
           last_partial_print_time := last_partial_print_time s |}
    else
      show_partial current_time current_partial acts
        {| voice_started := false;
           speech_start_time := speech_start_time s;
           silence_frames_count := silence_frames_count s;
           frame_history := frame_history;
           transcriber := t';
           last_partial_print_time := last_partial_print_time s |}
  else
    let silence_frames_count :=
      if PyNum.gt avg_energy (continued_threshold C) then 0
      else silence_frames_count s + 1 in
    let speech_duration := (current_time - speech_start_time s)%Q in
    let s' := {| voice_started := true;
                 speech_start_time := speech_start_time s;
                 silence_frames_count := silence_frames_count;
                 frame_history := frame_history;
                 transcriber := t';
                 last_partial_print_time := last_partial_print_time s |} in
    if (silence_frames_count >=? silence_frames_needed C)
       && PyNum.ge speech_duration (min_speech_duration C)
    then step (acts ++ [ASleep (speech_buffer_time C)]) s' (Some (Break SilenceTimeout))
    else if is_final_vosk && PyNum.ge speech_duration (min_speech_duration C)
    then step acts s' (Some (Break RecognizerFinal))
    else show_partial current_time current_partial acts s'.

(** Lines 99-188: one pass through the body of the timed loop. *)
Definition vad_iteration (C : VadCtx) (s : Session) (tk : Tick) : Step :=
  let current_time := now tk in
  match _check_manual_vad_stop (keyboard_device C) (kbd tk) with
  | Exc => step [] s (Some (if interrupts (kbd tk) then Abort else Raise))
  | Val true =>
      if voice_started s
         && PyNum.gt (current_time - speech_start_time s) (min_speech_duration C)
      then step [ASleep (speech_buffer_time C)] s (Some (Break ManualStopWithSpeech))
      else
        let (t', r) := reset (transcriber s) in
        match r with
        | Val _ => step [AReset] (with_transcriber s t') (Some (Break ManualStopWithoutSpeech))
        | Exc => step [AReset] (with_transcriber s t') (Some Raise)
        end
  | Val false =>
      if negb (voice_started s)
         && PyNum.gt (current_time - overall_start_time C) (initial_timeout C)
      then step [] s (Some ReturnNone)
      else if voice_started s
              && PyNum.gt (current_time - speech_start_time s) (max_recording_time C)
      then step [] s (Some (Break MaxDuration))
      else
        match pcm tk with
        | Exc => step [] s (Some Raise)
        | Val None => step [ASleep (5 # 1000)] s None
        | Val (Some pcm_bytes) =>
            if is_nil pcm_bytes then step [ASleep (5 # 1000)] s None
            else
              let expected_frame_size := am_frame_length C * 2 in
              if negb (Z.of_nat (List.length pcm_bytes) =? expected_frame_size)
              then step [] s None
              else vad_frame C s current_time pcm_bytes
        end
  end.

(** One executed iteration, with the state it started from. *)
Record Iter : Type := { pre : Session; tick : Tick; outcome : Step }.

(** The iterations that the timed loop executes on the given ticks. *)
Fixpoint vad_run (C : VadCtx) (s : Session) (ticks : list Tick) : list Iter :=
  match ticks with
  | [] => []
  | tk :: rest =>
      let r := vad_iteration C s tk in
      {| pre := s; tick := tk; outcome := r |}
        :: match exit r with
           | None => vad_run C (next r) rest
           | Some _ => []
           end
  end.

(** [while True]: the actions performed, the final state and the way
    the loop was left; [None] when the ticks ran out first. *)
Fixpoint vad_loop (C : VadCtx) (s : Session) (ticks : list Tick) : Step :=
  match ticks with
  | [] => step [] s None
  | tk :: rest =>
      let r := vad_iteration C s tk in
      match exit r with
      | None =>
          let r' := vad_loop C (next r) rest in
          step (actions r ++ actions r') (next r') (exit r')
      | Some _ => r
      end
  end.

(** What a capture call leaves behind: [result = None] when the loop
    was still running after the last tick, [Some Exc] when an
    exception left the call. *)
Record Capture : Type := {
  trace : list Action;
  recognizer : T;
  result : option (Py (option string))
}.

Definition capture (a : list Action) (t : T) (r : option (Py (option string))) : Capture :=
  {| trace := a; recognizer := t; result := r |}.

(** Lines 191-229 applied to what [get_final_text] gave. *)
Definition vad_final (final : Py string) : Py (option string) :=
  match final with
  | Val final_transcript => Val (vad_accept final_transcript)
  | Exc => Exc
  end.

(** How the body of a [try:] ends: it is [Finished] when it returns
    or an [Exception] is raised in it, [Interrupted] when an exception
    that is not an [Exception] is raised in it. *)
Inductive Ending : Type :=
| Finished (r : Py (option string))
| Interrupted.

(** What the body of a [try:] leaves behind; [ending = None] when its
    loop was still running after the last tick. *)
Record TryBody : Type := {
  body_trace : list Action;
  body_recognizer : T;
  ending : option Ending
}.

Definition try_body (a : list Action) (t : T) (e : option Ending) : TryBody :=
  {| body_trace := a; body_recognizer := t; ending := e |}.

(** The body of [try:] (lines 98-229). *)
Definition vad_try (C : VadCtx) (s : Session) (ticks : list Tick) : TryBody :=
  let r := vad_loop C s ticks in
  match exit r with
  | None => try_body (actions r) (transcriber (next r)) None
  | Some ReturnNone =>
      try_body (actions r) (transcriber (next r)) (Some (Finished (Val None)))
  | Some Raise => try_body (actions r) (transcriber (next r)) (Some (Finished Exc))
  | Some Abort => try_body (actions r) (transcriber (next r)) (Some Interrupted)
  | Some (Break _) =>
      let (t', final) := get_final_text (transcriber (next r)) in
      try_body (actions r ++ [AGetFinalText]) t' (Some (Finished (vad_final final)))
  end.

(** [except Exception: ... return None] *)
Definition caught (r : Py (option string)) : option string :=
  match r with
  | Val v => v
  | Exc => None
  end.

(** [except Exception: return None] and [finally: stop_listening()]
    around a [try] body. An [Exception] raised in the body is caught
    and the call returns [None]; an interruption passes
    [except Exception] and leaves the call. Either way [finally] stops
    the stream first, and an exception of [stop_listening] leaves the
    call in place of whatever was on its way out. *)
Definition except_finally (am : AudioManager) (body : TryBody) : Capture :=
  match ending body with
  | None => capture (body_trace body) (body_recognizer body) None
  | Some e =>
      capture (body_trace body ++ [AStopListening]) (body_recognizer body)
        (Some (if stop_raises am then Exc
               else match e with
                    | Finished r => Val (caught r)
                    | Interrupted => Exc
                    end))
  end.

(** What does not depend on the loop inputs. *)
Record Setup : Type := {
  speech_enabled : bool;        (* [vosk_readiness.is_speech_enabled()] *)
  has_keyboard : bool;
  audio_manager : AudioManager;
  loaded_settings : Py VadDict; (* [load_vad_settings()] *)
  VAD_SETTINGS : VadDict;
  start_clock : Q               (* [time.monotonic()] before the loop *)
}.

(** Lines 84-95, the state the timed loop starts from. *)
Definition vad_start (t : T) : Session :=
  {| voice_started := false;
     speech_start_time := 0;
     silence_frames_count := 0;
     frame_history := [];
     transcriber := t;
     last_partial_print_time := None |}.

(** Lines 70-94. The context is built once line 94 has not raised. *)
Definition vad_context (E : Setup) (is_follow_up : bool) (vad_config : VadDict)
    (energy_threshold frames_per_second : Q) : VadCtx :=
  let silence_duration := PyNum.get (d_silence_duration vad_config) 3 in
  {| energy_threshold := energy_threshold;
     continued_threshold :=
       PyNum.get (d_continued_threshold vad_config) (energy_threshold * (6 # 10));
     silence_duration := silence_duration;
     min_speech_duration := PyNum.get (d_min_speech_duration vad_config) (4 # 10);
     speech_buffer_time := PyNum.get (d_speech_buffer_time vad_config) 1;
     max_recording_time := PyNum.get (d_max_recording_time vad_config) 45;
     frame_history_length := 20;
     initial_timeout := initial_timeout_of is_follow_up;
     overall_start_time := start_clock E;
     silence_frames_needed :=
       match silence_frames_needed_of silence_duration frames_per_second with
       | Val n => n
       | Exc => 0
       end;
     keyboard_device := has_keyboard E;
     am_frame_length := frame_length (audio_manager E) |}.

(** Lines 49-53. *)
Definition vad_opening (is_follow_up : bool) : list Action :=
  [AUpdateDisplay "listening" (if negb is_follow_up then "curious" else "attentive");
   AInitializeInput; AStartListening].

(** [capture_speech_with_unified_vad]. The display and the audio
    manager's [initialize_input] and [start_listening] are taken not
    to raise. *)
Definition capture_speech_with_unified_vad (E : Setup) (t : T)
    (is_follow_up : bool) (ticks : list Tick) : Capture :=
  if negb (speech_enabled E)
  then capture [AUpdateDisplay "error" "confused"] t (Some (Val None))
  else
    let opening := vad_opening is_follow_up in
    if negb (stream_starts (audio_manager E))
    then capture opening t (Some (Val None))
    else
      let vad_config := load_config (loaded_settings E) (VAD_SETTINGS E) in
      match d_energy_threshold vad_config with
      | None => capture opening t (Some Exc)
      | Some energy_threshold =>
          let (t0, r) := reset t in
          match r with
          | Exc => capture (opening ++ [AReset]) t0 (Some Exc)
          | Val _ =>
              match frames_per_second (audio_manager E) with
              | Exc => capture (opening ++ [AReset]) t0 (Some Exc)
              | Val fps =>
                  match silence_frames_needed_of
                          (PyNum.get (d_silence_duration vad_config) 3) fps with
                  | Exc => capture (opening ++ [AReset]) t0 (Some Exc)
                  | Val _ =>
                      let C := vad_context E is_follow_up vad_config energy_threshold fps in
                      let body := except_finally (audio_manager E)
                                    (vad_try C (vad_start t0) ticks) in
                      capture (opening ++ [AReset] ++ trace body) (recognizer body)
                        (result body)
                  end
              end
          end
      end.

(** Lines 43-94 when nothing ends the call before [try:]: the loop
    context and the recognizer after its first reset. *)
Definition vad_setup (E : Setup) (t : T) (is_follow_up : bool) : option (VadCtx * T) :=
  if speech_enabled E && stream_starts (audio_manager E) then
    let vad_config := load_config (loaded_settings E) (VAD_SETTINGS E) in
    match d_energy_threshold vad_config, reset t, frames_per_second (audio_manager E) with
    | Some energy_threshold, (t0, Val _), Val fps =>
        match silence_frames_needed_of (PyNum.get (d_silence_duration vad_config) 3) fps with
        | Val _ => Some (vad_context E is_follow_up vad_config energy_threshold fps, t0)
        | Exc => None
        end
    | _, _, _ => None
    end
  else None.

(** The smoothed energy that an iteration works out when its tick
    carries a frame of the expected size. *)
Definition smoothed_energy (C : VadCtx) (s : Session) (tk : Tick) : option Q :=
  match pcm tk with
  | Val (Some pcm_bytes) =>
      if negb (is_nil pcm_bytes)
         && (Z.of_nat (List.length pcm_bytes) =? am_frame_length C * 2)
      then Some (avg_energy_of
                   (push_history (frame_history_length C) (frame_history s)
                      (frame_energy pcm_bytes)))
      else None
  | _ => None
  end.

(** The iteration saw no stop request and no failed read, the initial
    timeout had not run out, and the smoothed energy (if a frame was
    handled) did not exceed [energy_threshold]. *)
Definition waits_calmly (C : VadCtx) (i : Iter) : bool :=
  match _check_manual_vad_stop (keyboard_device C) (kbd (tick i)) with
  | Val false => true
  | _ => false
  end
  && match pcm (tick i) with
     | Exc => false
     | Val _ => true
     end
  && negb (PyNum.gt (now (tick i) - overall_start_time C) (initial_timeout C))
  && match smoothed_energy C (pre i) (tick i) with
     | Some a => negb (PyNum.gt a (energy_threshold C))
     | None => true
     end.

(** The smoothed energy of the iteration (if a frame was handled) was
    above [continued_threshold]. *)
Definition stays_above (C : VadCtx) (i : Iter) : bool :=
  match smoothed_energy C (pre i) (tick i) with
  | Some a => PyNum.gt a (continued_threshold C)
  | None => true
  end.

(** *** Push-to-talk *)

(** How the push-to-talk loop is left; [PttAbort] is an exception
    that [except Exception] does not catch. *)
Inductive PttExit : Type :=
| PttManualStop
| PttMaxTime
| PttRaise
| PttAbort.

(** Lines 264-294: one pass through the body of the push-to-talk
    loop. The state is the recognizer and the time of the last partial
    text shown. *)
Definition ptt_iteration (keyboard_device : bool) (start_time max_recording_time : Q)
    (s : T * option Q) (tk : Tick) : list Action * (T * option Q) * option PttExit :=
  let current_time := now tk in
  match _check_manual_vad_stop keyboard_device (kbd tk) with
  | Exc => ([], s, Some (if interrupts (kbd tk) then PttAbort else PttRaise))
  | Val true => ([], s, Some PttManualStop)
  | Val false =>
      if PyNum.gt (current_time - start_time) max_recording_time
      then ([], s, Some PttMaxTime)
      else
        match pcm tk with
        | Exc => ([], s, Some PttRaise)
        | Val None => ([ASleep (5 # 1000)], s, None)
        | Val (Some pcm_bytes) =>
            if is_nil pcm_bytes then ([ASleep (5 # 1000)], s, None)
            else
              let (t', r) := process_frame (fst s) pcm_bytes in
              match r with
              | Val ev =>
                  let partial_text_vosk := text ev in
                  if negb (PyStr.is_empty partial_text_vosk)
                     && (PyStr.len (PyStr.strip partial_text_vosk) >? 0)
                     && match snd s with
                        | None => true
                        | Some l => PyNum.gt (current_time - l) (1 # 2)
                        end
                  then ([AProcessFrame pcm_bytes; APrintPartial partial_text_vosk],
                        (t', Some current_time), None)
                  else ([AProcessFrame pcm_bytes], (t', snd s), None)
              | Exc => ([AProcessFrame pcm_bytes], (t', snd s), None)
              end
        end
  end.

Fixpoint ptt_loop (keyboard_device : bool) (start_time max_recording_time : Q)
    (s : T * option Q) (ticks : list Tick)
    : list Action * (T * option Q) * option PttExit :=
  match ticks with
  | [] => ([], s, None)
  | tk :: rest =>
      match ptt_iteration keyboard_device start_time max_recording_time s tk with
      | (a, s', None) =>
          let '(a', s'', e) := ptt_loop keyboard_device start_time max_recording_time s' rest in
          (a ++ a', s'', e)
      | r => r
      end
  end.

(** Lines 297-311 applied to what [get_final_text] gave. *)
Definition ptt_final (final : Py string) : Py (option string) :=
  match final with
  | Val final_transcript => Val (ptt_accept final_transcript)
  | Exc => Exc
  end.

(** The body of [try:] (lines 264-311). *)
Definition ptt_try (keyboard_device : bool) (start_time : Q) (t : T)
    (ticks : list Tick) : TryBody :=
  let max_recording_time := 60%Q in
  let '(a, s, e) := ptt_loop keyboard_device start_time max_recording_time (t, None) ticks in
  match e with
  | None => try_body a (fst s) None
  | Some PttRaise => try_body a (fst s) (Some (Finished Exc))
  | Some PttAbort => try_body a (fst s) (Some Interrupted)
  | Some _ =>
      let (t', final) := get_final_text (fst s) in
      try_body (a ++ [AGetFinalText]) t' (Some (Finished (ptt_final final)))
  end.

(** Lines 250-252. *)
Definition ptt_opening : list Action :=
  [AUpdateDisplay "listening" "attentive"; AInitializeInput; AStartListening].

(** [capture_speech_push_to_talk] *)
Definition capture_speech_push_to_talk (E : Setup) (t : T) (ticks : list Tick) : Capture :=
  if negb (speech_enabled E)
  then capture [AUpdateDisplay "error" "confused"] t (Some (Val None))
  else
    let opening := ptt_opening in
    if negb (stream_starts (audio_manager E))
    then capture opening t (Some (Val None))
    else
      let (t0, r) := reset t in
      match r with
      | Exc => capture (opening ++ [AReset]) t0 (Some Exc)
      | Val _ =>
          let body := except_finally (audio_manager E)
                        (ptt_try (has_keyboard E) (start_clock E) t0 ticks) in
          capture (opening ++ [AReset] ++ trace body) (recognizer body) (result body)
      end.

(** Lines 244-261 when nothing ends the call before [try:]: the
    recognizer after its first reset. *)
Definition ptt_setup (E : Setup) (t : T) : option T :=
  if speech_enabled E && stream_starts (audio_manager E) then
    match reset t with
    | (t0, Val _) => Some t0
    | _ => None
    end
  else None.

End Capture.

(** ** Vocabulary for the statements *)

(** The actions of handling a frame: the idle sleep or the pause before
    finalizing, the recognizer call and the partial text. *)
Definition frame_action (a : Action) : bool :=
  match a with
  | ASleep _ | AProcessFrame _ | APrintPartial _ => true
  | _ => false
  end.




(** Neither the keyboard nor the audio read raises in this iteration. *)
Definition sound (keyboard_device : bool) (tk : Tick) : Prop :=
  _check_manual_vad_stop keyboard_device (kbd tk) <> Exc /\ pcm tk <> Exc.

(** The iteration sees the manual stop or a clock past the ceiling. *)
Definition ends_push_to_talk (keyboard_device : bool) (start_time : Q) (tk : Tick) : Prop :=
  _check_manual_vad_stop keyboard_device (kbd tk) = Val true
  \/ (60 < now tk - start_time)%Q.



(** ** A recognizer: [VoskTranscriber] of [src/audio/vosk_transcriber.py] *)

Module Vosk.

Local Open Scope string_scope.

(** Stand-in for vosk's [KaldiRecognizer], which the transcriber
    drives: the audio buffered since the recognizer was created or
    last gave a result decides whether [AcceptWaveform] reports the
    end of a segment and what text is decoded. A recognizer that was
    fed no audio has no text. *)
Record Kaldi : Type := {
  endpoint : list (list byte) -> bool;
  decode : list (list byte) -> string
}.

Record VoskTranscriber : Type := {
  kaldi : Kaldi;
  complete_text : string;
  partial_text : string;
  heard : list (list byte)
}.

(** [(complete_text + " " + chunk).strip() if complete_text else chunk] *)
Definition join (complete_text chunk : string) : string :=
  if PyStr.is_empty complete_text then chunk
  else PyStr.strip (complete_text ++ " " ++ chunk).

Definition truth (b : bool) : option Q := Some (if b then 1 else 0)%Q.

Definition vosk_reset (v : VoskTranscriber) : VoskTranscriber * Py unit :=
  ({| kaldi := kaldi v; complete_text := ""; partial_text := ""; heard := [] |},
   Val tt).

Definition vosk_process_frame (v : VoskTranscriber) (frame_data_bytes : list byte)
    : VoskTranscriber * Py RecognitionEvent :=
  let audio := (heard v ++ [frame_data_bytes])%list in
  if endpoint (kaldi v) audio then
    let text_chunk := PyStr.strip (decode (kaldi v) audio) in
    if negb (PyStr.is_empty text_chunk) then
      let complete := join (complete_text v) text_chunk in
      ({| kaldi := kaldi v; complete_text := complete;
          partial_text := partial_text v; heard := [] |},
       Val {| is_final := true; confidence := truth true; text := complete |})
    else
      ({| kaldi := kaldi v; complete_text := complete_text v;
          partial_text := partial_text v; heard := [] |},
       Val {| is_final := true; confidence := truth false; text := complete_text v |})
  else
    let partial := PyStr.strip (decode (kaldi v) audio) in
    ({| kaldi := kaldi v; complete_text := complete_text v;
        partial_text := partial; heard := audio |},
     Val {| is_final := false;
            confidence := truth (negb (PyStr.is_empty partial));
            text := join (complete_text v) partial |}).

Definition vosk_get_final_text (v : VoskTranscriber) : VoskTranscriber * Py string :=
  let final_vosk_text_chunk :=
    PyStr.strip (if is_nil (heard v) then "" else decode (kaldi v) (heard v)) in
  let complete :=
    if negb (PyStr.is_empty final_vosk_text_chunk)
    then join (complete_text v) final_vosk_text_chunk
    else complete_text v in
  ({| kaldi := kaldi v; complete_text := complete;
      partial_text := partial_text v; heard := [] |},
   Val (PyStr.strip complete)).

#[global] Instance vosk_recognizer : Recognizer VoskTranscriber := {
  reset := vosk_reset;
  process_frame := vosk_process_frame;
  get_final_text := vosk_get_final_text
}.

(** A decoder that hears [words] in any audio and never ends a segment
    by itself. *)
Definition says (words : string) : Kaldi :=
  {| endpoint := fun _ => false;
     decode := fun audio => if is_nil audio then "" else words |}.

Definition fresh (k : Kaldi) : VoskTranscriber :=
  {| kaldi := k; complete_text := ""; partial_text := ""; heard := [] |}.

End Vosk.

(** A recognizer whose server connection is down: [reset] raises, as
    [VoskWebSocketClient.reset] does when it cannot connect
    ([src/audio/vosk_websocket_client.py]); without a connection
    [process_frame] reports nothing and [get_final_text] returns the
    (empty) accumulated text. *)
Module Offline.

Local Open Scope string_scope.

Definition offline_reset (u : unit) : unit * Py unit := (u, Exc).

Definition offline_process_frame (u : unit) (_ : list byte) : unit * Py RecognitionEvent :=
  (u, Val {| is_final := false; confidence := Some 0%Q; text := "" |}).

Definition offline_get_final_text (u : unit) : unit * Py string := (u, Val "").

#[global] Instance offline_recognizer : Recognizer unit := {
  reset := offline_reset;
  process_frame := offline_process_frame;
  get_final_text := offline_get_final_text
}.

End Offline.

(** ** Sample inputs *)

Module Sample.

Local Open Scope string_scope.
Local Open Scope Q_scope.

(** A square root that is exact on squares of rationals (it rounds
    down elsewhere). *)
Definition sqrt_exact (q : Q) : Q :=
  let r := Qred q in Z.sqrt (Qnum r) # Pos.sqrt (Qden r).

(** [n] samples of value 16384 (bytes 00 40): energy 1/2. *)
Definition tone (n : nat) : list byte := List.concat (List.repeat [x00; x40] n).

(** [n] samples of value 8192 (bytes 00 20): energy 1/4. *)
Definition murmur (n : nat) : list byte := List.concat (List.repeat [x00; x20] n).

(** [n] samples of value 0: energy 0. *)
Definition hush (n : nat) : list byte := List.concat (List.repeat [x00; x00] n).

(** 16 kHz audio in frames of 2048 samples. *)
Definition pi_audio : AudioManager :=
  {| sample_rate := 16000; frame_length := 2048;
     stream_starts := true; stop_raises := false |}.

(** Settings with only the thresholds given; the other keys take the
    defaults of lines 72-76. *)
Definition thresholds (energy continued : Q) : VadDict :=
  {| d_energy_threshold := Some energy;
     d_continued_threshold := Some continued;
     d_silence_duration := None;
     d_min_speech_duration := None;
     d_speech_buffer_time := None;
     d_max_recording_time := None |}.

Definition pi_setup : Setup :=
  {| speech_enabled := true;
     has_keyboard := true;
     audio_manager := pi_audio;
     loaded_settings := Exc;
     VAD_SETTINGS := thresholds (3 # 10) (2 # 10);
     start_clock := 100 |}.

Definition left_meta_down : KbdPoll :=
  KbdEvents [{| ev_type := EV_KEY; ev_code := KEY_LEFTMETA; ev_value := 1 |}].

Definition frame_at (t : Q) (frame : list byte) : Tick :=
  {| now := t; kbd := KbdQuiet; pcm := Val (Some frame) |}.

Definition idle_at (t : Q) : Tick :=
  {| now := t; kbd := KbdQuiet; pcm := Val None |}.

Definition stop_at (t : Q) : Tick :=
  {| now := t; kbd := left_meta_down; pcm := Val None |}.


(** [pi_setup] with other settings. *)
Definition with_settings (d : VadDict) : Setup :=
  {| speech_enabled := true;
     has_keyboard := true;
     audio_manager := pi_audio;
     loaded_settings := Exc;
     VAD_SETTINGS := d;
     start_clock := 100 |}.

(** Thresholds 0.3 and 0.2, half a second of speech at least. *)
Definition half_second : VadDict :=
  {| d_energy_threshold := Some (3 # 10);
     d_continued_threshold := Some (2 # 10);
     d_silence_duration := None;
     d_min_speech_duration := Some (1 # 2);
     d_speech_buffer_time := None;
     d_max_recording_time := None |}.

(** Thresholds 0.4 and 0.2, an eighth of a second of silence (less
    than one frame of 0.128 s), half a second of speech at least. *)
Definition brief_silence : VadDict :=
  {| d_energy_threshold := Some (4 # 10);
     d_continued_threshold := Some (2 # 10);
     d_silence_duration := Some (1 # 8);
     d_min_speech_duration := Some (1 # 2);
     d_speech_buffer_time := None;
     d_max_recording_time := None |}.



(** A recognizer that hears "ok go", and one that hears "a". *)
Definition ok_go : Vosk.VoskTranscriber := Vosk.fresh (Vosk.says "ok go").
Definition just_a : Vosk.VoskTranscriber := Vosk.fresh (Vosk.says "a").


(** The loop context that [pi_setup] gives a first-turn capture. *)
Definition pi_ctx : VadCtx :=
  vad_context pi_setup false (VAD_SETTINGS pi_setup) (3 # 10) (16000 / 2048).

End Sample.
(** ** Vocabulary for whole runs *)

(** The frames that a trace handed to the recognizer, in order. *)
Fixpoint sent (acts : list Action) : list (list byte) :=
  match acts with
  | [] => []
  | AProcessFrame pcm :: rest => pcm :: sent rest
  | _ :: rest => sent rest
  end.

(** The last [n] elements of a list. *)
Definition lastn {A : Type} (n : nat) (l : list A) : list A :=
  skipn (List.length l - n) l.

(** The frame that an iteration of the timed loop lets through to the
    energy estimate and the recognizer: nothing when the iteration is
    stopped by hand or by a timeout, when the keyboard or the read
    raises, or when the frame is missing, empty or of the wrong size. *)
Definition handled {T : Type} (C : VadCtx) (s : @Session T) (tk : Tick)
    : option (list byte) :=
  match _check_manual_vad_stop (keyboard_device C) (kbd tk) with
  | Val false =>
      if negb (voice_started s)
         && PyNum.gt (now tk - overall_start_time C) (initial_timeout C)
      then None
      else if voice_started s
              && PyNum.gt (now tk - speech_start_time s) (max_recording_time C)
      then None
      else match pcm tk with
           | Val (Some pcm_bytes) =>
               if negb (is_nil pcm_bytes)
                  && (Z.of_nat (List.length pcm_bytes) =? am_frame_length C * 2)
               then Some pcm_bytes
               else None
           | _ => None
           end
  | _ => None
  end.

(** The frames that the ticks offer: the non-empty reads. *)
Fixpoint frames_of (ticks : list Tick) : list (list byte) :=
  match ticks with
  | [] => []
  | tk :: rest =>
      match pcm tk with
      | Val (Some pcm_bytes) =>
          if is_nil pcm_bytes then frames_of rest else pcm_bytes :: frames_of rest
      | _ => frames_of rest
      end
  end.

(** The iteration of push-to-talk ends the loop: manual stop, clock past
    the ceiling, or an exception from the keyboard or the read. *)
Definition ptt_ends (keyboard_device : bool) (start_time max_recording_time : Q)
    (tk : Tick) : bool :=
  match _check_manual_vad_stop keyboard_device (kbd tk) with
  | Val false =>
      PyNum.gt (now tk - start_time) max_recording_time
      || match pcm tk with
         | Exc => true
         | Val _ => false
         end
  | _ => true
  end.

(** The ticks before the first one that satisfies [p]. *)
Fixpoint before_first {A : Type} (p : A -> bool) (l : list A) : list A :=
  match l with
  | [] => []
  | x :: rest => if p x then [] else x :: before_first p rest
  end.

(** The iteration lets a frame through, the smoothed energy does not
    exceed [continued_threshold], and the speech has lasted
    [min_speech_duration] at least. *)
Definition quiet_frame (np_sqrt : Q -> Q) {T : Type} (C : VadCtx) (i : @Iter T) : bool :=
  match handled C (pre i) (tick i), smoothed_energy np_sqrt C (pre i) (tick i) with
  | Some _, Some a =>
      negb (PyNum.gt a (continued_threshold C))
      && PyNum.ge (now (tick i) - speech_start_time (pre i)) (min_speech_duration C)
  | _, _ => false
  end.

(** More sample inputs. *)
Module Drill.

Local Open Scope Q_scope.

(** Ticks that offer the given frames, the first at [t], one every
    [step] seconds. *)
Fixpoint frames_from (t step : Q) (frames : list (list byte)) : list Tick :=
  match frames with
  | [] => []
  | f :: rest => Sample.frame_at t f :: frames_from (Qred (t + step)) step rest
  end.

(** Thresholds 0.3 and 0.2, half a second of silence (3 frames of
    0.128 s), half a second of speech at least. *)
Definition half_second_silence : VadDict :=
  {| d_energy_threshold := Some (3 # 10);
     d_continued_threshold := Some (2 # 10);
     d_silence_duration := Some (1 # 2);
     d_min_speech_duration := Some (1 # 2);
     d_speech_buffer_time := None;
     d_max_recording_time := None |}.

Definition short_silence_ctx : VadCtx :=
  vad_context (Sample.with_settings half_second_silence) false half_second_silence
    (3 # 10) (16000 / 2048).

End Drill.

(** The trace contains a recognizer reset. *)
Definition has_reset (acts : list Action) : bool :=
  existsb (fun a => match a with AReset => true | _ => false end) acts.

(** The recognizer after it was given the frames one after the other. *)
Definition feed {T : Type} `{Recognizer T} (t : T) (frames : list (list byte)) : T :=
  fold_left (fun t pcm => fst (process_frame t pcm)) frames t.

(** ** Wake events ([src/system/input_manager.py]) *)

Module InputManager.

Definition KEY_LEFTSHIFT : Z := 42.

(** [self.keys_pressed], a set of key codes, kept as a list without
    repeats: [add], [discard] and the membership test. *)
Definition member (code : Z) (keys : list Z) : bool := existsb (Z.eqb code) keys.

Definition add (code : Z) (keys : list Z) : list Z :=
  if member code keys then keys else code :: keys.

Definition discard (code : Z) (keys : list Z) : list Z :=
  filter (fun k => negb (code =? k)) keys.

(** What the keyboard device does when [_listen_keyboard_sync] polls it. *)
Inductive KeyboardRead : Type :=
| NotReady                          (* [select] reports nothing to read *)
| Events (evs : list InputEvent)    (* [read()] yields these events *)
| OsError                           (* [BlockingIOError] or another [OSError] *)
| Fault.                            (* any other exception *)

(** The [for event in self.keyboard_device.read()] loop of
    [_listen_keyboard_sync]: the key set is updated event by event and
    the loop returns at the first press of the left meta key. *)
Fixpoint scan_events (keys_pressed : list Z) (evs : list InputEvent)
    : list Z * option string :=
  match evs with
  | [] => (keys_pressed, None)
  | event :: rest =>
      if ev_type event =? EV_KEY then
        let keys_pressed :=
          if ev_value event =? 1 then add (ev_code event) keys_pressed
          else if ev_value event =? 0 then discard (ev_code event) keys_pressed
          else keys_pressed in
        if (ev_code event =? KEY_LEFTMETA) && (ev_value event =? 1) then
          if member KEY_LEFTSHIFT keys_pressed
          then (keys_pressed, Some "keyboard_code"%string)
          else (keys_pressed, Some "keyboard_laura"%string)
        else scan_events keys_pressed rest
      else scan_events keys_pressed rest
  end.

(** [_listen_keyboard_sync] *)
Definition _listen_keyboard_sync (keyboard_device : bool) (keys_pressed : list Z)
    (k : KeyboardRead) : list Z * Py (option string) :=
  if negb keyboard_device then (keys_pressed, Val None)
  else match k with
       | NotReady => (keys_pressed, Val None)
       | Events evs =>
           let (keys, event) := scan_events keys_pressed evs in (keys, Val event)
       | OsError => (keys_pressed, Val None)
       | Fault => (keys_pressed, Exc)
       end.

(** [check_for_wake_events]; [wakeword_model] is what
    [wake_word_detection] returns when it is asked. *)
Definition check_for_wake_events (keyboard_device : bool) (keys_pressed : list Z)
    (k : KeyboardRead) (wakeword_model : option string)
    : list Z * Py (option string) :=
  match _listen_keyboard_sync keyboard_device keys_pressed k with
  | (keys, Exc) => (keys, Exc)
  | (keys, Val (Some keyboard_event)) =>
      if PyStr.is_empty keyboard_event
      then (keys, Val match wakeword_model with
                      | Some m => if PyStr.is_empty m then None
                                  else Some ("wakeword (" ++ m ++ ")")%string
                      | None => None
                      end)
      else (keys, Val (Some keyboard_event))
  | (keys, Val None) =>
      (keys, Val match wakeword_model with
                 | Some m => if PyStr.is_empty m then None
                             else Some ("wakeword (" ++ m ++ ")")%string
                 | None => None
                 end)
  end.

(** Whether the latest press or release of [code] among the events was
    a press; [before] is the answer when there was none. *)
Definition held (code : Z) (before : bool) (evs : list InputEvent) : bool :=
  fold_left
    (fun h event =>
       if (ev_type event =? EV_KEY) && (ev_code event =? code) then
         if ev_value event =? 1 then true
         else if ev_value event =? 0 then false
         else h
       else h)
    evs before.

End InputManager.

(** ** More Python string operations *)

Module PyText.

(** [c in s] for one character. *)
Fixpoint has_char (c : ascii) (s : string) : bool :=
  match s with
  | EmptyString => false
  | String x r => Ascii.eqb x c || has_char c r
  end.

(** [sub in s] *)
Fixpoint contains (sub s : string) : bool :=
  String.prefix sub s
  || match s with
     | EmptyString => false
     | String _ r => contains sub r
     end.

(** [s.startswith(p)] *)
Definition startswith (p s : string) : bool := String.prefix p s.

(** [s.split(sep)] for a one-character separator: the pieces between
    the separators, empty ones included. *)
Fixpoint split_on (sep : ascii) (s : string) : list string :=
  match s with
  | EmptyString => [EmptyString]
  | String c r =>
      if Ascii.eqb c sep then EmptyString :: split_on sep r
      else match split_on sep r with
           | piece :: pieces => String c piece :: pieces
           | [] => [String c EmptyString]
           end
  end.

(** [s.rstrip(c)] for one character. *)
Fixpoint rstrip_char (c : ascii) (s : string) : string :=
  match s with
  | EmptyString => EmptyString
  | String x r =>
      let r' := rstrip_char c r in
      if Ascii.eqb x c && PyStr.is_empty r' then EmptyString else String x r'
  end.

(** [l[i]], which raises [IndexError] out of range. *)
Definition item {A : Type} (l : list A) (i : nat) : Py A :=
  match nth_error l i with
  | Some x => Val x
  | None => Exc
  end.

(** The part of [s] before the first [c] (all of [s] when there is none). *)
Fixpoint before_char (c : ascii) (s : string) : string :=
  match s with
  | EmptyString => EmptyString
  | String x r => if Ascii.eqb x c then EmptyString else String x (before_char c r)
  end.

(** [s.endswith(c)] for one character. *)
Fixpoint ends_with (c : ascii) (s : string) : bool :=
  match s with
  | EmptyString => false
  | String x EmptyString => Ascii.eqb x c
  | String _ r => ends_with c r
  end.

End PyText.

(** ** The client's main loop ([src/run_v2.py]) *)

Module Client.

Local Open Scope string_scope.

(** The wake event that [check_for_wake_events] builds for a wake-word
    model. *)
Definition wake_source (wakeword_model : string) : string :=
  "wakeword (" ++ wakeword_model ++ ")".

(** [wake_event_source.split('(')[1].rstrip(')')] *)
Definition model_name_of (wake_event_source : string) : Py string :=
  match PyText.item (PyText.split_on "(" wake_event_source) 1 with
  | Val piece => Val (PyText.rstrip_char ")" piece)
  | Exc => Exc
  end.

(** The shared body of [_should_route_to_claude_code] and
    [_should_send_note_to_mac]: whether the model named by the wake
    event is in the given list. *)
Definition names_model_in (wake_words : list string) (wake_event_source : string) : bool :=
  if PyStr.is_empty wake_event_source
     || negb (PyText.contains "wakeword" wake_event_source)
  then false
  else if PyText.has_char "(" wake_event_source && PyText.has_char ")" wake_event_source
  then match model_name_of wake_event_source with
       | Val model_name => existsb (String.eqb model_name) wake_words
       | Exc => false
       end
  else false.

Definition _should_route_to_claude_code (wake_event_source : string) : bool :=
  let claude_code_wake_words := ["claudecode.pmdl"] in
  names_model_in claude_code_wake_words wake_event_source.

Definition _should_send_note_to_mac (wake_event_source : string) : bool :=
  let note_transfer_wake_words := ["sendnote.pmdl"] in
  names_model_in note_transfer_wake_words wake_event_source.

(** Lines 235-269 of [run_main_loop]: what follows a wake event. The
    event of a wake word has its model name read off, which raises
    when the event holds no "(". The model "tookmycrazypills.pmdl"
    acknowledges the medicine reminder and the loop goes round again
    with no capture at all ([Val None]). Every other event is followed
    by a capture: push-to-talk for the two keyboard events, the timed
    capture of a first turn otherwise. The reminder, the sounds and
    the display are taken not to raise. *)
Definition capture_after_wake (np_sqrt : Q -> Q) {T : Type} `{Recognizer T}
    (E : Setup) (t : T) (wake_event_source : string) (ticks : list Tick)
    : Py (option (@Capture T)) :=
  let transcript :=
    if existsb (String.eqb wake_event_source) ["keyboard_laura"; "keyboard_code"]
    then capture_speech_push_to_talk E t ticks
    else capture_speech_with_unified_vad np_sqrt E t false ticks in
  if PyText.contains "wakeword" wake_event_source then
    match model_name_of wake_event_source with
    | Exc => Exc
    | Val model_name =>
        if String.eqb model_name "tookmycrazypills.pmdl" then Val None
        else Val (Some transcript)
    end
  else Val (Some transcript).

End Client.

(** ** The recognition server's client ([src/audio/vosk_websocket_client.py]) *)

Module VoskWebSocketClient.

Local Open Scope string_scope.

(** A message of the server, a JSON object: its ['type'] and ['text']
    entries, either of which may be missing. A ['text'] entry is a
    string. *)
Record Response : Type := {
  msg_type : option string;
  msg_text : option string
}.

(** [response.get('type') == name] *)
Definition type_is (response : Response) (name : string) : bool :=
  match msg_type response with
  | Some t => String.eqb t name
  | None => false
  end.

(** [response.get('text', '').strip()] *)
Definition stripped_text (response : Response) : string :=
  PyStr.strip (match msg_text response with Some t => t | None => "" end).

(** The fields of the client the transcription methods read and
    write. [connected] is also cleared by the message handler when the
    connection closes; a method sees the value it reads. *)
Record State : Type := {
  connected : bool;
  complete_text : string;
  partial_text : string
}.

Definition set_complete_text (c : State) (t : string) : State :=
  {| connected := connected c; complete_text := t; partial_text := partial_text c |}.

Definition set_partial_text (c : State) (t : string) : State :=
  {| connected := connected c; complete_text := complete_text c; partial_text := t |}.

(** Lines 191-195 and 264-268: a final chunk joins the transcript. *)
Definition add_chunk (c : State) (text : string) : State :=
  {| connected := connected c;
     complete_text := if negb (PyStr.is_empty (complete_text c))
                      then complete_text c ++ " " ++ text
                      else text;
     partial_text := "" |}.

Definition _get_current_text (c : State) : string :=
  if negb (PyStr.is_empty (complete_text c)) && negb (PyStr.is_empty (partial_text c))
  then complete_text c ++ " " ++ partial_text c
  else if negb (PyStr.is_empty (complete_text c)) then complete_text c
  else if negb (PyStr.is_empty (partial_text c)) then partial_text c
  else "".

Definition _process_response (c : State) (response : Response)
    : State * RecognitionEvent :=
  if type_is response "final" then
    let text := stripped_text response in
    if negb (PyStr.is_empty text) then
      let c := add_chunk c text in
      (c, {| is_final := true; confidence := Vosk.truth true;
             text := complete_text c |})
    else
      (c, {| is_final := true; confidence := Vosk.truth false;
             text := complete_text c |})
  else if type_is response "partial" then
    let c := set_partial_text c (stripped_text response) in
    (c, {| is_final := false;
           confidence := Vosk.truth (negb (PyStr.is_empty (partial_text c)));
           text := _get_current_text c |})
  else
    (c, {| is_final := false; confidence := Vosk.truth false;
           text := _get_current_text c |}).

Definition nothing : RecognitionEvent :=
  {| is_final := false; confidence := Vosk.truth false; text := "" |}.

(** [process_frame]: [sent] tells whether the frame went out within
    the second allowed, [polled] is what the response queue gave within
    0.1 s ([None] for [queue.Empty]). *)
Definition ws_process_frame (c : State) (sent : bool) (polled : option Response)
    : State * RecognitionEvent :=
  if negb (connected c) then (c, nothing)
  else if negb sent then (c, nothing)
  else
    match polled with
    | Some response => _process_response c response
    | None => (c, {| is_final := false; confidence := Vosk.truth false;
                     text := _get_current_text c |})
    end.

(** The loop of lines 247-270, over what the response queue gives at
    each turn until the two seconds are over. *)
Fixpoint drain (c : State) (polls : list (option Response)) : State :=
  match polls with
  | [] => c
  | None :: polls => drain c polls
  | Some response :: polls =>
      if type_is response "final_result" then
        let final_text := stripped_text response in
        if negb (PyStr.is_empty final_text) then set_complete_text c final_text
        else c
      else if type_is response "partial" then
        let partial := stripped_text response in
        drain (if negb (PyStr.is_empty partial) then set_partial_text c partial else c)
              polls
      else if type_is response "final" then
        let text := stripped_text response in
        drain (if negb (PyStr.is_empty text) then add_chunk c text else c) polls
      else drain c polls
  end.

(** [get_final_text]: [sent] tells whether the ['final'] command went
    out. *)
Definition ws_get_final_text (c : State) (sent : bool) (polls : list (option Response))
    : State * string :=
  if negb (connected c) then (c, PyStr.strip (complete_text c))
  else if negb sent then (c, PyStr.strip (complete_text c))
  else
    let c := drain c polls in
    let c := if PyStr.is_empty (complete_text c) && negb (PyStr.is_empty (partial_text c))
             then set_complete_text c (partial_text c)
             else c in
    (c, PyStr.strip (complete_text c)).

(** [reset]: [connects] tells whether [connect()] succeeds when the
    client is not connected. A reset command that cannot be sent is
    only logged. *)
Definition ws_reset (c : State) (connects : bool) : State * Py unit :=
  let c := {| connected := connected c; complete_text := ""; partial_text := "" |} in
  if negb (connected c) then
    if negb connects then (c, Exc)
    else ({| connected := true; complete_text := ""; partial_text := "" |}, Val tt)
  else (c, Val tt).

(** The texts of the final chunks among the messages, in order. *)
Definition chunks (polls : list (option Response)) : list string :=
  flat_map (fun p => match p with
                     | Some r => if type_is r "final" then [stripped_text r] else []
                     | None => []
                     end) polls.

Definition is_final_result (p : option Response) : bool :=
  match p with Some r => type_is r "final_result" | None => false end.

End VoskWebSocketClient.

(** ** Facts about the string operations *)

Module PyStrFacts.
Import PyStr.

Lemma is_empty_true s : is_empty s = true <-> s = EmptyString.
Proof. destruct s; simpl; split; congruence. Qed.

Lemma is_empty_false s : is_empty s = false <-> s <> EmptyString.
Proof. destruct s; simpl; split; congruence. Qed.

(** Lower-casing never creates nor removes white space. *)
Lemma isspace_lower_char c : isspace (lower_char c) = isspace c.
Proof.
  destruct c as [[] [] [] [] [] [] [] []]; vm_compute; reflexivity.
Qed.

Lemma is_empty_lower s : is_empty (lower s) = is_empty s.
Proof. destruct s; reflexivity. Qed.

Lemma lstrip_lower s : lstrip (lower s) = lower (lstrip s).
Proof.
  induction s as [|c r IH]; simpl; [reflexivity|].
  rewrite isspace_lower_char. destruct (isspace c); [exact IH|reflexivity].
Qed.

Lemma rstrip_lower s : rstrip (lower s) = lower (rstrip s).
Proof.
  induction s as [|c r IH]; simpl; [reflexivity|].
  rewrite isspace_lower_char, IH, is_empty_lower.
  destruct (isspace c && is_empty (rstrip r)); reflexivity.
Qed.

Lemma strip_lower s : strip (lower s) = lower (strip s).
Proof. unfold strip. now rewrite lstrip_lower, rstrip_lower. Qed.

Lemma lstrip_starts_clean s : starts_clean (lstrip s) = true.
Proof.
  induction s as [|c r IH]; simpl; [reflexivity|].
  destruct (isspace c) eqn:E; [exact IH|]. simpl. now rewrite E.
Qed.

Lemma lstrip_clean s : starts_clean s = true -> lstrip s = s.
Proof.
  destruct s as [|c r]; simpl; [reflexivity|].
  destruct (isspace c); simpl; [discriminate|reflexivity].
Qed.

Lemma rstrip_starts_clean s :
  starts_clean s = true -> starts_clean (rstrip s) = true.
Proof.
  destruct s as [|c r]; simpl; [reflexivity|].
  destruct (isspace c) eqn:E; simpl; [discriminate|]. intros _. now rewrite E.
Qed.

Lemma rstrip_idem s : rstrip (rstrip s) = rstrip s.
Proof.
  induction s as [|c r IH]; simpl; [reflexivity|].
  destruct (isspace c && is_empty (rstrip r)) eqn:E; simpl; [reflexivity|].
  now rewrite IH, E.
Qed.

Lemma strip_idem s : strip (strip s) = strip s.
Proof.
  unfold strip.
  rewrite (lstrip_clean (rstrip (lstrip s))).
  - apply rstrip_idem.
  - apply rstrip_starts_clean, lstrip_starts_clean.
Qed.

Lemma lower_idem s : lower (lower s) = lower s.
Proof.
  induction s as [|c r IH]; simpl; [reflexivity|]. rewrite IH. f_equal.
  destruct c as [[] [] [] [] [] [] [] []]; vm_compute; reflexivity.
Qed.

End PyStrFacts.

(** ** Facts about numbers *)

Module PyNumFacts.

Lemma gt_true a b : PyNum.gt a b = true <-> (b < a)%Q.
Proof.
  unfold PyNum.gt. rewrite negb_true_iff. split; intro Hab.
  - apply Qnot_le_lt. intro Hle. apply Qle_bool_iff in Hle. congruence.
  - destruct (Qle_bool a b) eqn:E; [|reflexivity].
    apply Qle_bool_iff in E. exfalso. exact (Qlt_not_le _ _ Hab E).
Qed.

Lemma gt_false a b : PyNum.gt a b = false <-> (a <= b)%Q.
Proof.
  unfold PyNum.gt. rewrite negb_false_iff. apply Qle_bool_iff.
Qed.

Lemma ge_true a b : PyNum.ge a b = true <-> (b <= a)%Q.
Proof. unfold PyNum.ge. apply Qle_bool_iff. Qed.



End PyNumFacts.

(** ** The transcript filters *)

Section Filters.

Import PyStr PyStrFacts.

Lemma strip_empty_of_empty raw : is_empty raw = true -> strip raw = ""%string.
Proof. intros E. apply is_empty_true in E. subst. reflexivity. Qed.

(** The filter of the timed capture, as a cascade on the trimmed text. *)
Lemma vad_accept_trimmed raw :
  vad_accept raw =
    let t := strip raw in
    if is_empty t then None
    else if String.eqb (lower t) "the"%string then None
    else if (Z.of_nat (List.length (split t)) =? 0) || (len t <? 2) then None
    else if Z.of_nat (List.length (split t)) <? 1 then None
    else if (Z.of_nat (List.length (split t)) =? 1) && (len t <? 2) then None
    else Some t.
Proof.
  unfold vad_accept. cbv zeta.
  rewrite strip_lower, strip_idem.
  destruct (is_empty raw) eqn:E; [|reflexivity].
  now rewrite (strip_empty_of_empty raw E).
Qed.

(** The filter of push-to-talk, as a cascade on the trimmed text. *)
Lemma ptt_accept_trimmed raw :
  ptt_accept raw =
    let t := strip raw in
    if is_empty t then None
    else if String.eqb (lower t) "the"%string then None
    else Some t.
Proof.
  unfold ptt_accept. cbv zeta.
  rewrite strip_lower, strip_idem.
  destruct (is_empty raw) eqn:E.
  - now rewrite (strip_empty_of_empty raw E).
  - destruct (is_empty (strip raw)) eqn:E'; [|reflexivity].
    apply is_empty_true in E'. rewrite E'. reflexivity.
Qed.

Lemma ptt_accept_keeps raw :
  strip raw <> ""%string -> lower (strip raw) <> "the"%string ->
  ptt_accept raw = Some (strip raw).
Proof.
  intros Hne Hthe. rewrite ptt_accept_trimmed. cbv zeta.
  apply is_empty_false in Hne. rewrite Hne.
  apply String.eqb_neq in Hthe. now rewrite Hthe.
Qed.

End Filters.

(** Walks down a chain of [if]s at the head of an equation. *)
Ltac cascade :=
  repeat match goal with
         | |- (if ?b then _ else _) = _ => destruct b
         end;
  try reflexivity.

(** C3. The acceptance filter of the timed capture rejects the
    recognizer's final text exactly when the trimmed text is empty, or
    its lowercase form is the literal "the", or it has fewer than 2
    characters, or it has no word, or it is one word of fewer than 2
    characters; every other text is returned trimmed. It rejects "the",
    the empty text and "a", accepts "ok go", and gives an accepted text
    back unchanged when applied to it again. *)
Theorem vad_accept_rules :
  (forall raw : string,
      vad_accept raw = None <->
      (PyStr.strip raw = ""
       \/ PyStr.lower (PyStr.strip raw) = "the"
       \/ PyStr.len (PyStr.strip raw) < 2
       \/ List.length (PyStr.split (PyStr.strip raw)) = 0%nat
       \/ (List.length (PyStr.split (PyStr.strip raw)) = 1%nat
           /\ PyStr.len (PyStr.strip raw) < 2)))%string
  /\ (forall raw : string,
         vad_accept raw = None \/ vad_accept raw = Some (PyStr.strip raw))
  /\ (vad_accept "the" = None /\ vad_accept "" = None /\ vad_accept "a" = None
      /\ vad_accept "ok go" = Some "ok go")%string
  /\ (forall raw t : string, vad_accept raw = Some t -> vad_accept t = Some t).
Proof.
  split; [|split; [|split]].
  - intros raw. rewrite vad_accept_trimmed. cbv zeta. split.
    + (* a rejection comes from one of the rules *)
      intros Hr.
      destruct (PyStr.is_empty (PyStr.strip raw)) eqn:E.
      { left. now apply PyStrFacts.is_empty_true. }
      destruct (String.eqb (PyStr.lower (PyStr.strip raw)) "the") eqn:Ethe.
      { right; left. now apply String.eqb_eq. }
      destruct (Z.of_nat (List.length (PyStr.split (PyStr.strip raw))) =? 0) eqn:E0.
      { right; right; right; left. apply Z.eqb_eq in E0. lia. }
      destruct (PyStr.len (PyStr.strip raw) <? 2) eqn:El.
      { right; right; left. now apply Z.ltb_lt. }
      simpl in Hr.
      destruct (Z.of_nat (List.length (PyStr.split (PyStr.strip raw))) <? 1) eqn:E1.
      { apply Z.ltb_lt in E1. apply Z.eqb_neq in E0. lia. }
      rewrite andb_false_r in Hr. discriminate.
    + (* each rule rejects *)
      intros [Hr | [Hr | [Hr | [Hr | [Hr Hl]]]]].
      * rewrite Hr. reflexivity.
      * apply String.eqb_eq in Hr. rewrite Hr. cascade.
      * apply Z.ltb_lt in Hr. rewrite Hr, orb_true_r. cascade.
      * rewrite Hr. simpl. cascade.
      * apply Z.ltb_lt in Hl. rewrite Hl, orb_true_r. cascade.
  - (* what is returned is the trimmed text *)
    intros raw. rewrite vad_accept_trimmed. cbv zeta.
    repeat match goal with
           | |- context [if ?b then _ else _] => destruct b
           end; auto.
  - repeat split.
  - (* accepting twice *)
    intros raw t Hacc.
    rewrite vad_accept_trimmed in Hacc. cbv zeta in Hacc.
    rewrite vad_accept_trimmed. cbv zeta.
    destruct (PyStr.is_empty (PyStr.strip raw)) eqn:E; [discriminate|].
    destruct (String.eqb (PyStr.lower (PyStr.strip raw)) "the") eqn:Ethe; [discriminate|].
    destruct ((Z.of_nat (List.length (PyStr.split (PyStr.strip raw))) =? 0)
              || (PyStr.len (PyStr.strip raw) <? 2)) eqn:E0; [discriminate|].
    destruct (Z.of_nat (List.length (PyStr.split (PyStr.strip raw))) <? 1) eqn:E1;
      [discriminate|].
    destruct ((Z.of_nat (List.length (PyStr.split (PyStr.strip raw))) =? 1)
              && (PyStr.len (PyStr.strip raw) <? 2)) eqn:E2; [discriminate|].
    injection Hacc as <-.
    rewrite PyStrFacts.strip_idem, E, Ethe, E0, E1, E2. reflexivity.
Qed.

(** ** The timed loop, one iteration at a time *)

Section Iteration.

Variable np_sqrt : Q -> Q.
Context {T : Type} `{Recognizer T}.

(** Showing the partial text changes nothing but its own time stamp. *)
Lemma show_partial_spec current_time current_partial acts (s : @Session T) :
  let r := show_partial current_time current_partial acts s in
  exit r = None
  /\ voice_started (next r) = voice_started s
  /\ speech_start_time (next r) = speech_start_time s
  /\ silence_frames_count (next r) = silence_frames_count s
  /\ frame_history (next r) = frame_history s
  /\ transcriber (next r) = transcriber s
  /\ (actions r = acts
      \/ exists p, current_partial = Some p /\ actions r = acts ++ [APrintPartial p]).
Proof.
  unfold show_partial.
  destruct current_partial as [p|]; [|simpl; tauto].
  destruct (match last_partial_print_time s with
            | Some t => PyNum.gt (current_time - t) (1 # 2)
            | None => true
            end); simpl; repeat split; eauto.
Qed.

(** An iteration that is not stopped by hand and whose frame has the
    wrong size leaves the session as it found it. *)
Lemma wrong_size_step C (s : @Session T) tk pcm_bytes :
  pcm tk = Val (Some pcm_bytes) ->
  Z.of_nat (List.length pcm_bytes) <> am_frame_length C * 2 ->
  _check_manual_vad_stop (keyboard_device C) (kbd tk) <> Val true ->
  next (vad_iteration np_sqrt C s tk) = s
  /\ (actions (vad_iteration np_sqrt C s tk) = []
      \/ actions (vad_iteration np_sqrt C s tk) = [ASleep (5 # 1000)]).
Proof.
  intros Hpcm Hsize Hstop. unfold vad_iteration.
  destruct (_check_manual_vad_stop (keyboard_device C) (kbd tk)) as [[|]|];
    [congruence| |simpl; auto].
  destruct (negb (voice_started s) && _); [simpl; auto|].
  destruct (voice_started s && _); [simpl; auto|].
  rewrite Hpcm.
  destruct (is_nil pcm_bytes); [simpl; auto|].
  apply Z.eqb_neq in Hsize. rewrite Hsize. simpl. auto.
Qed.

(** A manual stop touches nothing but the recognizer. *)
Lemma manual_stop_step C (s : @Session T) tk :
  _check_manual_vad_stop (keyboard_device C) (kbd tk) = Val true ->
  let r := vad_iteration np_sqrt C s tk in
  (voice_started s = true
   /\ (min_speech_duration C < now tk - speech_start_time s)%Q ->
   r = step [ASleep (speech_buffer_time C)] s (Some (Break ManualStopWithSpeech)))
  /\ (voice_started s = false
      \/ (now tk - speech_start_time s <= min_speech_duration C)%Q ->
      actions r = [AReset]
      /\ next r = with_transcriber s (fst (reset (transcriber s)))
      /\ exit r = Some match snd (reset (transcriber s)) with
                       | Val _ => Break ManualStopWithoutSpeech
                       | Exc => Raise
                       end).
Proof.
  intros Hstop. unfold vad_iteration. rewrite Hstop. split.
  - intros [Hv Hlong]. apply PyNumFacts.gt_true in Hlong.
    rewrite Hv, Hlong. reflexivity.
  - intros Hshort.
    assert (Hc : voice_started s
                 && PyNum.gt (now tk - speech_start_time s) (min_speech_duration C)
                 = false).
    { destruct Hshort as [Hv | Hle].
      - now rewrite Hv.
      - apply PyNumFacts.gt_false in Hle. rewrite Hle. apply andb_false_r. }
    rewrite Hc.
    destruct (reset (transcriber s)) as [t' [u|]]; simpl; auto.
Qed.

End Iteration.

(** C8. In the timed capture a frame whose byte length is not
    [frame_length * 2] is dropped: the frame history, the silence count,
    the voice flag and the start of speech stay as they were, nothing is
    handed to the recognizer, and unless the iteration was stopped by
    hand the whole session state is unchanged and the iteration does no
    more than the short idle sleep of an empty read. *)
Theorem wrong_size_frame_discarded :
  forall (np_sqrt : Q -> Q) (T : Type) (R : Recognizer T)
         (C : VadCtx) (s : @Session T) (tk : Tick) (pcm_bytes : list byte),
    pcm tk = Val (Some pcm_bytes) ->
    Z.of_nat (List.length pcm_bytes) <> am_frame_length C * 2 ->
    let r := vad_iteration np_sqrt C s tk in
    frame_history (next r) = frame_history s
    /\ silence_frames_count (next r) = silence_frames_count s
    /\ voice_started (next r) = voice_started s
    /\ speech_start_time (next r) = speech_start_time s
    /\ (forall p, ~ In (AProcessFrame p) (actions r))
    /\ (_check_manual_vad_stop (keyboard_device C) (kbd tk) <> Val true ->
        next r = s /\ (actions r = [] \/ actions r = [ASleep (5 # 1000)])).
Proof.
  intros np_sqrt T R C s tk pcm_bytes Hpcm Hsize r.
  destruct (_check_manual_vad_stop (keyboard_device C) (kbd tk)) as [[|]|] eqn:Hstop.
  - (* stopped by hand: the frame is not even read *)
    pose proof (manual_stop_step np_sqrt C s tk Hstop) as [Hlong Hshort].
    fold r in Hlong, Hshort.
    destruct (voice_started s) eqn:Hv.
    + destruct (Qlt_le_dec (min_speech_duration C) (now tk - speech_start_time s))
        as [Hl | Hl].
      * rewrite (Hlong (conj eq_refl Hl)). simpl.
        repeat split; auto; try congruence.
        intros p [Hp | []]. discriminate.
      * destruct (Hshort (or_intror Hl)) as (Ha & Hn & _). rewrite Ha, Hn. simpl.
        repeat split; auto; try congruence.
        intros p [Hp | []]. discriminate.
    + destruct (Hshort (or_introl eq_refl)) as (Ha & Hn & _). rewrite Ha, Hn. simpl.
      repeat split; auto; try congruence.
      intros p [Hp | []]. discriminate.
  - assert (Hne : _check_manual_vad_stop (keyboard_device C) (kbd tk) <> Val true)
      by congruence.
    destruct (wrong_size_step np_sqrt C s tk pcm_bytes Hpcm Hsize Hne) as [Hn Ha].
    fold r in Hn, Ha. rewrite Hn.
    repeat split; auto.
    intros p Hin. destruct Ha as [Ha | Ha]; rewrite Ha in Hin.
    + destruct Hin.
    + destruct Hin as [Hp | []]. discriminate.
  - assert (Hne : _check_manual_vad_stop (keyboard_device C) (kbd tk) <> Val true)
      by congruence.
    destruct (wrong_size_step np_sqrt C s tk pcm_bytes Hpcm Hsize Hne) as [Hn Ha].
    fold r in Hn, Ha. rewrite Hn.
    repeat split; auto.
    intros p Hin. destruct Ha as [Ha | Ha]; rewrite Ha in Hin.
    + destruct Hin.
    + destruct Hin as [Hp | []]. discriminate.
Qed.

(** A frame of two samples where 2048 are expected, arriving while voice
    is active. *)
Lemma wrong_size_frame_discarded_witness :
  let s := next (vad_iteration Sample.sqrt_exact Sample.pi_ctx (vad_start Sample.ok_go)
                   (Sample.frame_at 101 (Sample.tone 2048))) in
  let r := vad_iteration Sample.sqrt_exact Sample.pi_ctx s
             (Sample.frame_at 102 (Sample.tone 2)) in
  voice_started s = true
  /\ next r = s
  /\ (forall p, ~ In (AProcessFrame p) (actions r)).
Proof.
  intros s r. split; [vm_compute; reflexivity|].
  destruct (wrong_size_frame_discarded Sample.sqrt_exact _ _ Sample.pi_ctx s
              (Sample.frame_at 102 (Sample.tone 2)) (Sample.tone 2))
    as (_ & _ & _ & _ & Hno & Hsame).
  - reflexivity.
  - vm_compute. discriminate.
  - split; [|exact Hno]. apply Hsame. vm_compute. discriminate.
Defined.

(** ** The timed loop over many iterations *)

Section Run.

Variable np_sqrt : Q -> Q.
Context {T : Type} `{Recognizer T}.

(** What handling a well-sized frame does to the session. *)
Lemma vad_frame_spec C (s : @Session T) current_time pcm_bytes :
  let a := avg_energy_of
             (push_history (frame_history_length C) (frame_history s)
                (frame_energy np_sqrt pcm_bytes)) in
  let r := vad_frame np_sqrt C s current_time pcm_bytes in
  transcriber (next r) = fst (process_frame (transcriber s) pcm_bytes)
  /\ (exists more, actions r = AProcessFrame pcm_bytes :: more
                   /\ forallb frame_action more = true)
  /\ (voice_started s = false ->
      exit r = None
      /\ voice_started (next r) = PyNum.gt a (energy_threshold C))
  /\ (voice_started s = true ->
      voice_started (next r) = true
      /\ speech_start_time (next r) = speech_start_time s
      /\ silence_frames_count (next r) =
           (if PyNum.gt a (continued_threshold C) then 0
            else silence_frames_count s + 1)
      /\ (exit r = None
          \/ exit r = Some (Break RecognizerFinal)
          \/ (exit r = Some (Break SilenceTimeout)
              /\ silence_frames_needed C <= silence_frames_count (next r)
              /\ (min_speech_duration C <= current_time - speech_start_time s)%Q
              /\ actions r = [AProcessFrame pcm_bytes; ASleep (speech_buffer_time C)]))).
Proof.
  intros a r. subst r. unfold vad_frame. fold a.
  destruct (process_frame (transcriber s) pcm_bytes) as [t' ev]. simpl fst.
  destruct (read_event ev) as [is_final_vosk current_partial].
  destruct (voice_started s) eqn:Hv; simpl negb; cbv iota.
  - (* voice active *)
    set (n := if PyNum.gt a (continued_threshold C) then 0
              else silence_frames_count s + 1).
    destruct ((n >=? silence_frames_needed C)
              && PyNum.ge (current_time - speech_start_time s) (min_speech_duration C))
      eqn:Hsil.
    + apply andb_true_iff in Hsil as [Hn Hd].
      apply PyNumFacts.ge_true in Hd. apply Z.geb_le in Hn.
      simpl. split; [reflexivity|]. split; [|split; [discriminate|]].
      * eexists. split; reflexivity.
      * intros _. split; [reflexivity|]. split; [reflexivity|].
        split; [reflexivity|]. right; right. auto.
    + destruct (is_final_vosk
                && PyNum.ge (current_time - speech_start_time s) (min_speech_duration C)).
      * simpl. split; [reflexivity|]. split; [|split; [discriminate|]].
        -- eexists. split; reflexivity.
        -- intros _. repeat split; auto.
      * match goal with
        | |- context [show_partial ?c ?p ?ac ?st] =>
            pose proof (show_partial_spec np_sqrt c p ac st) as (He & Hvs & Hst & Hc & _ & Ht & Ha)
        end.
        simpl in Hvs, Hst, Hc, Ht.
        split; [exact Ht|]. split; [|split; [discriminate|]].
        -- destruct Ha as [Ha | (p & _ & Ha)]; rewrite Ha;
             eexists; (split; reflexivity).
        -- intros _. repeat split; auto.
  - (* waiting for voice *)
    destruct (PyNum.gt a (energy_threshold C)) eqn:Hloud;
      match goal with
      | |- context [show_partial ?c ?p ?ac ?st] =>
          pose proof (show_partial_spec np_sqrt c p ac st) as (He & Hvs & Hst & Hc & _ & Ht & Ha)
      end;
      simpl in Hvs, Hst, Hc, Ht;
      (split; [exact Ht|]; split; [|split; [|discriminate]];
       [ destruct Ha as [Ha | (p & _ & Ha)]; rewrite Ha;
         eexists; (split; reflexivity)
       | intros _; repeat split; auto ]).
Qed.

(** Unfolds one iteration into the branches of the source. *)
Ltac iteration_cases C s tk :=
  unfold vad_iteration;
  destruct (_check_manual_vad_stop (keyboard_device C) (kbd tk)) as [[|]|] eqn:Hstop;
  [ destruct (voice_started s
              && PyNum.gt (now tk - speech_start_time s) (min_speech_duration C))
      eqn:Hspeech;
    [ | destruct (reset (transcriber s)) as [t' [u|]] eqn:Hreset ]
  | destruct (negb (voice_started s)
              && PyNum.gt (now tk - overall_start_time C) (initial_timeout C))
      eqn:Hinit;
    [ | destruct (voice_started s
                  && PyNum.gt (now tk - speech_start_time s) (max_recording_time C))
          eqn:Hmax;
        [ | destruct (pcm tk) as [[pcm_bytes|]|] eqn:Hpcm;
            [ destruct (is_nil pcm_bytes) eqn:Hnil;
              [ | destruct (negb (Z.of_nat (List.length pcm_bytes)
                                  =? am_frame_length C * 2)) eqn:Hsize ]
            | | ] ] ]
  | destruct (interrupts (kbd tk)) eqn:Hinterrupt ].

(** When the frame is handled, the iteration is [vad_frame]. *)
Lemma smoothed_energy_frame C (s : @Session T) tk a :
  smoothed_energy np_sqrt C s tk = Some a ->
  exists pcm_bytes,
    pcm tk = Val (Some pcm_bytes)
    /\ is_nil pcm_bytes = false
    /\ Z.of_nat (List.length pcm_bytes) = am_frame_length C * 2
    /\ a = avg_energy_of
             (push_history (frame_history_length C) (frame_history s)
                (frame_energy np_sqrt pcm_bytes)).
Proof.
  unfold smoothed_energy.
  destruct (pcm tk) as [[pcm_bytes|]|]; try discriminate.
  destruct (is_nil pcm_bytes) eqn:Hnil; simpl; try discriminate.
  destruct (Z.of_nat (List.length pcm_bytes) =? am_frame_length C * 2) eqn:E;
    try discriminate.
  intros [= <-]. exists pcm_bytes. apply Z.eqb_eq in E. repeat split; auto.
Qed.

(** Voice, once started, stays started. *)
Lemma voice_stays C (s : @Session T) tk :
  voice_started s = true ->
  voice_started (next (vad_iteration np_sqrt C s tk)) = true.
Proof.
  intros Hv. iteration_cases C s tk; simpl; auto.
  apply (vad_frame_spec C s (now tk) pcm_bytes). exact Hv.
Qed.

(** A silence timeout needs enough silent frames. *)
Lemma silence_timeout_inv C (s : @Session T) tk :
  exit (vad_iteration np_sqrt C s tk) = Some (Break SilenceTimeout) ->
  exists a,
    smoothed_energy np_sqrt C s tk = Some a
    /\ voice_started s = true
    /\ silence_frames_needed C <=
         (if PyNum.gt a (continued_threshold C) then 0
          else silence_frames_count s + 1).
Proof.
  iteration_cases C s tk; simpl; try discriminate.
  intros Hexit.
  pose proof (vad_frame_spec C s (now tk) pcm_bytes) as (_ & _ & Hwait & Hact).
  cbv zeta in Hwait, Hact.
  destruct (voice_started s) eqn:Hv.
  - destruct (Hact eq_refl) as (_ & _ & Hcount & Hexits).
    destruct Hexits as [He | [He | (He & Hn & _)]]; try congruence.
    eexists. split; [|split; [reflexivity|]].
    + unfold smoothed_energy. rewrite Hpcm, Hnil.
      apply negb_false_iff in Hsize. rewrite Hsize. reflexivity.
    + rewrite <- Hcount. exact Hn.
  - destruct (Hwait eq_refl) as [He _]. congruence.
Qed.

(** The count of silent frames on a handled frame. *)
Lemma silence_count_step C (s : @Session T) tk a :
  voice_started s = true ->
  _check_manual_vad_stop (keyboard_device C) (kbd tk) = Val false ->
  (now tk - speech_start_time s <= max_recording_time C)%Q ->
  smoothed_energy np_sqrt C s tk = Some a ->
  silence_frames_count (next (vad_iteration np_sqrt C s tk)) =
    (if PyNum.gt a (continued_threshold C) then 0 else silence_frames_count s + 1).
Proof.
  intros Hv Hquiet Hmaxd Hsm.
  apply smoothed_energy_frame in Hsm as (b & Hb & Hnil' & Hlen & ->).
  apply PyNumFacts.gt_false in Hmaxd.
  unfold vad_iteration. rewrite Hquiet, Hv, Hmaxd, Hb, Hnil'. simpl.
  apply Z.eqb_eq in Hlen. rewrite Hlen. simpl.
  apply (vad_frame_spec C s (now tk) b). exact Hv.
Qed.


(** Unless the iteration was stopped by hand, the recognizer is not reset. *)
Lemma iteration_frame_actions C (s : @Session T) tk :
  _check_manual_vad_stop (keyboard_device C) (kbd tk) <> Val true ->
  forallb frame_action (actions (vad_iteration np_sqrt C s tk)) = true.
Proof.
  intros Hquiet. iteration_cases C s tk; simpl; auto; try congruence.
  destruct (vad_frame_spec C s (now tk) pcm_bytes) as (_ & (more & Ha & Hm) & _).
  rewrite Ha. simpl. exact Hm.
Qed.

Lemma vad_run_voice C ticks :
  forall s : @Session T,
    voice_started s = true ->
    Forall (fun j => voice_started (pre j) = true
                     /\ voice_started (next (outcome j)) = true)
           (vad_run np_sqrt C s ticks).
Proof.
  induction ticks as [|tk rest IH]; intros s Hv; simpl; constructor.
  - simpl. split; [exact Hv|]. now apply voice_stays.
  - destruct (exit (vad_iteration np_sqrt C s tk)); [constructor|].
    apply IH. now apply voice_stays.
Qed.

(** What follows an iteration in a run is the run from its end state. *)
Lemma vad_run_suffix C ticks :
  forall (s : @Session T) before i after,
    vad_run np_sqrt C s ticks = before ++ i :: after ->
    exists rest, after = vad_run np_sqrt C (next (outcome i)) rest.
Proof.
  induction ticks as [|tk rest IH]; intros s before i after Hrun; simpl in Hrun.
  - destruct before; discriminate.
  - destruct before as [|b before]; simpl in Hrun; injection Hrun as Hi Htail.
    + subst i. simpl.
      destruct (exit (vad_iteration np_sqrt C s tk)).
      * exists []. now subst after.
      * exists rest. now subst after.
    + destruct (exit (vad_iteration np_sqrt C s tk)).
      * destruct before; discriminate.
      * eapply IH. exact Htail.
Qed.

(** The way the loop is left is the way its last iteration was left. *)
Lemma vad_loop_exit_run C ticks :
  forall (s : @Session T) e,
    exit (vad_loop np_sqrt C s ticks) = Some e ->
    exists i, In i (vad_run np_sqrt C s ticks) /\ exit (outcome i) = Some e.
Proof.
  induction ticks as [|tk rest IH]; intros s e He; simpl in He.
  - discriminate.
  - simpl. destruct (exit (vad_iteration np_sqrt C s tk)) eqn:Hit.
    + eexists. split; [left; reflexivity|]. simpl. congruence.
    + simpl in He. destruct (IH _ _ He) as (i & Hin & Hi).
      exists i. split; [right; exact Hin|exact Hi].
Qed.

(** The loop over more ticks, when the first ones did not end it. *)
Lemma vad_loop_app C before :
  forall (s : @Session T) rest,
    exit (vad_loop np_sqrt C s before) = None ->
    vad_loop np_sqrt C s (before ++ rest) =
      step (actions (vad_loop np_sqrt C s before)
              ++ actions (vad_loop np_sqrt C (next (vad_loop np_sqrt C s before)) rest))
           (next (vad_loop np_sqrt C (next (vad_loop np_sqrt C s before)) rest))
           (exit (vad_loop np_sqrt C (next (vad_loop np_sqrt C s before)) rest)).
Proof.
  induction before as [|tk before IH]; intros s rest Hgo.
  - simpl. destruct (vad_loop np_sqrt C s rest). reflexivity.
  - simpl in *. destruct (exit (vad_iteration np_sqrt C s tk)) eqn:Hit.
    + congruence.
    + simpl in *. rewrite (IH _ rest Hgo). simpl. now rewrite app_assoc.
Qed.

(** The loop that ends in the iteration after [before]. *)
Lemma vad_loop_last C before tk after (s : @Session T) e :
  exit (vad_loop np_sqrt C s before) = None ->
  exit (vad_iteration np_sqrt C (next (vad_loop np_sqrt C s before)) tk) = Some e ->
  vad_loop np_sqrt C s (before ++ tk :: after) =
    step (actions (vad_loop np_sqrt C s before)
            ++ actions (vad_iteration np_sqrt C (next (vad_loop np_sqrt C s before)) tk))
         (next (vad_iteration np_sqrt C (next (vad_loop np_sqrt C s before)) tk))
         (Some e).
Proof.
  intros Hgo Hend. rewrite (vad_loop_app C before s (tk :: after) Hgo).
  simpl. rewrite Hend. simpl. rewrite Hend. reflexivity.
Qed.


(** While nobody speaks, nobody stops the capture and the time is not
    up, the loop goes on waiting. *)
Lemma waiting_step C (s : @Session T) tk :
  voice_started s = false ->
  _check_manual_vad_stop (keyboard_device C) (kbd tk) = Val false ->
  pcm tk <> Exc ->
  (now tk - overall_start_time C <= initial_timeout C)%Q ->
  (forall a, smoothed_energy np_sqrt C s tk = Some a -> (a <= energy_threshold C)%Q) ->
  exit (vad_iteration np_sqrt C s tk) = None
  /\ voice_started (next (vad_iteration np_sqrt C s tk)) = false.
Proof.
  intros Hv Hquiet Hread Hearly Hcalm.
  apply PyNumFacts.gt_false in Hearly.
  assert (Hsm := Hcalm).
  unfold smoothed_energy in Hsm.
  unfold vad_iteration. rewrite Hquiet, Hv, Hearly. simpl.
  destruct (pcm tk) as [[pcm_bytes|]|]; [| simpl; auto | congruence].
  destruct (is_nil pcm_bytes); [simpl; auto|]. simpl in Hsm.
  destruct (Z.of_nat (List.length pcm_bytes) =? am_frame_length C * 2);
    [|simpl; auto].
  simpl.
  destruct (vad_frame_spec C s (now tk) pcm_bytes) as (_ & _ & Hwait & _).
  destruct (Hwait Hv) as [He Hvs]. split; [exact He|]. rewrite Hvs.
  apply PyNumFacts.gt_false. apply Hsm. reflexivity.
Qed.

Lemma waiting_run C ticks :
  forall s : @Session T,
    voice_started s = false ->
    Forall (fun i =>
              _check_manual_vad_stop (keyboard_device C) (kbd (tick i)) = Val false
              /\ pcm (tick i) <> Exc
              /\ (now (tick i) - overall_start_time C <= initial_timeout C)%Q
              /\ (forall a, smoothed_energy np_sqrt C (pre i) (tick i) = Some a ->
                            (a <= energy_threshold C)%Q))
           (vad_run np_sqrt C s ticks) ->
    exit (vad_loop np_sqrt C s ticks) = None
    /\ voice_started (next (vad_loop np_sqrt C s ticks)) = false
    /\ forallb frame_action (actions (vad_loop np_sqrt C s ticks)) = true.
Proof.
  induction ticks as [|tk rest IH]; intros s Hv Hcalm; simpl in *.
  - auto.
  - inversion Hcalm as [|i l Hi Hl]; subst. simpl in Hi.
    destruct Hi as (Hquiet & Hread & Hearly & Hlow).
    destruct (waiting_step C s tk Hv Hquiet Hread Hearly Hlow) as [He Hvs].
    rewrite He in *. simpl.
    destruct (IH _ Hvs Hl) as (He' & Hv' & Ha').
    repeat split; auto.
    rewrite forallb_app, Ha', andb_true_r.
    apply iteration_frame_actions. congruence.
Qed.

(** The timed capture once its preparations have gone through. *)
Lemma capture_after_setup E (t : T) is_follow_up C t0 ticks :
  vad_setup E t is_follow_up = Some (C, t0) ->
  capture_speech_with_unified_vad np_sqrt E t is_follow_up ticks =
    capture (vad_opening is_follow_up ++ [AReset]
               ++ trace (except_finally (audio_manager E)
                           (vad_try np_sqrt C (vad_start t0) ticks)))
            (recognizer (except_finally (audio_manager E)
                           (vad_try np_sqrt C (vad_start t0) ticks)))
            (result (except_finally (audio_manager E)
                       (vad_try np_sqrt C (vad_start t0) ticks))).
Proof.
  unfold vad_setup, capture_speech_with_unified_vad.
  destruct (speech_enabled E); simpl; [|discriminate].
  destruct (stream_starts (audio_manager E)); simpl; [|discriminate].
  destruct (d_energy_threshold (load_config (loaded_settings E) (VAD_SETTINGS E)));
    [|discriminate].
  destruct (reset t) as [t1 [u|]]; [|discriminate].
  destruct (frames_per_second (audio_manager E)); [|discriminate].
  destruct (silence_frames_needed_of _ _); [|discriminate].
  intros [= <- <-]. reflexivity.
Qed.

(** The [try] body when the loop is left by [break]. *)
Lemma vad_try_break C (s : @Session T) ticks why :
  exit (vad_loop np_sqrt C s ticks) = Some (Break why) ->
  vad_try np_sqrt C s ticks =
    try_body (actions (vad_loop np_sqrt C s ticks) ++ [AGetFinalText])
             (fst (get_final_text (transcriber (next (vad_loop np_sqrt C s ticks)))))
             (Some (Finished
                      (vad_final
                         (snd (get_final_text
                                 (transcriber (next (vad_loop np_sqrt C s ticks)))))))).
Proof.
  intros He. unfold vad_try. rewrite He.
  destruct (get_final_text _) as [t' final]. reflexivity.
Qed.






End Run.

(** ** Voice activity *)

Lemma stays_above_spec np_sqrt T (R : Recognizer T) C (i : @Iter T) :
  stays_above np_sqrt C i = true ->
  forall a, smoothed_energy np_sqrt C (pre i) (tick i) = Some a ->
            PyNum.gt a (continued_threshold C) = true.
Proof.
  unfold stays_above. intros Hi a Ha. now rewrite Ha in Hi.
Qed.

(** C2 (amended). Once voice has started it never counts as not started
    again, whatever the frames; on every frame handled while voice is
    active the silence count becomes 0 when the smoothed energy exceeds
    [continued_threshold] and grows by 1 otherwise; and when
    [silence_frames_needed] is at least 1, a run whose smoothed energy
    stays above [continued_threshold] never ends by silence timeout,
    wherever the energy lies with respect to [energy_threshold]. *)
Theorem voice_active_hysteresis :
  forall (np_sqrt : Q -> Q) (T : Type) (R : Recognizer T) (C : VadCtx),
    (forall (s : @Session T) ticks before i after,
        vad_run np_sqrt C s ticks = before ++ i :: after ->
        voice_started (next (outcome i)) = true ->
        Forall (fun j => voice_started (pre j) = true
                         /\ voice_started (next (outcome j)) = true) after)
    /\ (forall (s : @Session T) tk a,
           voice_started s = true ->
           _check_manual_vad_stop (keyboard_device C) (kbd tk) = Val false ->
           (now tk - speech_start_time s <= max_recording_time C)%Q ->
           smoothed_energy np_sqrt C s tk = Some a ->
           silence_frames_count (next (vad_iteration np_sqrt C s tk)) =
             (if PyNum.gt a (continued_threshold C) then 0
              else silence_frames_count s + 1))
    /\ (0 < silence_frames_needed C ->
        forall (s : @Session T) ticks,
          forallb (stays_above np_sqrt C) (vad_run np_sqrt C s ticks) = true ->
          exit (vad_loop np_sqrt C s ticks) <> Some (Break SilenceTimeout)).
Proof.
  intros np_sqrt T R C. split; [|split].
  - intros s ticks before i after Hrun Hv.
    destruct (vad_run_suffix np_sqrt C ticks s before i after Hrun) as [rest ->].
    now apply vad_run_voice.
  - intros s tk a. apply silence_count_step.
  - intros Hneeded s ticks Habove Hexit.
    destruct (vad_loop_exit_run np_sqrt C ticks s _ Hexit) as (i & Hin & Hi).
    rewrite forallb_forall in Habove. specialize (Habove i Hin).
    assert (Hrun : exists before after, vad_run np_sqrt C s ticks = before ++ i :: after)
      by (apply in_split; exact Hin).
    assert (Hout : outcome i = vad_iteration np_sqrt C (pre i) (tick i)).
    { clear -Hin. revert s Hin.
      induction ticks as [|tk rest IH]; intros s Hin; simpl in Hin; [destruct Hin|].
      destruct Hin as [<- | Hin]; [reflexivity|].
      destruct (exit (vad_iteration np_sqrt C s tk)); [destruct Hin|].
      eapply IH. exact Hin. }
    rewrite Hout in Hi.
    destruct (silence_timeout_inv np_sqrt C (pre i) (tick i) Hi) as (a & Ha & _ & Hn).
    rewrite (stays_above_spec np_sqrt T R C i Habove a Ha) in Hn. lia.
Qed.

(** With the default thresholds of the sample set-up (23 silent frames
    needed), speech that sinks to a murmur between the two thresholds
    does not end by silence timeout. *)
Lemma voice_active_hysteresis_witness :
  exit (vad_loop Sample.sqrt_exact Sample.pi_ctx (vad_start Sample.ok_go)
          [Sample.frame_at 101 (Sample.tone 2048);
           Sample.frame_at (203 # 2) (Sample.murmur 2048);
           Sample.frame_at 102 (Sample.murmur 2048)])
  <> Some (Break SilenceTimeout).
Proof.
  apply (proj2 (proj2 (voice_active_hysteresis Sample.sqrt_exact _ _ Sample.pi_ctx))).
  - vm_compute. reflexivity.
  - vm_compute. reflexivity.
Defined.

(** When [silence_duration] is shorter than one frame, no silent frame
    is needed: the capture ends by silence timeout on a frame whose
    smoothed energy (3/8) is above [continued_threshold] (0.2). *)
Lemma silence_timeout_without_silence :
  let C := vad_context (Sample.with_settings Sample.brief_silence) false
             Sample.brief_silence (4 # 10) (16000 / 2048) in
  let ticks := [Sample.frame_at 101 (Sample.tone 2048);
                Sample.frame_at (203 # 2) (Sample.murmur 2048)] in
  vad_setup (Sample.with_settings Sample.brief_silence) Sample.ok_go false
    = Some (C, Sample.ok_go)
  /\ silence_frames_needed C = 0
  /\ forallb (stays_above Sample.sqrt_exact C)
       (vad_run Sample.sqrt_exact C (vad_start Sample.ok_go) ticks) = true
  /\ exit (vad_loop Sample.sqrt_exact C (vad_start Sample.ok_go) ticks)
     = Some (Break SilenceTimeout).
Proof.
  vm_compute. repeat split.
Qed.

(** ** How a timed capture ends *)

Section Endings.

Variable np_sqrt : Q -> Q.
Context {T : Type} `{Recognizer T}.

Variables (E : Setup) (t t0 : T) (is_follow_up : bool) (C : VadCtx).
Hypothesis prepared : vad_setup E t is_follow_up = Some (C, t0).
Hypothesis stop_works : stop_raises (audio_manager E) = false.

Variables (before after : list Tick) (tk : Tick).
Hypothesis going : exit (vad_loop np_sqrt C (vad_start t0) before) = None.

Let r := vad_loop np_sqrt C (vad_start t0) before.
Let it := vad_iteration np_sqrt C (next r) tk.

(** The capture that leaves the loop by [break] in the iteration after
    [before]. *)
Lemma capture_break why :
  exit it = Some (Break why) ->
  capture_speech_with_unified_vad np_sqrt E t is_follow_up (before ++ tk :: after) =
    capture (vad_opening is_follow_up ++ [AReset] ++ actions r ++ actions it
               ++ [AGetFinalText; AStopListening])
            (fst (get_final_text (transcriber (next it))))
            (Some (Val (caught (vad_final (snd (get_final_text (transcriber (next it)))))))).
Proof.
  intros Hend.
  rewrite (capture_after_setup np_sqrt E t is_follow_up C t0 _ prepared).
  pose proof (vad_loop_last np_sqrt C before tk after (vad_start t0) _ going Hend) as Hloop.
  fold r it in Hloop.
  rewrite (vad_try_break np_sqrt C (vad_start t0) _ why) by (rewrite Hloop; reflexivity).
  rewrite Hloop. unfold except_finally. simpl. rewrite stop_works.
  f_equal. f_equal. f_equal. rewrite <- !app_assoc. reflexivity.
Qed.

(** The capture that leaves the loop by [return None] or by an
    exception in the iteration after [before]. *)
Lemma capture_no_final :
  exit it = Some ReturnNone \/ exit it = Some Raise ->
  capture_speech_with_unified_vad np_sqrt E t is_follow_up (before ++ tk :: after) =
    capture (vad_opening is_follow_up ++ [AReset] ++ actions r ++ actions it
               ++ [AStopListening])
            (transcriber (next it))
            (Some (Val None)).
Proof.
  intros Hend.
  rewrite (capture_after_setup np_sqrt E t is_follow_up C t0 _ prepared).
  assert (Hloop : vad_loop np_sqrt C (vad_start t0) (before ++ tk :: after)
                  = step (actions r ++ actions it) (next it) (exit it)).
  { destruct Hend as [Hend | Hend];
      rewrite (vad_loop_last np_sqrt C before tk after (vad_start t0) _ going Hend);
      fold r it; now rewrite Hend. }
  unfold vad_try. rewrite Hloop. simpl.
  destruct Hend as [Hend | Hend]; rewrite Hend;
    unfold except_finally; simpl; rewrite stop_works;
    (f_equal; f_equal; f_equal; rewrite <- !app_assoc; reflexivity).
Qed.

(** The capture on [before] alone has not returned. *)
Lemma capture_running :
  result (capture_speech_with_unified_vad np_sqrt E t is_follow_up before) = None.
Proof.
  rewrite (capture_after_setup np_sqrt E t is_follow_up C t0 _ prepared).
  unfold vad_try. rewrite going. reflexivity.
Qed.

End Endings.

(** C1 (amended). When the manual-stop signal is observed in the timed
    capture: if voice has started and the time since [speech_start_time]
    is strictly greater than [min_speech_duration], the loop is left as
    a manual stop with speech, and the capture sleeps
    [speech_buffer_time], then calls [get_final_text] and filters its
    text; otherwise (also when the time equals [min_speech_duration])
    the recognizer is reset, then asked for its final text, which is
    filtered - so the capture returns [None] whenever the reset
    recognizer has no text. If the reset raises, the capture returns
    [None] at once. None of this depends on the frame, the timeouts or
    anything else the iteration would look at. *)
Theorem manual_stop_outcome :
  forall (np_sqrt : Q -> Q) (T : Type) (R : Recognizer T)
         (E : Setup) (t t0 : T) (is_follow_up : bool) (C : VadCtx)
         (before after : list Tick) (tk : Tick),
    vad_setup E t is_follow_up = Some (C, t0) ->
    stop_raises (audio_manager E) = false ->
    exit (vad_loop np_sqrt C (vad_start t0) before) = None ->
    _check_manual_vad_stop (keyboard_device C) (kbd tk) = Val true ->
    let r := vad_loop np_sqrt C (vad_start t0) before in
    let s := next r in
    let it := vad_iteration np_sqrt C s tk in
    let c := capture_speech_with_unified_vad np_sqrt E t is_follow_up
               (before ++ tk :: after) in
    let done := vad_opening is_follow_up ++ [AReset] ++ actions r in
    (voice_started s = true
     /\ (min_speech_duration C < now tk - speech_start_time s)%Q ->
     exit it = Some (Break ManualStopWithSpeech)
     /\ trace c = done ++ [ASleep (speech_buffer_time C); AGetFinalText; AStopListening]
     /\ result c = Some (Val (caught (vad_final (snd (get_final_text (transcriber s)))))))
    /\ (voice_started s = false
        \/ (now tk - speech_start_time s <= min_speech_duration C)%Q ->
        match snd (reset (transcriber s)) with
        | Val _ =>
            exit it = Some (Break ManualStopWithoutSpeech)
            /\ trace c = done ++ [AReset; AGetFinalText; AStopListening]
            /\ result c =
                 Some (Val (caught (vad_final
                                      (snd (get_final_text (fst (reset (transcriber s))))))))
            /\ (snd (get_final_text (fst (reset (transcriber s)))) = Val ""%string ->
                result c = Some (Val None))
        | Exc =>
            exit it = Some Raise
            /\ trace c = done ++ [AReset; AStopListening]
            /\ result c = Some (Val None)
        end).
Proof.
  intros np_sqrt T R E t t0 is_follow_up C before after tk
         Hsetup Hstop Hgo Hkbd r s it c done.
  pose proof (manual_stop_step np_sqrt C s tk Hkbd) as [Hlong Hshort].
  fold it in Hlong, Hshort. split.
  - intros Hspeech. specialize (Hlong Hspeech).
    assert (Hexit : exit it = Some (Break ManualStopWithSpeech)) by now rewrite Hlong.
    pose proof (capture_break np_sqrt E t t0 is_follow_up C Hsetup Hstop
                  before after tk Hgo _ Hexit) as Hc.
    fold r s it c in Hc. rewrite Hc, Hlong. unfold done. simpl.
    rewrite <- ?app_assoc. repeat split.
  - intros Hnone. destruct (Hshort Hnone) as (Ha & Hn & He).
    destruct (snd (reset (transcriber s))) eqn:Hreset.
    + pose proof (capture_break np_sqrt E t t0 is_follow_up C Hsetup Hstop
                    before after tk Hgo _ He) as Hc.
      fold r s it c in Hc. rewrite Hc, Ha, Hn. unfold done. simpl.
      rewrite <- ?app_assoc. repeat split; auto.
      intros ->. reflexivity.
    + pose proof (capture_no_final np_sqrt E t t0 is_follow_up C Hsetup Hstop
                    before after tk Hgo (or_intror He)) as Hc.
      fold r s it c in Hc. rewrite Hc, Ha. unfold done. simpl.
      rewrite <- ?app_assoc. repeat split; auto.
Qed.

(** A stop one second into the speech (more than the half second
    required) yields the transcript after the pause. *)
Lemma manual_stop_outcome_witness :
  let c := capture_speech_with_unified_vad Sample.sqrt_exact
             (Sample.with_settings Sample.half_second) Sample.ok_go false
             [Sample.frame_at 101 (Sample.tone 2048); Sample.stop_at 102] in
  trace c = vad_opening false
              ++ [AReset; AProcessFrame (Sample.tone 2048); APrintPartial "ok go";
                  ASleep 1; AGetFinalText; AStopListening]
  /\ result c = Some (Val (Some "ok go"%string)).
Proof.
  pose (C := vad_context (Sample.with_settings Sample.half_second) false
               Sample.half_second (3 # 10) (16000 / 2048)).
  assert (Hsetup : vad_setup (Sample.with_settings Sample.half_second) Sample.ok_go false
                   = Some (C, Sample.ok_go)) by (vm_compute; reflexivity).
  assert (Hstop : stop_raises (audio_manager (Sample.with_settings Sample.half_second))
                  = false) by reflexivity.
  assert (Hgo : exit (vad_loop Sample.sqrt_exact C (vad_start Sample.ok_go)
                        [Sample.frame_at 101 (Sample.tone 2048)]) = None)
    by (vm_compute; reflexivity).
  assert (Hkbd : _check_manual_vad_stop (keyboard_device C) (kbd (Sample.stop_at 102))
                 = Val true) by (vm_compute; reflexivity).
  destruct (manual_stop_outcome Sample.sqrt_exact _ _ _ _ _ _ _ _ [] _
              Hsetup Hstop Hgo Hkbd) as [Hspeech _].
  destruct Hspeech as (_ & Htrace & Hres).
  { split; vm_compute; reflexivity. }
  split.
  - etransitivity; [exact Htrace|]. vm_compute. reflexivity.
  - etransitivity; [exact Hres|]. vm_compute. reflexivity.
Defined.

(** A stop exactly half a second into the speech, with half a second
    required: the time since the start of speech is at least
    [min_speech_duration], yet the recognizer is reset, there is no
    pause, and the capture returns [None] although the recognizer had
    heard "ok go". *)
Lemma manual_stop_at_min_speech_duration :
  let E := Sample.with_settings Sample.half_second in
  let C := vad_context E false Sample.half_second (3 # 10) (16000 / 2048) in
  let s := next (vad_loop Sample.sqrt_exact C (vad_start Sample.ok_go)
                   [Sample.frame_at 101 (Sample.tone 2048)]) in
  let tk := Sample.stop_at (203 # 2) in
  let c := capture_speech_with_unified_vad Sample.sqrt_exact E Sample.ok_go false
             [Sample.frame_at 101 (Sample.tone 2048); tk] in
  vad_setup E Sample.ok_go false = Some (C, Sample.ok_go)
  /\ _check_manual_vad_stop (keyboard_device C) (kbd tk) = Val true
  /\ voice_started s = true
  /\ (min_speech_duration C <= now tk - speech_start_time s)%Q
  /\ exit (vad_iteration Sample.sqrt_exact C s tk) = Some (Break ManualStopWithoutSpeech)
  /\ trace c = vad_opening false
                 ++ [AReset; AProcessFrame (Sample.tone 2048); APrintPartial "ok go";
                     AReset; AGetFinalText; AStopListening]
  /\ result c = Some (Val None).
Proof.
  vm_compute. repeat split. discriminate.
Qed.

(** What the filter of the timed capture makes of a text, rule by rule. *)
Lemma vad_accept_verdict (raw : string) :
  ((PyStr.strip raw = ""
    \/ PyStr.lower (PyStr.strip raw) = "the"
    \/ PyStr.len (PyStr.strip raw) < 2
    \/ List.length (PyStr.split (PyStr.strip raw)) = 0%nat
    \/ (List.length (PyStr.split (PyStr.strip raw)) = 1%nat
        /\ PyStr.len (PyStr.strip raw) < 2)) ->
   vad_accept raw = None)%string
  /\ (PyStr.strip raw <> ""%string ->
      PyStr.lower (PyStr.strip raw) <> "the"%string ->
      2 <= PyStr.len (PyStr.strip raw) ->
      List.length (PyStr.split (PyStr.strip raw)) <> 0%nat ->
      vad_accept raw = Some (PyStr.strip raw)).
Proof.
  rewrite vad_accept_trimmed. cbv zeta. split.
  - intros [Hr | [Hr | [Hr | [Hr | [Hr Hl]]]]].
    + rewrite Hr. reflexivity.
    + apply String.eqb_eq in Hr. rewrite Hr. cascade.
    + apply Z.ltb_lt in Hr. rewrite Hr, orb_true_r. cascade.
    + rewrite Hr. simpl. cascade.
    + apply Z.ltb_lt in Hl. rewrite Hl, orb_true_r. cascade.
  - intros Hne Hthe Hlen Hwords.
    apply PyStrFacts.is_empty_false in Hne. rewrite Hne.
    apply String.eqb_neq in Hthe. rewrite Hthe.
    assert (H0 : (Z.of_nat (List.length (PyStr.split (PyStr.strip raw))) =? 0) = false)
      by (apply Z.eqb_neq; lia).
    assert (H2 : (PyStr.len (PyStr.strip raw) <? 2) = false) by (apply Z.ltb_ge; lia).
    assert (H1 : (Z.of_nat (List.length (PyStr.split (PyStr.strip raw))) <? 1) = false)
      by (apply Z.ltb_ge; lia).
    rewrite H0, H2, H1, andb_false_r. reflexivity.
Qed.

(** C10. When the timed loop stops because the speech has lasted longer
    than [max_recording_time], the iteration does nothing else: no
    pause, no reset. The capture goes straight on to [get_final_text]
    on the recognizer as the frames left it, and what it returns is that
    text put through the acceptance filter: [None] when the trimmed
    text is empty, is "the" in any letter case, has fewer than 2
    characters or has no word, the trimmed text otherwise - and [None]
    when [get_final_text] raises. So a stop at the ceiling can yield
    an accepted transcript ("ok go") as well as a rejected one
    ("the"). *)
Theorem max_duration_outcome :
  (forall (np_sqrt : Q -> Q) (T : Type) (R : Recognizer T)
          (E : Setup) (t t0 : T) (is_follow_up : bool) (C : VadCtx)
          (before after : list Tick) (tk : Tick),
      vad_setup E t is_follow_up = Some (C, t0) ->
      stop_raises (audio_manager E) = false ->
      exit (vad_loop np_sqrt C (vad_start t0) before) = None ->
      let r := vad_loop np_sqrt C (vad_start t0) before in
      let s := next r in
      let c := capture_speech_with_unified_vad np_sqrt E t is_follow_up
                 (before ++ tk :: after) in
      _check_manual_vad_stop (keyboard_device C) (kbd tk) = Val false ->
      voice_started s = true ->
      (max_recording_time C < now tk - speech_start_time s)%Q ->
      vad_iteration np_sqrt C s tk = step [] s (Some (Break MaxDuration))
      /\ trace c = vad_opening is_follow_up ++ [AReset] ++ actions r
                     ++ [AGetFinalText; AStopListening]
      /\ recognizer c = fst (get_final_text (transcriber s))
      /\ result c = Some (Val (caught (vad_final (snd (get_final_text (transcriber s))))))
      /\ (snd (get_final_text (transcriber s)) = Exc -> result c = Some (Val None))
      /\ (forall raw : string,
             snd (get_final_text (transcriber s)) = Val raw ->
             result c = Some (Val (vad_accept raw))
             /\ ((PyStr.strip raw = ""%string
                  \/ PyStr.lower (PyStr.strip raw) = "the"%string
                  \/ PyStr.len (PyStr.strip raw) < 2
                  \/ List.length (PyStr.split (PyStr.strip raw)) = 0%nat) ->
                 result c = Some (Val None))
             /\ (PyStr.strip raw <> ""%string ->
                 PyStr.lower (PyStr.strip raw) <> "the"%string ->
                 2 <= PyStr.len (PyStr.strip raw) ->
                 List.length (PyStr.split (PyStr.strip raw)) <> 0%nat ->
                 result c = Some (Val (Some (PyStr.strip raw))))))
  /\ (exists ticks : list Tick,
         exit (vad_loop Sample.sqrt_exact Sample.pi_ctx (vad_start Sample.ok_go) ticks)
           = Some (Break MaxDuration)
         /\ result (capture_speech_with_unified_vad Sample.sqrt_exact Sample.pi_setup
                      Sample.ok_go false ticks)
            = Some (Val (Some "ok go"%string))
         /\ exit (vad_loop Sample.sqrt_exact Sample.pi_ctx
                    (vad_start (Vosk.fresh (Vosk.says "The"))) ticks)
            = Some (Break MaxDuration)
         /\ result (capture_speech_with_unified_vad Sample.sqrt_exact Sample.pi_setup
                      (Vosk.fresh (Vosk.says "The")) false ticks)
            = Some (Val None)).
Proof.
  split.
  - intros np_sqrt T R E t t0 is_follow_up C before after tk
           Hsetup Hstop Hgo r s c Hkbd Hv Hlong.
    assert (Hit : vad_iteration np_sqrt C s tk = step [] s (Some (Break MaxDuration))).
    { apply PyNumFacts.gt_true in Hlong.
      unfold vad_iteration. rewrite Hkbd, Hv, Hlong. reflexivity. }
    assert (Hexit : exit (vad_iteration np_sqrt C s tk) = Some (Break MaxDuration))
      by now rewrite Hit.
    pose proof (capture_break np_sqrt E t t0 is_follow_up C Hsetup Hstop
                  before after tk Hgo _ Hexit) as Hc.
    fold r s c in Hc. rewrite Hc, Hit. cbn [actions next trace recognizer result capture step].
    split; [reflexivity|]. split; [now rewrite app_nil_l|].
    split; [reflexivity|]. split; [reflexivity|]. split.
    + intros Hfinal. now rewrite Hfinal.
    + intros raw Hfinal. rewrite Hfinal. cbn [vad_final caught].
      destruct (vad_accept_verdict raw) as [Hrej Hacc].
      split; [reflexivity|]. split.
      * intros Hrule. rewrite Hrej; [reflexivity|]. tauto.
      * intros Hne Hthe Hlen Hwords. now rewrite Hacc.
  - exists [Sample.frame_at 101 (Sample.tone 2048); Sample.idle_at 147].
    vm_compute. repeat split.
Qed.

(** Speech that began at 101 s and is still going on at 147 s, with the
    default ceiling of 45 s. *)
Lemma max_duration_outcome_witness :
  let c := capture_speech_with_unified_vad Sample.sqrt_exact Sample.pi_setup
             Sample.ok_go false
             [Sample.frame_at 101 (Sample.tone 2048); Sample.idle_at 147] in
  trace c = vad_opening false
              ++ [AReset; AProcessFrame (Sample.tone 2048); APrintPartial "ok go";
                  AGetFinalText; AStopListening]
  /\ result c = Some (Val (Some "ok go"%string)).
Proof.
  assert (Hsetup : vad_setup Sample.pi_setup Sample.ok_go false
                   = Some (Sample.pi_ctx, Sample.ok_go)) by (vm_compute; reflexivity).
  assert (Hstop : stop_raises (audio_manager Sample.pi_setup) = false) by reflexivity.
  assert (Hgo : exit (vad_loop Sample.sqrt_exact Sample.pi_ctx (vad_start Sample.ok_go)
                        [Sample.frame_at 101 (Sample.tone 2048)]) = None)
    by (vm_compute; reflexivity).
  destruct (proj1 max_duration_outcome Sample.sqrt_exact _ _ _ _ _ _ _ _ []
              (Sample.idle_at 147) Hsetup Hstop Hgo)
    as (_ & Htrace & _ & _ & _ & Hfilter).
  - vm_compute. reflexivity.
  - vm_compute. reflexivity.
  - vm_compute. reflexivity.
  - split.
    + etransitivity; [exact Htrace|]. vm_compute. reflexivity.
    + destruct (Hfilter "ok go"%string) as (_ & _ & Hacc).
      * vm_compute. reflexivity.
      * etransitivity; [apply Hacc|].
        -- vm_compute. discriminate.
        -- vm_compute. discriminate.
        -- vm_compute. discriminate.
        -- vm_compute. discriminate.
        -- vm_compute. reflexivity.
Defined.

(** ** The initial timeout *)

Lemma waits_calmly_spec np_sqrt T (R : Recognizer T) C (i : @Iter T) :
  waits_calmly np_sqrt C i = true ->
  _check_manual_vad_stop (keyboard_device C) (kbd (tick i)) = Val false
  /\ pcm (tick i) <> Exc
  /\ (now (tick i) - overall_start_time C <= initial_timeout C)%Q
  /\ (forall a, smoothed_energy np_sqrt C (pre i) (tick i) = Some a ->
                (a <= energy_threshold C)%Q).
Proof.
  unfold waits_calmly. intros Hi.
  apply andb_true_iff in Hi as [Hi Hlow].
  apply andb_true_iff in Hi as [Hi Hearly].
  apply andb_true_iff in Hi as [Hquiet Hread].
  repeat split.
  - destruct (_check_manual_vad_stop _ _) as [[|]|]; congruence.
  - destruct (pcm (tick i)); congruence.
  - apply PyNumFacts.gt_false. now apply negb_true_iff.
  - intros a Ha. rewrite Ha in Hlow.
    apply PyNumFacts.gt_false. now apply negb_true_iff.
Qed.

(** C5 (amended). If no voice has started and the time since the start
    of the session exceeds the initial timeout - 4 s for a follow-up, 8 s
    otherwise - an iteration that sees no manual stop leaves the capture
    by returning [None] directly: it performs no action, in particular
    the recognizer is not reset and not asked for a final text, and
    stays as the frames left it. For a stream whose smoothed energy
    never exceeds [energy_threshold] (with no manual stop and no failing
    read) the capture returns at the first iteration past the timeout
    and has not returned before. *)
Theorem initial_timeout_outcome :
  forall (np_sqrt : Q -> Q) (T : Type) (R : Recognizer T)
         (E : Setup) (t t0 : T) (is_follow_up : bool) (C : VadCtx)
         (before after : list Tick) (tk : Tick),
    vad_setup E t is_follow_up = Some (C, t0) ->
    stop_raises (audio_manager E) = false ->
    forallb (waits_calmly np_sqrt C) (vad_run np_sqrt C (vad_start t0) before) = true ->
    _check_manual_vad_stop (keyboard_device C) (kbd tk) = Val false ->
    (initial_timeout C < now tk - overall_start_time C)%Q ->
    let r := vad_loop np_sqrt C (vad_start t0) before in
    let c := capture_speech_with_unified_vad np_sqrt E t is_follow_up
               (before ++ tk :: after) in
    initial_timeout C = (if is_follow_up then 4 else 8)%Q
    /\ (forall s : @Session T,
           voice_started s = false ->
           vad_iteration np_sqrt C s tk = step [] s (Some ReturnNone))
    /\ voice_started (next r) = false
    /\ result c = Some (Val None)
    /\ trace c = vad_opening is_follow_up ++ [AReset] ++ actions r ++ [AStopListening]
    /\ forallb frame_action (actions r) = true
    /\ recognizer c = transcriber (next r)
    /\ result (capture_speech_with_unified_vad np_sqrt E t is_follow_up before) = None.
Proof.
  intros np_sqrt T R E t t0 is_follow_up C before after tk
         Hsetup Hstop Hcalm Hkbd Hlate r c.
  assert (Hrun : Forall (fun i =>
                   _check_manual_vad_stop (keyboard_device C) (kbd (tick i)) = Val false
                   /\ pcm (tick i) <> Exc
                   /\ (now (tick i) - overall_start_time C <= initial_timeout C)%Q
                   /\ (forall a, smoothed_energy np_sqrt C (pre i) (tick i) = Some a ->
                                 (a <= energy_threshold C)%Q))
                 (vad_run np_sqrt C (vad_start t0) before)).
  { apply Forall_forall. intros i Hin. apply (waits_calmly_spec np_sqrt T R C i).
    rewrite forallb_forall in Hcalm. now apply Hcalm. }
  destruct (waiting_run np_sqrt C before (vad_start t0) eq_refl Hrun) as (Hgo & Hv & Hacts).
  fold r in Hgo, Hv, Hacts.
  assert (Hany : forall s : @Session T,
             voice_started s = false ->
             vad_iteration np_sqrt C s tk = step [] s (Some ReturnNone)).
  { intros s Hs. apply PyNumFacts.gt_true in Hlate.
    unfold vad_iteration. rewrite Hkbd, Hs, Hlate. reflexivity. }
  pose proof (Hany (next r) Hv) as Hit.
  assert (Hexit : exit (vad_iteration np_sqrt C (next r) tk) = Some ReturnNone)
    by now rewrite Hit.
  pose proof (capture_no_final np_sqrt E t t0 is_follow_up C Hsetup Hstop
                before after tk Hgo (or_introl Hexit)) as Hc.
  fold r c in Hc. rewrite Hc, Hit. simpl.
  repeat split; auto.
  - unfold vad_setup in Hsetup.
    destruct (speech_enabled E && stream_starts (audio_manager E)); [|discriminate].
    destruct (d_energy_threshold _); [|discriminate].
    destruct (reset t) as [t1 [u|]]; [|discriminate].
    destruct (frames_per_second _); [|discriminate].
    destruct (silence_frames_needed_of _ _); [|discriminate].
    injection Hsetup as <- _. reflexivity.
  - apply (capture_running np_sqrt E t t0 is_follow_up C Hsetup before Hgo).
Qed.

(** Silence until the ninth second of a first-turn capture (timeout
    8 s). *)
Lemma initial_timeout_outcome_witness :
  let before := [Sample.frame_at 101 (Sample.hush 2048); Sample.idle_at 108] in
  let c := capture_speech_with_unified_vad Sample.sqrt_exact Sample.pi_setup
             Sample.ok_go false (before ++ [Sample.idle_at 109]) in
  result c = Some (Val None)
  /\ trace c = vad_opening false
                 ++ [AReset; AProcessFrame (Sample.hush 2048); APrintPartial "ok go";
                     ASleep (5 # 1000); AStopListening]
  /\ result (capture_speech_with_unified_vad Sample.sqrt_exact Sample.pi_setup
               Sample.ok_go false before) = None.
Proof.
  intros before c.
  assert (Hsetup : vad_setup Sample.pi_setup Sample.ok_go false
                   = Some (Sample.pi_ctx, Sample.ok_go)) by (vm_compute; reflexivity).
  assert (Hstop : stop_raises (audio_manager Sample.pi_setup) = false) by reflexivity.
  destruct (initial_timeout_outcome Sample.sqrt_exact _ _ _ _ _ _ _ before []
              (Sample.idle_at 109) Hsetup Hstop)
    as (_ & _ & _ & Hres & Htrace & _ & _ & Hbefore).
  - vm_compute. reflexivity.
  - vm_compute. reflexivity.
  - vm_compute. reflexivity.
  - split; [exact Hres|]. split; [|exact Hbefore].
    etransitivity; [exact Htrace|]. vm_compute. reflexivity.
Defined.

(** After an initial timeout the recognizer still holds the audio it was
    fed: the only reset in the trace is the one made before the loop. *)
Lemma initial_timeout_keeps_recognizer :
  let c := capture_speech_with_unified_vad Sample.sqrt_exact Sample.pi_setup
             Sample.ok_go false
             [Sample.frame_at 101 (Sample.hush 2048); Sample.idle_at 109] in
  result c = Some (Val None)
  /\ trace c = vad_opening false
                 ++ [AReset; AProcessFrame (Sample.hush 2048); APrintPartial "ok go";
                     AStopListening]
  /\ Vosk.heard (recognizer c) = [Sample.hush 2048]
  /\ recognizer c <> fst (reset (recognizer c)).
Proof.
  vm_compute. repeat split. discriminate.
Qed.

(** ** Push-to-talk *)

Section PushToTalk.

Context {T : Type} `{Recognizer T}.




(** The push-to-talk capture once its preparations have gone through. *)
Lemma ptt_after_setup E (t t0 : T) ticks :
  ptt_setup E t = Some t0 ->
  capture_speech_push_to_talk E t ticks =
    capture (ptt_opening ++ [AReset]
               ++ trace (except_finally (audio_manager E)
                           (ptt_try (has_keyboard E) (start_clock E) t0 ticks)))
            (recognizer (except_finally (audio_manager E)
                           (ptt_try (has_keyboard E) (start_clock E) t0 ticks)))
            (result (except_finally (audio_manager E)
                       (ptt_try (has_keyboard E) (start_clock E) t0 ticks))).
Proof.
  unfold ptt_setup, capture_speech_push_to_talk.
  destruct (speech_enabled E); simpl; [|discriminate].
  destruct (stream_starts (audio_manager E)); simpl; [|discriminate].
  destruct (reset t) as [t1 [u|]]; [|discriminate].
  intros [= <-]. reflexivity.
Qed.


(** How an iteration of push-to-talk leaves the loop, if it does. *)
Lemma ptt_iteration_exit kb start maxt (s : T * option Q) tk :
  snd (ptt_iteration kb start maxt s tk) =
    match _check_manual_vad_stop kb (kbd tk) with
    | Exc => Some (if interrupts (kbd tk) then PttAbort else PttRaise)
    | Val true => Some PttManualStop
    | Val false =>
        if PyNum.gt (now tk - start) maxt then Some PttMaxTime
        else match pcm tk with
             | Exc => Some PttRaise
             | Val _ => None
             end
    end.
Proof.
  unfold ptt_iteration.
  destruct (_check_manual_vad_stop kb (kbd tk)) as [[|]|]; simpl; auto.
  destruct (PyNum.gt (now tk - start) maxt); simpl; auto.
  destruct (pcm tk) as [[pcm_bytes|]|]; simpl; auto.
  destruct (is_nil pcm_bytes); simpl; auto.
  destruct (process_frame (fst s) pcm_bytes) as [t' [ev|]]; simpl; auto.
  destruct (negb (PyStr.is_empty (text ev)) && _ && _); simpl; auto.
Qed.

(** Push-to-talk ends at the first manual stop or at the first tick
    past the ceiling, and not by an exception when nothing raises. *)
Lemma ptt_loop_ends E ticks :
  forall s : T * option Q,
    Exists (ends_push_to_talk (has_keyboard E) (start_clock E)) ticks ->
    snd (ptt_loop (has_keyboard E) (start_clock E) 60 s ticks) <> None
    /\ (Forall (sound (has_keyboard E)) ticks ->
        snd (ptt_loop (has_keyboard E) (start_clock E) 60 s ticks) <> Some PttRaise
        /\ snd (ptt_loop (has_keyboard E) (start_clock E) 60 s ticks) <> Some PttAbort).
Proof.
  induction ticks as [|tk rest IH]; intros s Hend.
  - inversion Hend.
  - simpl.
    pose proof (ptt_iteration_exit (has_keyboard E) (start_clock E) 60 s tk) as Hexit.
    destruct (ptt_iteration (has_keyboard E) (start_clock E) 60 s tk) as [[a s'] e].
    simpl in Hexit.
    destruct e as [e|].
    + simpl. split; [discriminate|].
      intros Hsound. inversion Hsound as [|x l [Hk Hp] Hl]; subst.
      destruct (_check_manual_vad_stop (has_keyboard E) (kbd tk)) as [[|]|];
        try (split; congruence).
      destruct (PyNum.gt (now tk - start_clock E) 60); try (split; congruence).
      destruct (pcm tk); split; congruence.
    + assert (Hrest : Exists (ends_push_to_talk (has_keyboard E) (start_clock E)) rest).
      { inversion Hend as [x l Hx | x l Hl]; subst; [|exact Hl]. exfalso.
        destruct Hx as [Hx | Hx].
        - rewrite Hx in Hexit. discriminate.
        - apply PyNumFacts.gt_true in Hx.
          destruct (_check_manual_vad_stop (has_keyboard E) (kbd tk)) as [[|]|];
            try discriminate.
          rewrite Hx in Hexit. discriminate. }
      destruct (IH s' Hrest) as [Hsome Hok].
      destruct (ptt_loop (has_keyboard E) (start_clock E) 60 s' rest) as [[a' s''] e'].
      simpl in *. split; [exact Hsome|].
      intros Hsound. inversion Hsound; subst. auto.
Qed.

End PushToTalk.

(** ** Clean-up *)



(** *** Interruptions *)







(** C4. A push-to-talk capture in which nothing raises ends at the
    first manual stop or at the first tick past the 60 s ceiling, and
    what it returns is the recognizer's final text put through
    [ptt_accept] alone: the text trimmed, whatever its length and its
    number of words, unless the trimmed text is empty or is the literal
    "the" in any letter case - those two cases give [None]. *)
Theorem push_to_talk_filter :
  forall (T : Type) (R : Recognizer T) (E : Setup) (t t0 : T) (ticks : list Tick),
    ptt_setup E t = Some t0 ->
    stop_raises (audio_manager E) = false ->
    Forall (sound (has_keyboard E)) ticks ->
    Exists (ends_push_to_talk (has_keyboard E) (start_clock E)) ticks ->
    let loop := ptt_loop (has_keyboard E) (start_clock E) 60 (t0, None) ticks in
    let heard := fst (snd (fst loop)) in
    let c := capture_speech_push_to_talk E t ticks in
    (exists e, snd loop = Some e /\ e <> PttRaise)
    /\ recognizer c = fst (get_final_text heard)
    /\ (forall raw : string,
           snd (get_final_text heard) = Val raw ->
           result c = Some (Val (ptt_accept raw))
           /\ (PyStr.strip raw <> ""%string ->
               PyStr.lower (PyStr.strip raw) <> "the"%string ->
               result c = Some (Val (Some (PyStr.strip raw))))
           /\ (PyStr.strip raw = ""%string
               \/ PyStr.lower (PyStr.strip raw) = "the"%string ->
               result c = Some (Val None))).
Proof.
  intros T R E t t0 ticks Hsetup Hstop Hsound Hend loop heard c.
  destruct (ptt_loop_ends E ticks (t0, None) Hend) as [Hsome Hok].
  specialize (Hok Hsound). fold loop in Hsome, Hok.
  assert (Hc : c = capture (ptt_opening ++ [AReset]
                              ++ (fst (fst loop) ++ [AGetFinalText]) ++ [AStopListening])
                     (fst (get_final_text heard))
                     (Some (Val (caught (ptt_final (snd (get_final_text heard))))))).
  { unfold c. rewrite (ptt_after_setup E t t0 ticks Hsetup).
    unfold ptt_try, heard. fold loop.
    destruct loop as [[acts s] e]. simpl in *.
    destruct (get_final_text (fst s)) as [t' final].
    destruct Hok as [Hraise Habort].
    destruct e as [[| | |]|]; try congruence;
      unfold except_finally; simpl; rewrite Hstop; reflexivity. }
  split; [|split].
  - destruct Hok as [Hraise Habort].
    destruct (snd loop) as [e|]; [|congruence]. exists e. split; congruence.
  - rewrite Hc. reflexivity.
  - intros raw Hraw.
    assert (Hres : result c = Some (Val (ptt_accept raw))).
    { rewrite Hc. simpl. now rewrite Hraw. }
    split; [exact Hres|]. split.
    + intros Hne Hthe. now rewrite Hres, ptt_accept_keeps.
    + intros Hrej. rewrite Hres, ptt_accept_trimmed. cbv zeta.
      destruct Hrej as [Hr | Hr].
      * now rewrite Hr.
      * destruct (PyStr.is_empty (PyStr.strip raw)); [reflexivity|].
        apply String.eqb_eq in Hr. now rewrite Hr.
Qed.

(** A push-to-talk capture of the one-letter text "a", which the timed
    capture's filter would reject. *)
Lemma push_to_talk_filter_witness :
  result (capture_speech_push_to_talk Sample.pi_setup Sample.just_a
            [Sample.frame_at 101 (Sample.tone 2048); Sample.stop_at 102])
    = Some (Val (Some "a"%string))
  /\ vad_accept "a" = None.
Proof.
  split; [|reflexivity].
  destruct (push_to_talk_filter _ _ Sample.pi_setup Sample.just_a Sample.just_a
              [Sample.frame_at 101 (Sample.tone 2048); Sample.stop_at 102])
    as (_ & _ & Hraw).
  - vm_compute. reflexivity.
  - reflexivity.
  - constructor; [split; vm_compute; discriminate|].
    constructor; [split; vm_compute; discriminate|]. constructor.
  - apply Exists_cons_tl, Exists_cons_hd. left. vm_compute. reflexivity.
  - destruct (Hraw "a"%string) as (Hres & _ & _).
    + vm_compute. reflexivity.
    + exact Hres.
Defined.

(** C9. In push-to-talk every non-empty frame that the loop reads goes
    to the recognizer's [process_frame], whatever its length: there is
    no check against [frame_length * 2], so frames that the timed
    capture would drop reach the recognizer. *)
Theorem push_to_talk_forwards_frames :
  forall (T : Type) (R : Recognizer T) (keyboard_device : bool)
         (start_time max_recording_time : Q) (s : T * option Q) (tk : Tick)
         (pcm_bytes : list byte),
    _check_manual_vad_stop keyboard_device (kbd tk) = Val false ->
    (now tk - start_time <= max_recording_time)%Q ->
    pcm tk = Val (Some pcm_bytes) ->
    pcm_bytes <> [] ->
    let r := ptt_iteration keyboard_device start_time max_recording_time s tk in
    snd r = None
    /\ fst (snd (fst r)) = fst (process_frame (fst s) pcm_bytes)
    /\ exists more, fst (fst r) = AProcessFrame pcm_bytes :: more.
Proof.
  intros T R kb start maxt s tk pcm_bytes Hquiet Hearly Hpcm Hne r. subst r.
  apply PyNumFacts.gt_false in Hearly.
  unfold ptt_iteration. rewrite Hquiet, Hearly, Hpcm.
  destruct pcm_bytes as [|b rest]; [congruence|]. simpl is_nil. cbv iota.
  destruct (process_frame (fst s) (b :: rest)) as [t' [ev|]]; simpl.
  - destruct (negb (PyStr.is_empty (text ev)) && _ && _); simpl; eauto.
  - eauto.
Qed.

(** A frame of three bytes - not even a whole number of samples - is
    handed to the recognizer by push-to-talk and dropped by the timed
    capture. *)
Lemma push_to_talk_forwards_frames_witness :
  let odd := [x01; x02; x03] in
  Vosk.heard (fst (snd (fst (ptt_iteration true 100 60 (Sample.ok_go, None)
                               (Sample.frame_at 101 odd))))) = [odd]
  /\ actions (vad_iteration Sample.sqrt_exact Sample.pi_ctx (vad_start Sample.ok_go)
                (Sample.frame_at 101 odd)) = [].
Proof.
  intros odd. split; [|reflexivity].
  destruct (push_to_talk_forwards_frames _ _ true 100 60 (Sample.ok_go, None)
              (Sample.frame_at 101 odd) odd) as (_ & Hrec & _).
  - reflexivity.
  - vm_compute. discriminate.
  - reflexivity.
  - discriminate.
  - rewrite Hrec. reflexivity.
Defined.

(** ** The number of silent frames *)

Module PyFloatFacts.
Import PyFloat.

Lemma nearest_even_cases (a b : Z) :
  0 < b ->
  nearest_even a b = a / b \/ (nearest_even a b = a / b + 1 /\ 0 < a mod b).
Proof.
  intros Hb. unfold nearest_even.
  pose proof (Z.mod_pos_bound a b Hb) as Hm.
  destruct (Z.compare_spec (2 * (a mod b)) b) as [He | Hl | Hg].
  - destruct (Z.even (a / b)); [left; reflexivity|right; split; [reflexivity|lia]].
  - left; reflexivity.
  - right; split; [reflexivity|lia].
Qed.

(** Rounding stays between any two integers that enclose the quotient. *)
Lemma nearest_even_between (a b lo hi : Z) :
  0 < b -> lo * b <= a -> a <= hi * b -> lo <= nearest_even a b <= hi.
Proof.
  intros Hb Hlo Hhi.
  pose proof (Z.div_mod a b ltac:(lia)) as Hdm.
  pose proof (Z.mod_pos_bound a b Hb) as Hm.
  destruct (nearest_even_cases a b Hb) as [-> | [-> Hpos]]; nia.
Qed.





(** Rounding to the nearest integer is off by half a unit at most. *)
Lemma nearest_even_error (a b : Z) :
  0 < b -> 2 * Z.abs (nearest_even a b * b - a) <= b.
Proof.
  intros Hb. unfold nearest_even.
  pose proof (Z.div_mod a b ltac:(lia)) as Hdm.
  pose proof (Z.mod_pos_bound a b Hb) as Hm.
  destruct (Z.compare_spec (2 * (a mod b)) b) as [He | Hl | Hg];
    [destruct (Z.even (a / b))| |]; nia.
Qed.

Lemma leading_bit_high (n d : positive) :
  (0 <= leading_bit n d + 1 -> Zpos n < Zpos d * 2 ^ (leading_bit n d + 1))
  /\ (leading_bit n d + 1 < 0 -> Zpos n * 2 ^ (- (leading_bit n d + 1)) < Zpos d).
Proof.
  unfold leading_bit.
  pose proof (Z.log2_spec (Zpos n) ltac:(lia)) as [Hn1 Hn2].
  pose proof (Z.log2_spec (Zpos d) ltac:(lia)) as [Hd1 Hd2].
  rewrite <- Z.add_1_r in Hn2, Hd2.
  pose proof (Z.log2_nonneg (Zpos n)) as Hln.
  pose proof (Z.log2_nonneg (Zpos d)) as Hld.
  set (ln := Z.log2 (Zpos n)) in *. set (ld := Z.log2 (Zpos d)) in *.
  destruct (0 <=? ln - ld) eqn:Hk.
  - apply Z.leb_le in Hk.
    destruct (Zpos d * 2 ^ (ln - ld) <=? Zpos n) eqn:Ht.
    + split; [intros _|lia].
      assert (Hp : 2 ^ (ln + 1) = 2 ^ ld * 2 ^ (ln - ld + 1))
        by (rewrite <- Z.pow_add_r by lia; f_equal; lia).
      pose proof (Z.pow_pos_nonneg 2 (ln - ld + 1) ltac:(lia) ltac:(lia)).
      apply Z.lt_le_trans with (2 ^ (ln + 1)); [exact Hn2|].
      rewrite Hp. apply Z.mul_le_mono_nonneg_r; lia.
    + apply Z.leb_gt in Ht. split; [intros _|lia].
      replace (ln - ld - 1 + 1) with (ln - ld) by lia. exact Ht.
  - apply Z.leb_gt in Hk.
    destruct (Zpos d <=? Zpos n * 2 ^ (- (ln - ld))) eqn:Ht.
    + split; [intros Hnn|intros Hneg].
      * assert (Hz : ln - ld + 1 = 0) by lia. rewrite Hz. change (2 ^ 0) with 1.
        assert (Hp : 2 ^ (ln + 1) = 2 ^ ld) by (f_equal; lia). lia.
      * assert (Hp : 2 ^ (ln + 1) * 2 ^ (- (ln - ld + 1)) = 2 ^ ld)
          by (rewrite <- Z.pow_add_r by lia; f_equal; lia).
        pose proof (Z.pow_pos_nonneg 2 (- (ln - ld + 1)) ltac:(lia) ltac:(lia)).
        apply Z.lt_le_trans with (2 ^ ld); [|exact Hd1].
        rewrite <- Hp. apply Z.mul_lt_mono_pos_r; lia.
    + apply Z.leb_gt in Ht. split; [lia|intros _].
      replace (- (ln - ld - 1 + 1)) with (- (ln - ld)) by lia. exact Ht.
Qed.

(** The significand has 53 bits at most. *)
Lemma nearest_double_bits (n d : positive) :
  0 <= fst (nearest_double n d) <= 2 ^ 53.
Proof.
  unfold nearest_double. cbn [fst].
  destruct (leading_bit_high n d) as [Hhi Hlo].
  set (l := leading_bit n d) in *.
  set (e := Z.max (l - 52) (-1074)).
  assert (He : l - 52 <= e) by (unfold e; lia).
  destruct (0 <=? e) eqn:He0.
  - apply Z.leb_le in He0.
    pose proof (Z.pow_pos_nonneg 2 e ltac:(lia) He0) as HP.
    apply nearest_even_between; try lia.
    specialize (Hhi ltac:(lia)).
    assert (Hp : 2 ^ (l + 1) <= 2 ^ 53 * 2 ^ e).
    { rewrite <- Z.pow_add_r by lia. apply Z.pow_le_mono_r; lia. }
    nia.
  - apply Z.leb_gt in He0.
    pose proof (Z.pow_pos_nonneg 2 (- e) ltac:(lia) ltac:(lia)) as HP.
    apply nearest_even_between; try lia.
    destruct (Z_le_gt_dec 0 (l + 1)) as [Hl | Hl].
    + specialize (Hhi Hl).
      assert (Hp : 2 ^ (l + 1) * 2 ^ (- e) <= 2 ^ 53).
      { rewrite <- Z.pow_add_r by lia. apply Z.pow_le_mono_r; lia. }
      nia.
    + specialize (Hlo ltac:(lia)).
      assert (Hp : 2 ^ (- e) <= 2 ^ 53 * 2 ^ (- (l + 1))).
      { rewrite <- Z.pow_add_r by lia. apply Z.pow_le_mono_r; lia. }
      nia.
Qed.

End PyFloatFacts.





(** * More of the capture loops *)

(** ** Lists *)

Lemma lastn_all {A : Type} (n : nat) (l : list A) :
  (List.length l <= n)%nat -> lastn n l = l.
Proof.
  intros Hle. unfold lastn. replace (List.length l - n)%nat with 0%nat by lia.
  reflexivity.
Qed.

Lemma lastn_length {A : Type} (n : nat) (l : list A) :
  List.length (lastn n l) = Nat.min n (List.length l).
Proof. unfold lastn. rewrite length_skipn. lia. Qed.

Lemma lastn_app_lastn {A : Type} (n : nat) (a b : list A) :
  lastn n (lastn n a ++ b) = lastn n (a ++ b).
Proof.
  unfold lastn at 2.
  assert (Hskip : skipn (List.length a - n) a ++ b = skipn (List.length a - n) (a ++ b)).
  { rewrite skipn_app.
    replace (List.length a - n - List.length a)%nat with 0%nat by lia. reflexivity. }
  rewrite Hskip. unfold lastn. rewrite skipn_skipn, length_skipn, length_app.
  f_equal. lia.
Qed.

Lemma push_history_lastn (K : Z) (h : list Q) (e : Q) :
  0 <= K -> Z.of_nat (List.length h) <= K ->
  push_history K h e = lastn (Z.to_nat K) (h ++ [e]).
Proof.
  intros HK Hh. unfold push_history, lastn.
  rewrite length_app. simpl List.length.
  destruct (Z.of_nat (List.length h + 1) >? K) eqn:Hover.
  - apply Z.gtb_lt in Hover.
    replace (List.length h + 1 - Z.to_nat K)%nat with 1%nat by lia.
    destruct (h ++ [e]); reflexivity.
  - assert (Hfit : Z.of_nat (List.length h + 1) <= K).
    { destruct (Z.gtb_spec (Z.of_nat (List.length h + 1)) K); [discriminate|lia]. }
    replace (List.length h + 1 - Z.to_nat K)%nat with 0%nat by lia. reflexivity.
Qed.

(** ** What one iteration of the timed loop does with its frame *)

Section Handling.

Variable np_sqrt : Q -> Q.
Context {T : Type} `{Recognizer T}.

Lemma sent_app (a b : list Action) : sent (a ++ b) = sent a ++ sent b.
Proof.
  induction a as [|x a IH]; simpl; [reflexivity|].
  destruct x; simpl; rewrite IH; reflexivity.
Qed.

(** Handling a frame sends it, and only it, to the recognizer and
    pushes its energy on the history. *)
Lemma vad_frame_effects C (s : @Session T) current_time pcm_bytes :
  sent (actions (vad_frame np_sqrt C s current_time pcm_bytes)) = [pcm_bytes]
  /\ frame_history (next (vad_frame np_sqrt C s current_time pcm_bytes))
     = push_history (frame_history_length C) (frame_history s)
         (frame_energy np_sqrt pcm_bytes)
  /\ transcriber (next (vad_frame np_sqrt C s current_time pcm_bytes))
     = fst (process_frame (transcriber s) pcm_bytes).
Proof.
  unfold vad_frame.
  destruct (process_frame (transcriber s) pcm_bytes) as [t' ev]. simpl fst.
  destruct (read_event ev) as [is_final_vosk current_partial].
  assert (Hshow : forall st : @Session T,
             sent (actions (show_partial current_time current_partial
                              [AProcessFrame pcm_bytes] st)) = [pcm_bytes]
             /\ frame_history (next (show_partial current_time current_partial
                                       [AProcessFrame pcm_bytes] st))
                = frame_history st
             /\ transcriber (next (show_partial current_time current_partial
                                     [AProcessFrame pcm_bytes] st))
                = transcriber st).
  { intros st.
    destruct (show_partial_spec np_sqrt current_time current_partial
                [AProcessFrame pcm_bytes] st) as (_ & _ & _ & _ & Hh & Ht & Ha).
    split; [|split; assumption].
    destruct Ha as [-> | (p & _ & ->)]; reflexivity. }
  destruct (negb (voice_started s)).
  - destruct (PyNum.gt _ (energy_threshold C)); apply Hshow.
  - destruct (_ && PyNum.ge _ _); [simpl; auto|].
    destruct (is_final_vosk && _); [simpl; auto|]. apply Hshow.
Qed.

(** An iteration that lets its frame through is [vad_frame] on it. *)
Lemma handled_frame C (s : @Session T) tk pcm_bytes :
  handled C s tk = Some pcm_bytes ->
  vad_iteration np_sqrt C s tk = vad_frame np_sqrt C s (now tk) pcm_bytes.
Proof.
  unfold handled, vad_iteration.
  destruct (_check_manual_vad_stop (keyboard_device C) (kbd tk)) as [[|]|];
    try discriminate.
  destruct (negb (voice_started s) && _); try discriminate.
  destruct (voice_started s && _); try discriminate.
  destruct (pcm tk) as [[b|]|]; try discriminate.
  destruct (is_nil b); simpl; try discriminate.
  destruct (Z.of_nat (List.length b) =? am_frame_length C * 2); simpl;
    try discriminate.
  now intros [= ->].
Qed.

(** An iteration that lets no frame through sends nothing to the
    recognizer and leaves the voice state and the history alone. *)
Lemma unhandled_step C (s : @Session T) tk :
  handled C s tk = None ->
  sent (actions (vad_iteration np_sqrt C s tk)) = []
  /\ frame_history (next (vad_iteration np_sqrt C s tk)) = frame_history s
  /\ voice_started (next (vad_iteration np_sqrt C s tk)) = voice_started s
  /\ speech_start_time (next (vad_iteration np_sqrt C s tk)) = speech_start_time s
  /\ silence_frames_count (next (vad_iteration np_sqrt C s tk)) = silence_frames_count s
  /\ (exit (vad_iteration np_sqrt C s tk) = None ->
      next (vad_iteration np_sqrt C s tk) = s).
Proof.
  unfold handled, vad_iteration.
  destruct (_check_manual_vad_stop (keyboard_device C) (kbd tk)) as [[|]|].
  - intros _. destruct (voice_started s && _); [simpl; auto 10|].
    destruct (reset (transcriber s)) as [t' [u|]]; simpl; repeat split; auto;
      discriminate.
  - destruct (negb (voice_started s) && _); [simpl; auto 10|].
    destruct (voice_started s && _); [simpl; auto 10|].
    destruct (pcm tk) as [[b|]|]; [|simpl; auto 10|simpl; auto 10].
    destruct (is_nil b); [simpl; auto 10|]. simpl.
    destruct (Z.of_nat (List.length b) =? am_frame_length C * 2); simpl;
      [discriminate|auto 10].
  - simpl. auto 10.
Qed.

(** The history after the loop: the readings of the frames sent to the
    recognizer, pushed one by one. *)
Lemma vad_loop_history C ticks :
  forall s : @Session T,
    frame_history (next (vad_loop np_sqrt C s ticks))
    = fold_left (push_history (frame_history_length C))
        (map (frame_energy np_sqrt) (sent (actions (vad_loop np_sqrt C s ticks))))
        (frame_history s).
Proof.
  induction ticks as [|tk rest IH]; intros s; simpl; [reflexivity|].
  assert (Hstep : sent (actions (vad_iteration np_sqrt C s tk)) = []
                  /\ frame_history (next (vad_iteration np_sqrt C s tk)) = frame_history s
                  \/ exists b,
                      sent (actions (vad_iteration np_sqrt C s tk)) = [b]
                      /\ frame_history (next (vad_iteration np_sqrt C s tk))
                         = push_history (frame_history_length C) (frame_history s)
                             (frame_energy np_sqrt b)).
  { destruct (handled C s tk) as [b|] eqn:Hh.
    - right. exists b. rewrite (handled_frame C s tk b Hh).
      destruct (vad_frame_effects C s (now tk) b) as (Hs & Hf & _). auto.
    - left. destruct (unhandled_step C s tk Hh) as (Hs & Hf & _). auto. }
  destruct (exit (vad_iteration np_sqrt C s tk)).
  - destruct Hstep as [[Hs Hf] | (b & Hs & Hf)]; rewrite Hs, Hf; reflexivity.
  - simpl. rewrite IH, sent_app, map_app, fold_left_app.
    destruct Hstep as [[Hs Hf] | (b & Hs & Hf)]; rewrite Hs, Hf; reflexivity.
Qed.

End Handling.

Lemma fold_push_lastn (K : Z) (es : list Q) :
  forall h : list Q,
    0 <= K -> Z.of_nat (List.length h) <= K ->
    fold_left (push_history K) es h = lastn (Z.to_nat K) (h ++ es).
Proof.
  induction es as [|e es IH]; intros h HK Hh; simpl.
  - rewrite app_nil_r. symmetry. apply lastn_all. lia.
  - rewrite IH; auto.
    + rewrite (push_history_lastn K h e HK Hh), lastn_app_lastn.
      now rewrite <- app_assoc.
    + rewrite (push_history_lastn K h e HK Hh), lastn_length. lia.
Qed.

(** X1. The smoothing window of the timed loop is a sliding window over
    the frames given to the recognizer: whenever the loop stands, its
    frame history consists of the energies of the last
    [frame_history_length] frames that were sent to [process_frame] (all
    of them while there are fewer), in the order they were sent. *)
Theorem history_is_sliding_window :
  forall (np_sqrt : Q -> Q) (T : Type) (R : Recognizer T) (C : VadCtx)
         (s : @Session T) (ticks : list Tick),
    0 <= frame_history_length C ->
    Z.of_nat (List.length (frame_history s)) <= frame_history_length C ->
    let r := vad_loop np_sqrt C s ticks in
    frame_history (next r)
    = lastn (Z.to_nat (frame_history_length C))
        (frame_history s ++ map (frame_energy np_sqrt) (sent (actions r)))
    /\ Z.of_nat (List.length (frame_history (next r))) <= frame_history_length C.
Proof.
  intros np_sqrt T R C s ticks HK Hh r.
  assert (Heq : frame_history (next r)
                = lastn (Z.to_nat (frame_history_length C))
                    (frame_history s ++ map (frame_energy np_sqrt) (sent (actions r)))).
  { unfold r. rewrite vad_loop_history. now apply fold_push_lastn. }
  split; [exact Heq|]. rewrite Heq, lastn_length. lia.
Qed.

(** Twenty-one silent frames and a loud one: the window holds the last
    twenty readings. *)
Lemma history_is_sliding_window_witness :
  let ticks := Drill.frames_from 101 (128 # 1000)
                 (List.repeat (Sample.hush 2048) 21 ++ [Sample.tone 2048]) in
  frame_history (next (vad_loop Sample.sqrt_exact Sample.pi_ctx
                         (vad_start Sample.ok_go) ticks))
  = List.repeat 0%Q 19 ++ [1 # 2]%Q.
Proof.
  intros ticks.
  destruct (history_is_sliding_window Sample.sqrt_exact _ _ Sample.pi_ctx
              (vad_start Sample.ok_go) ticks) as [Hwin _].
  - vm_compute. discriminate.
  - vm_compute. discriminate.
  - rewrite Hwin. vm_compute. reflexivity.
Defined.

(** ** Energy and the start of voice *)

Lemma sum_le_bound (t : Q) (h : list Q) :
  forall a : Q,
    Forall (fun e => e <= t)%Q h ->
    (fold_left Qplus h a <= a + inject_Z (Z.of_nat (List.length h)) * t)%Q.
Proof.
  induction h as [|e h IH]; intros a Hall.
  - cbn. rewrite Qmult_0_l, Qplus_0_r. apply Qle_refl.
  - inversion Hall as [|x l He Hl]; subst.
    cbn [fold_left]. eapply Qle_trans; [apply IH; exact Hl|].
    replace (Z.of_nat (List.length (e :: h))) with (Z.of_nat (List.length h) + 1)
      by (simpl List.length; lia).
    rewrite inject_Z_plus. change (inject_Z 1) with 1%Q.
    generalize (inject_Z (Z.of_nat (List.length h))). intros n. nra.
Qed.

(** The average of readings that are all at most [t] is at most [t]. *)
Lemma avg_le_bound (t : Q) (h : list Q) :
  h <> [] ->
  Forall (fun e => e <= t)%Q h ->
  (avg_energy_of h <= t)%Q.
Proof.
  intros Hne Hall. unfold avg_energy_of.
  destruct h as [|e h']; [congruence|]. cbn [is_nil].
  pose proof (sum_le_bound t (e :: h') 0 Hall) as Hsum.
  assert (Hpos : (0 < inject_Z (Z.of_nat (List.length (e :: h'))))%Q).
  { unfold Qlt. simpl. lia. }
  apply Qle_shift_div_r; [exact Hpos|].
  unfold PyNum.sum. lra.
Qed.

Lemma push_history_bound (K : Z) (t : Q) (h : list Q) (e : Q) :
  Forall (fun x => x <= t)%Q h -> (e <= t)%Q ->
  Forall (fun x => x <= t)%Q (push_history K h e).
Proof.
  intros Hh He. unfold push_history.
  assert (Hall : Forall (fun x => x <= t)%Q (h ++ [e])).
  { apply Forall_app. split; [exact Hh|]. constructor; [exact He|constructor]. }
  destruct (_ >? K); [|exact Hall].
  destruct (h ++ [e]); [constructor|]. simpl. now inversion Hall.
Qed.

Lemma push_history_nonempty (K : Z) (h : list Q) (e : Q) :
  1 <= K -> push_history K h e <> [].
Proof.
  intros HK. unfold push_history.
  destruct (Z.of_nat (List.length (h ++ [e])) >? K) eqn:Hover.
  - apply Z.gtb_lt in Hover.
    destruct (h ++ [e]) as [|x [|y l]]; simpl in *; [lia|lia|discriminate].
  - destruct h; discriminate.
Qed.

Section Quiet.

Variable np_sqrt : Q -> Q.
Context {T : Type} `{Recognizer T}.

Lemma handled_offered C (s : @Session T) tk pcm_bytes :
  handled C s tk = Some pcm_bytes ->
  pcm tk = Val (Some pcm_bytes)
  /\ is_nil pcm_bytes = false
  /\ Z.of_nat (List.length pcm_bytes) = am_frame_length C * 2
  /\ _check_manual_vad_stop (keyboard_device C) (kbd tk) = Val false
  /\ voice_started s
     && PyNum.gt (now tk - speech_start_time s) (max_recording_time C) = false.
Proof.
  unfold handled.
  destruct (_check_manual_vad_stop (keyboard_device C) (kbd tk)) as [[|]|];
    try discriminate.
  destruct (negb (voice_started s) && _); try discriminate.
  destruct (voice_started s && _); try discriminate.
  destruct (pcm tk) as [[b|]|]; try discriminate.
  destruct (is_nil b) eqn:Hn; simpl; try discriminate.
  destruct (Z.of_nat (List.length b) =? am_frame_length C * 2) eqn:E; simpl;
    try discriminate.
  intros [= ->]. apply Z.eqb_eq in E. repeat split; auto.
Qed.

Lemma handled_smoothed C (s : @Session T) tk pcm_bytes :
  handled C s tk = Some pcm_bytes ->
  smoothed_energy np_sqrt C s tk
  = Some (avg_energy_of (push_history (frame_history_length C) (frame_history s)
                           (frame_energy np_sqrt pcm_bytes))).
Proof.
  intros Hh. destruct (handled_offered C s tk pcm_bytes Hh) as (Hp & Hn & Hl & _).
  unfold smoothed_energy. rewrite Hp, Hn. apply Z.eqb_eq in Hl. now rewrite Hl.
Qed.

(** While voice has not started the loop can only be left by the
    initial timeout, by a manual stop without speech or by an exception. *)
Lemma waiting_exit C (s : @Session T) tk why :
  voice_started s = false ->
  exit (vad_iteration np_sqrt C s tk) = Some (Break why) ->
  why = ManualStopWithoutSpeech.
Proof.
  intros Hv. destruct (handled C s tk) as [b|] eqn:Hh.
  - rewrite (handled_frame np_sqrt C s tk b Hh).
    destruct (vad_frame_spec np_sqrt C s (now tk) b) as (_ & _ & Hwait & _).
    destruct (Hwait Hv) as [He _]. congruence.
  - clear Hh. unfold vad_iteration. rewrite Hv. simpl.
    destruct (_check_manual_vad_stop (keyboard_device C) (kbd tk)) as [[|]|].
    + destruct (reset (transcriber s)) as [t' [u|]]; simpl; congruence.
    + destruct (PyNum.gt _ (initial_timeout C)); simpl; [discriminate|].
      destruct (pcm tk) as [[b|]|]; simpl; try discriminate.
      destruct (is_nil b); simpl; [discriminate|].
      destruct (negb _); simpl; [discriminate|].
      destruct (vad_frame_spec np_sqrt C s (now tk) b) as (_ & _ & Hwait & _).
      destruct (Hwait Hv) as [He _]. congruence.
    + simpl. destruct (interrupts (kbd tk)); discriminate.
Qed.

Lemma frames_of_cons_handled C (s : @Session T) tk rest pcm_bytes (P : list byte -> Prop) :
  handled C s tk = Some pcm_bytes ->
  Forall P (frames_of (tk :: rest)) ->
  P pcm_bytes /\ Forall P (frames_of rest).
Proof.
  intros Hh Hall. destruct (handled_offered C s tk pcm_bytes Hh) as (Hp & Hn & _).
  simpl in Hall. rewrite Hp, Hn in Hall. now inversion Hall.
Qed.

Lemma frames_of_cons (tk : Tick) rest (P : list byte -> Prop) :
  Forall P (frames_of (tk :: rest)) -> Forall P (frames_of rest).
Proof.
  simpl. destruct (pcm tk) as [[b|]|]; auto.
  destruct (is_nil b); auto. intros Hall. now inversion Hall.
Qed.

Lemma quiet_stream_waits C ticks :
  forall s : @Session T,
    1 <= frame_history_length C ->
    voice_started s = false ->
    Forall (fun e => e <= energy_threshold C)%Q (frame_history s) ->
    Forall (fun b => frame_energy np_sqrt b <= energy_threshold C)%Q (frames_of ticks) ->
    voice_started (next (vad_loop np_sqrt C s ticks)) = false
    /\ (forall why, exit (vad_loop np_sqrt C s ticks) = Some (Break why) ->
                    why = ManualStopWithoutSpeech).
Proof.
  induction ticks as [|tk rest IH]; intros s HK Hv Hhist Hframes; simpl.
  - split; [exact Hv|discriminate].
  - assert (Hstep : voice_started (next (vad_iteration np_sqrt C s tk)) = false
                    /\ Forall (fun e => e <= energy_threshold C)%Q
                         (frame_history (next (vad_iteration np_sqrt C s tk)))).
    { destruct (handled C s tk) as [b|] eqn:Hh.
      - destruct (frames_of_cons_handled C s tk rest b _ Hh Hframes) as [Hb _].
        rewrite (handled_frame np_sqrt C s tk b Hh).
        destruct (vad_frame_spec np_sqrt C s (now tk) b) as (_ & _ & Hwait & _).
        destruct (vad_frame_effects np_sqrt C s (now tk) b) as (_ & Hf & _).
        destruct (Hwait Hv) as [_ Hvs]. rewrite Hvs, Hf. split.
        + apply PyNumFacts.gt_false. apply avg_le_bound.
          * now apply push_history_nonempty.
          * now apply push_history_bound.
        + now apply push_history_bound.
      - destruct (unhandled_step np_sqrt C s tk Hh) as (_ & Hf & Hvs & _).
        rewrite Hf, Hvs. auto. }
    destruct Hstep as [Hvs Hhs].
    destruct (exit (vad_iteration np_sqrt C s tk)) eqn:Hexit.
    + split; [exact Hvs|]. intros why Hwhy. rewrite Hexit in Hwhy.
      apply (waiting_exit C s tk why Hv). congruence.
    + simpl. apply IH; auto. now apply (frames_of_cons tk rest).
Qed.

End Quiet.

(** X2. A stream in which no frame has an energy above
    [energy_threshold] never starts voice, however long it lasts: the
    smoothing cannot lift the average over the threshold. Such a capture
    can only end by the initial timeout, by a manual stop without speech
    or by an exception - never by silence, recognizer-final, the
    recording ceiling or a manual stop with speech. *)
Theorem quiet_stream_never_starts_voice :
  forall (np_sqrt : Q -> Q) (T : Type) (R : Recognizer T) (C : VadCtx)
         (t : T) (ticks : list Tick),
    1 <= frame_history_length C ->
    Forall (fun b => frame_energy np_sqrt b <= energy_threshold C)%Q (frames_of ticks) ->
    let r := vad_loop np_sqrt C (vad_start t) ticks in
    voice_started (next r) = false
    /\ (forall why, exit r = Some (Break why) -> why = ManualStopWithoutSpeech).
Proof.
  intros np_sqrt T R C t ticks HK Hframes r.
  apply quiet_stream_waits; auto; constructor.
Qed.

(** Murmurs of energy 1/4 under a threshold of 0.3, until the initial
    timeout. *)
Lemma quiet_stream_never_starts_voice_witness :
  let ticks := Drill.frames_from 101 (128 # 1000) (List.repeat (Sample.murmur 2048) 3)
               ++ [Sample.idle_at 109] in
  let r := vad_loop Sample.sqrt_exact Sample.pi_ctx (vad_start Sample.ok_go) ticks in
  voice_started (next r) = false /\ exit r = Some ReturnNone.
Proof.
  intros ticks r. split; [|vm_compute; reflexivity].
  apply (quiet_stream_never_starts_voice Sample.sqrt_exact _ _ Sample.pi_ctx).
  - vm_compute. discriminate.
  - repeat constructor; vm_compute; discriminate.
Defined.
Lemma loud_frame_on_empty_history (np_sqrt : Q -> Q) (T : Type) (R : Recognizer T)
    (C : VadCtx) (s : @Session T) (tk : Tick) (pcm_bytes : list byte) :
  1 <= frame_history_length C ->
  voice_started s = false ->
  frame_history s = [] ->
  handled C s tk = Some pcm_bytes ->
  (energy_threshold C < frame_energy np_sqrt pcm_bytes)%Q ->
  exit (vad_iteration np_sqrt C s tk) = None
  /\ voice_started (next (vad_iteration np_sqrt C s tk)) = true
  /\ speech_start_time (next (vad_iteration np_sqrt C s tk)) = now tk
  /\ silence_frames_count (next (vad_iteration np_sqrt C s tk)) = 0
  /\ frame_history (next (vad_iteration np_sqrt C s tk)) = [frame_energy np_sqrt pcm_bytes].
Proof.
  intros HK Hwait Hempty Hh Hloud.
  rewrite (handled_frame np_sqrt C s tk pcm_bytes Hh).
  assert (Hpush : push_history (frame_history_length C) [] (frame_energy np_sqrt pcm_bytes)
                  = [frame_energy np_sqrt pcm_bytes]).
  { unfold push_history. simpl.
    destruct (1 >? frame_history_length C) eqn:E; [|reflexivity].
    apply Z.gtb_lt in E. lia. }
  assert (Havg : PyNum.gt (avg_energy_of [frame_energy np_sqrt pcm_bytes])
                   (energy_threshold C) = true).
  { apply PyNumFacts.gt_true. unfold avg_energy_of, PyNum.sum. simpl.
    eapply Qlt_le_trans; [exact Hloud|].
    apply Qle_lteq. right. symmetry. field. }
  unfold vad_frame. rewrite Hempty, Hpush, Havg, Hwait.
  destruct (process_frame (transcriber s) pcm_bytes) as [t' ev].
  destruct (read_event ev) as [is_final_vosk current_partial]. simpl negb. cbv iota.
  match goal with
  | |- context [show_partial ?c ?p ?ac ?st] =>
      destruct (show_partial_spec np_sqrt c p ac st) as (He & Hv & Hs & Hc & Hf & _)
  end.
  split; [exact He|]. split; [exact Hv|]. split; [exact Hs|].
  split; [exact Hc|exact Hf].
Qed.

(** X3. The smoothing does not delay the start of voice: on the first
    frame that the loop handles, a frame energy above [energy_threshold]
    starts voice at once, with the start of speech at the time of that
    iteration and the silence count at zero, and the loop goes on. *)
Theorem first_loud_frame_starts_voice :
  forall (np_sqrt : Q -> Q) (T : Type) (R : Recognizer T) (C : VadCtx)
         (t : T) (tk : Tick) (pcm_bytes : list byte),
    1 <= frame_history_length C ->
    handled C (vad_start t) tk = Some pcm_bytes ->
    (energy_threshold C < frame_energy np_sqrt pcm_bytes)%Q ->
    let r := vad_iteration np_sqrt C (vad_start t) tk in
    exit r = None
    /\ voice_started (next r) = true
    /\ speech_start_time (next r) = now tk
    /\ silence_frames_count (next r) = 0
    /\ frame_history (next r) = [frame_energy np_sqrt pcm_bytes].
Proof.
  intros np_sqrt T R C t tk pcm_bytes HK Hh Hloud r.
  now apply loud_frame_on_empty_history.
Qed.

(** A loud first frame, one second into the capture. *)
Lemma first_loud_frame_starts_voice_witness :
  let r := vad_iteration Sample.sqrt_exact Sample.pi_ctx (vad_start Sample.ok_go)
             (Sample.frame_at 101 (Sample.tone 2048)) in
  voice_started (next r) = true /\ speech_start_time (next r) = 101%Q.
Proof.
  destruct (first_loud_frame_starts_voice Sample.sqrt_exact _ _ Sample.pi_ctx
              Sample.ok_go (Sample.frame_at 101 (Sample.tone 2048)) (Sample.tone 2048))
    as (_ & Hv & Hs & _).
  - vm_compute. discriminate.
  - vm_compute. reflexivity.
  - vm_compute. reflexivity.
  - split; [exact Hv|exact Hs].
Defined.

(** ** Silence that ends a capture *)

Section Silence.

Variable np_sqrt : Q -> Q.
Context {T : Type} `{Recognizer T}.

Lemma quiet_frame_spec C (i : @Iter T) :
  quiet_frame np_sqrt C i = true ->
  exists pcm_bytes,
    handled C (pre i) (tick i) = Some pcm_bytes
    /\ PyNum.gt (avg_energy_of
                   (push_history (frame_history_length C) (frame_history (pre i))
                      (frame_energy np_sqrt pcm_bytes)))
         (continued_threshold C) = false
    /\ PyNum.ge (now (tick i) - speech_start_time (pre i)) (min_speech_duration C) = true.
Proof.
  unfold quiet_frame.
  destruct (handled C (pre i) (tick i)) as [b|] eqn:Hh; [|discriminate].
  rewrite (handled_smoothed np_sqrt C (pre i) (tick i) b Hh).
  intros Hq. apply andb_true_iff in Hq as [Hlow Hlong].
  exists b. repeat split; auto. now apply negb_true_iff.
Qed.

(** A quiet frame counts as one more silent frame; with enough of them
    the loop is left by silence timeout. *)
Lemma quiet_frame_step C (s : @Session T) tk pcm_bytes :
  voice_started s = true ->
  handled C s tk = Some pcm_bytes ->
  PyNum.gt (avg_energy_of
              (push_history (frame_history_length C) (frame_history s)
                 (frame_energy np_sqrt pcm_bytes)))
    (continued_threshold C) = false ->
  PyNum.ge (now tk - speech_start_time s) (min_speech_duration C) = true ->
  let r := vad_iteration np_sqrt C s tk in
  (silence_frames_needed C <= silence_frames_count s + 1 ->
   exit r = Some (Break SilenceTimeout))
  /\ (exit r = None \/ exit r = Some (Break RecognizerFinal)
      \/ exit r = Some (Break SilenceTimeout))
  /\ voice_started (next r) = true
  /\ speech_start_time (next r) = speech_start_time s
  /\ silence_frames_count (next r) = silence_frames_count s + 1.
Proof.
  intros Hv Hh Hlow Hlong r. subst r.
  rewrite (handled_frame np_sqrt C s tk pcm_bytes Hh).
  destruct (vad_frame_spec np_sqrt C s (now tk) pcm_bytes) as (_ & _ & _ & Hact).
  destruct (Hact Hv) as (Hvs & Hst & Hcount & Hexits). rewrite Hlow in Hcount.
  split; [|repeat split; auto; tauto].
  intros Hneed. unfold vad_frame.
  destruct (process_frame (transcriber s) pcm_bytes) as [t' ev].
  destruct (read_event ev) as [is_final_vosk current_partial].
  rewrite Hv, Hlow, Hlong. simpl negb. cbv iota.
  assert (Hge : (silence_frames_count s + 1 >=? silence_frames_needed C) = true)
    by (apply Z.geb_le; lia).
  rewrite Hge. reflexivity.
Qed.

Lemma silence_ends C ticks :
  forall s : @Session T,
    voice_started s = true ->
    forallb (quiet_frame np_sqrt C) (vad_run np_sqrt C s ticks) = true ->
    (1 <= List.length ticks)%nat ->
    silence_frames_needed C - silence_frames_count s <= Z.of_nat (List.length ticks) ->
    exit (vad_loop np_sqrt C s ticks) = Some (Break SilenceTimeout)
    \/ exit (vad_loop np_sqrt C s ticks) = Some (Break RecognizerFinal).
Proof.
  induction ticks as [|tk rest IH]; intros s Hv Hquiet Hlen Hneed; simpl in *.
  - lia.
  - apply andb_true_iff in Hquiet as [Hq Hrest].
    destruct (quiet_frame_spec C _ Hq) as (b & Hh & Hlow & Hlong). simpl in Hh, Hlow, Hlong.
    destruct (quiet_frame_step C s tk b Hv Hh Hlow Hlong)
      as (Hend & Hexits & Hvs & Hst & Hcount).
    destruct (exit (vad_iteration np_sqrt C s tk)) as [e|] eqn:Hexit.
    + destruct Hexits as [He | [He | He]]; [discriminate|right|left]; congruence.
    + simpl.
      assert (Hmore : silence_frames_count s + 1 < silence_frames_needed C).
      { destruct (Z_lt_le_dec (silence_frames_count s + 1) (silence_frames_needed C))
          as [Hlt | Hle]; [exact Hlt|].
        specialize (Hend Hle). discriminate. }
      apply IH; auto; rewrite ?Hcount; lia.
Qed.

End Silence.

(** X4. Silence ends a capture: once voice is active and the speech has
    lasted [min_speech_duration], a run of handled frames whose smoothed
    energy does not exceed [continued_threshold] leaves the loop - by
    silence timeout, or earlier by a final segment of the recognizer -
    at the latest when the silence count reaches
    [silence_frames_needed]. *)
Theorem silence_ends_capture :
  forall (np_sqrt : Q -> Q) (T : Type) (R : Recognizer T) (C : VadCtx)
         (s : @Session T) (ticks : list Tick),
    voice_started s = true ->
    forallb (quiet_frame np_sqrt C) (vad_run np_sqrt C s ticks) = true ->
    (1 <= List.length ticks)%nat ->
    silence_frames_needed C - silence_frames_count s <= Z.of_nat (List.length ticks) ->
    exit (vad_loop np_sqrt C s ticks) = Some (Break SilenceTimeout)
    \/ exit (vad_loop np_sqrt C s ticks) = Some (Break RecognizerFinal).
Proof.
  intros np_sqrt T R C s ticks. apply silence_ends.
Qed.

(** Half a second of silence needed (3 frames): after a loud frame and
    two silent ones have brought the average down, three more silent
    frames end the capture by silence timeout. *)
Lemma silence_ends_capture_witness :
  let s := next (vad_loop Sample.sqrt_exact Drill.short_silence_ctx
                   (vad_start Sample.ok_go)
                   (Drill.frames_from 101 (128 # 1000)
                      [Sample.tone 2048; Sample.hush 2048; Sample.hush 2048])) in
  let ticks := Drill.frames_from (1016 # 10) (128 # 1000)
                 (List.repeat (Sample.hush 2048) 3) in
  voice_started s = true
  /\ exit (vad_loop Sample.sqrt_exact Drill.short_silence_ctx s ticks)
     = Some (Break SilenceTimeout).
Proof.
  intros s ticks. split; [vm_compute; reflexivity|].
  destruct (silence_ends_capture Sample.sqrt_exact _ _ Drill.short_silence_ctx s ticks)
    as [Hs | Hf].
  - vm_compute. reflexivity.
  - vm_compute. reflexivity.
  - vm_compute. lia.
  - vm_compute. discriminate.
  - exact Hs.
  - exfalso. revert Hf. vm_compute. discriminate.
Defined.

(** ** What the recognizer is given *)

Section Feeding.

Variable np_sqrt : Q -> Q.
Context {T : Type} `{Recognizer T}.

Lemma has_reset_app (a b : list Action) :
  has_reset (a ++ b) = has_reset a || has_reset b.
Proof. unfold has_reset. apply existsb_app. Qed.

Lemma frame_actions_no_reset (acts : list Action) :
  forallb frame_action acts = true -> has_reset acts = false.
Proof.
  induction acts as [|a acts IH]; simpl; [reflexivity|].
  intros Hall. apply andb_true_iff in Hall as [Ha Hrest].
  rewrite (IH Hrest). destruct a; simpl in *; congruence.
Qed.

(** One iteration: the frame it lets through is what the recognizer
    gets, and a reset happens only as the loop is left. *)
Lemma iteration_feed C (s : @Session T) tk :
  let r := vad_iteration np_sqrt C s tk in
  sent (actions r) = match handled C s tk with Some b => [b] | None => [] end
  /\ transcriber (next r)
     = (if has_reset (actions r) then fst (reset (feed (transcriber s) (sent (actions r))))
        else feed (transcriber s) (sent (actions r)))
  /\ (exit r = None -> has_reset (actions r) = false).
Proof.
  intros r. subst r.
  destruct (handled C s tk) as [b|] eqn:Hh.
  - rewrite (handled_frame np_sqrt C s tk b Hh).
    destruct (vad_frame_effects np_sqrt C s (now tk) b) as (Hs & _ & Ht).
    destruct (vad_frame_spec np_sqrt C s (now tk) b) as (_ & (more & Ha & Hm) & _).
    assert (Hnr : has_reset (actions (vad_frame np_sqrt C s (now tk) b)) = false).
    { rewrite Ha. unfold has_reset. simpl. now apply frame_actions_no_reset. }
    rewrite Hs, Hnr, Ht. auto.
  - destruct (unhandled_step np_sqrt C s tk Hh) as (Hs & _).
    rewrite Hs. split; [reflexivity|]. clear Hs.
    unfold handled in Hh. unfold vad_iteration, feed.
    destruct (_check_manual_vad_stop (keyboard_device C) (kbd tk)) as [[|]|].
    + destruct (voice_started s && _); [simpl; split; [reflexivity|discriminate]|].
      destruct (reset (transcriber s)) as [t' [u|]] eqn:Hr; simpl; rewrite Hr;
        (split; [reflexivity|discriminate]).
    + destruct (negb (voice_started s) && _); [simpl; auto|].
      destruct (voice_started s && _); [simpl; auto|].
      destruct (pcm tk) as [[b|]|]; [|simpl; auto|simpl; auto].
      destruct (is_nil b); [simpl; auto|]. simpl in Hh.
      destruct (Z.of_nat (List.length b) =? am_frame_length C * 2);
        [discriminate|simpl; auto].
    + simpl. auto.
Qed.

(** The loop as a whole. *)
Lemma vad_loop_feed C ticks :
  forall s : @Session T,
    let r := vad_loop np_sqrt C s ticks in
    Forall (fun b => Z.of_nat (List.length b) = am_frame_length C * 2 /\ b <> [])
      (sent (actions r))
    /\ transcriber (next r)
       = (if has_reset (actions r)
          then fst (reset (feed (transcriber s) (sent (actions r))))
          else feed (transcriber s) (sent (actions r))).
Proof.
  induction ticks as [|tk rest IH]; intros s; simpl.
  - split; [constructor|reflexivity].
  - destruct (iteration_feed C s tk) as (Hsent & Htr & Hgo).
    assert (Hsize : Forall (fun b => Z.of_nat (List.length b) = am_frame_length C * 2
                                     /\ b <> [])
                      (sent (actions (vad_iteration np_sqrt C s tk)))).
    { rewrite Hsent. destruct (handled C s tk) as [b|] eqn:Hh; [|constructor].
      destruct (handled_offered C s tk b Hh) as (_ & Hn & Hl & _).
      constructor; [|constructor]. split; [exact Hl|].
      intros ->. discriminate. }
    destruct (exit (vad_iteration np_sqrt C s tk)) eqn:Hexit.
    + split; [exact Hsize|exact Htr].
    + simpl. destruct (IH (next (vad_iteration np_sqrt C s tk))) as [Hall Hfed].
      rewrite sent_app, has_reset_app, (Hgo eq_refl). split.
      * apply Forall_app. auto.
      * rewrite Hfed, Htr, (Hgo eq_refl). simpl orb.
        unfold feed. now rewrite fold_left_app.
Qed.

End Feeding.

(** X6. In the timed capture the recognizer is given whole frames only:
    every frame sent to [process_frame] has exactly [frame_length * 2]
    bytes and is not empty. The recognizer's state when the loop stands
    or ends is the one reached by feeding it those frames in order,
    followed by one reset if the trace holds one. *)
Theorem timed_capture_feeds_whole_frames :
  forall (np_sqrt : Q -> Q) (T : Type) (R : Recognizer T) (C : VadCtx)
         (s : @Session T) (ticks : list Tick),
    let r := vad_loop np_sqrt C s ticks in
    Forall (fun b => Z.of_nat (List.length b) = am_frame_length C * 2 /\ b <> [])
      (sent (actions r))
    /\ transcriber (next r)
       = (if has_reset (actions r)
          then fst (reset (feed (transcriber s) (sent (actions r))))
          else feed (transcriber s) (sent (actions r))).
Proof.
  intros np_sqrt T R C s ticks. apply vad_loop_feed.
Qed.

(** ** What push-to-talk gives the recognizer *)

Section PttFeeding.

Context {T : Type} `{Recognizer T}.

Lemma ptt_iteration_feed kb start maxt (s : T * option Q) tk :
  let r := ptt_iteration kb start maxt s tk in
  if ptt_ends kb start maxt tk
  then fst (fst r) = [] /\ snd (fst r) = s /\ snd r <> None
  else snd r = None
       /\ sent (fst (fst r)) = frames_of [tk]
       /\ fst (snd (fst r)) = feed (fst s) (frames_of [tk]).
Proof.
  unfold ptt_ends, ptt_iteration, feed. simpl.
  destruct (_check_manual_vad_stop kb (kbd tk)) as [[|]|];
    [simpl; repeat split; discriminate| |simpl; repeat split; discriminate].
  destruct (PyNum.gt (now tk - start) maxt); simpl;
    [repeat split; discriminate|].
  destruct (pcm tk) as [[b|]|]; simpl; [|auto|repeat split; discriminate].
  destruct (is_nil b); simpl; [auto|].
  destruct (process_frame (fst s) b) as [t' [ev|]]; simpl; [|auto].
  destruct (negb (PyStr.is_empty (text ev)) && _ && _); simpl; auto.
Qed.

Lemma frames_of_app (a b : list Tick) : frames_of (a ++ b) = frames_of a ++ frames_of b.
Proof.
  induction a as [|tk a IH]; simpl; [reflexivity|].
  destruct (pcm tk) as [[f|]|]; auto. destruct (is_nil f); simpl; now rewrite IH.
Qed.

Lemma ptt_loop_feed kb start maxt ticks :
  forall s : T * option Q,
    sent (fst (fst (ptt_loop kb start maxt s ticks)))
    = frames_of (before_first (ptt_ends kb start maxt) ticks)
    /\ fst (snd (fst (ptt_loop kb start maxt s ticks)))
       = feed (fst s) (frames_of (before_first (ptt_ends kb start maxt) ticks)).
Proof.
  induction ticks as [|tk rest IH]; intros s; [simpl; auto|].
  pose proof (ptt_iteration_feed kb start maxt s tk) as Hit. cbv zeta in Hit.
  cbn [ptt_loop before_first].
  destruct (ptt_ends kb start maxt tk).
  - destruct (ptt_iteration kb start maxt s tk) as [[a s'] e]. cbn [fst snd] in Hit.
    destruct Hit as (-> & -> & He). destruct e; [simpl; auto|congruence].
  - destruct (ptt_iteration kb start maxt s tk) as [[a s'] e]. cbn [fst snd] in Hit.
    destruct Hit as (-> & Ha & Hs').
    destruct (IH s') as [Hsent Hfed].
    destruct (ptt_loop kb start maxt s' rest) as [[a' s''] e']. cbn [fst snd] in *.
    change (tk :: before_first (ptt_ends kb start maxt) rest)
      with ([tk] ++ before_first (ptt_ends kb start maxt) rest).
    rewrite frames_of_app, sent_app, Ha, Hsent, Hfed, Hs'.
    unfold feed. rewrite fold_left_app. auto.
Qed.

End PttFeeding.

(** X5. Push-to-talk gives the recognizer every non-empty frame that is
    read before the loop ends, each exactly once and in the order read,
    and nothing else: the frames sent are those of the ticks before the
    first one that stops the loop (manual stop, clock past the ceiling,
    or an exception), and the recognizer's state is the one reached by
    feeding it those frames. *)
Theorem push_to_talk_feeds_every_frame :
  forall (T : Type) (R : Recognizer T) (keyboard_device : bool)
         (start_time max_recording_time : Q) (s : T * option Q) (ticks : list Tick),
    let r := ptt_loop keyboard_device start_time max_recording_time s ticks in
    let read := frames_of (before_first
                             (ptt_ends keyboard_device start_time max_recording_time)
                             ticks) in
    sent (fst (fst r)) = read /\ fst (snd (fst r)) = feed (fst s) read.
Proof.
  intros T R kb start maxt s ticks. apply ptt_loop_feed.
Qed.

(** * Wake events *)

Module InputManagerFacts.

Import InputManager.

Lemma member_add code c keys :
  member c (add code keys) = (c =? code) || member c keys.
Proof.
  unfold add. destruct (member code keys) eqn:Hm.
  - destruct (Z.eqb_spec c code) as [->|]; [now rewrite Hm|reflexivity].
  - unfold member. simpl. reflexivity.
Qed.

Lemma member_discard code c keys :
  member c (discard code keys) = negb (c =? code) && member c keys.
Proof.
  unfold member, discard.
  induction keys as [|k keys IH]; simpl; [now rewrite andb_false_r|].
  destruct (Z.eqb_spec code k) as [->|Hne]; simpl.
  - rewrite IH. destruct (Z.eqb_spec c k); simpl; reflexivity.
  - rewrite IH. destruct (Z.eqb_spec c k) as [->|]; simpl.
    + destruct (Z.eqb_spec k code); [congruence|reflexivity].
    + reflexivity.
Qed.

(** A batch with no press of the left meta key is scanned to its end,
    and each key is then in the set exactly when its latest press or
    release was a press. *)
Lemma scan_without_stop evs :
  forall keys,
    existsb is_stop_event evs = false ->
    snd (scan_events keys evs) = None
    /\ forall c, member c (fst (scan_events keys evs)) = held c (member c keys) evs.
Proof.
  induction evs as [|e evs IH]; intros keys Hnone; simpl in *.
  - auto.
  - apply orb_false_iff in Hnone as [He Hrest]. unfold is_stop_event in He.
    unfold held. simpl fold_left. fold (held).
    destruct (ev_type e =? EV_KEY) eqn:Hty; simpl in He |- *.
    + replace ((ev_code e =? KEY_LEFTMETA) && (ev_value e =? 1)) with false
        by (symmetry; exact He).
      destruct (IH (if ev_value e =? 1 then add (ev_code e) keys
                    else if ev_value e =? 0 then discard (ev_code e) keys
                    else keys) Hrest) as [Hn Hm].
      split; [exact Hn|]. intros c. rewrite Hm. unfold held. f_equal.
      destruct (ev_value e =? 1) eqn:H1.
      * rewrite member_add, (Z.eqb_sym c). now destruct (ev_code e =? c).
      * destruct (ev_value e =? 0).
        -- rewrite member_discard, (Z.eqb_sym c). now destruct (ev_code e =? c).
        -- now destruct (ev_code e =? c).
    + destruct (IH keys Hrest) as [Hn Hm]. split; [exact Hn|]. intros c. apply Hm.
Qed.

Lemma scan_app_stop before e after :
  forall keys,
    existsb is_stop_event before = false ->
    is_stop_event e = true ->
    scan_events keys (before ++ e :: after)
    = (add KEY_LEFTMETA (fst (scan_events keys before)),
       Some (if member KEY_LEFTSHIFT (fst (scan_events keys before))
             then "keyboard_code" else "keyboard_laura")%string).
Proof.
  induction before as [|b before IH]; intros keys Hnone He.
  - simpl. unfold is_stop_event in He.
    apply andb_true_iff in He as [He Hv]. apply andb_true_iff in He as [Ht Hc].
    rewrite Ht, Hc, Hv. simpl. apply Z.eqb_eq in Hc. rewrite Hc.
    rewrite member_add. simpl. destruct (member KEY_LEFTSHIFT keys); reflexivity.
  - simpl in Hnone. apply orb_false_iff in Hnone as [Hb Hrest].
    unfold is_stop_event in Hb. simpl.
    destruct (ev_type b =? EV_KEY); simpl in Hb |- *.
    + replace ((ev_code b =? KEY_LEFTMETA) && (ev_value b =? 1)) with false
        by (symmetry; exact Hb).
      now apply IH.
    + now apply IH.
Qed.

End InputManagerFacts.

(** X7. The two keyboard readers agree on what a stop key is: a batch
    of key events makes [_listen_keyboard_sync] report a wake event
    exactly when it makes [_check_manual_vad_stop] report a manual stop
    - when it holds a press of the left meta key. So the key that
    starts a push-to-talk capture is the key that ends it. *)
Theorem wake_key_is_stop_key :
  forall (keys_pressed : list Z) (evs : list InputEvent),
    (exists event,
        snd (InputManager._listen_keyboard_sync true keys_pressed (InputManager.Events evs))
        = Val (Some event))
    <-> _check_manual_vad_stop true (KbdEvents evs) = Val true.
Proof.
  intros keys evs. unfold InputManager._listen_keyboard_sync, _check_manual_vad_stop.
  simpl. destruct (existsb is_stop_event evs) eqn:Hstop.
  - split; [intros _; reflexivity|]. intros _.
    assert (Hsplit : exists before e after,
               evs = before ++ e :: after
               /\ existsb is_stop_event before = false
               /\ is_stop_event e = true).
    { clear keys. induction evs as [|x evs IH]; simpl in Hstop; [discriminate|].
      destruct (is_stop_event x) eqn:Hx.
      - exists [], x, evs. auto.
      - simpl in Hstop. destruct (IH Hstop) as (b & e & a & -> & Hb & He).
        exists (x :: b), e, a. simpl. rewrite Hx. auto. }
    destruct Hsplit as (before & e & after & -> & Hb & He).
    rewrite (InputManagerFacts.scan_app_stop before e after keys Hb He).
    simpl. eauto.
  - destruct (InputManagerFacts.scan_without_stop evs keys Hstop) as [Hn _].
    destruct (InputManager.scan_events keys evs) as [k ev]. simpl in *. subst ev.
    split; [intros [event Hev]; discriminate|discriminate].
Qed.

(** X8. How a press of the left meta key is routed: the event is
    "keyboard_code" when left shift is held at that moment - its latest
    press or release, in this batch or before it, was a press - and
    "keyboard_laura" otherwise. The scan stops at that press: the events
    that follow it in the batch are never looked at, so a release that
    arrives in the same batch does not reach the key set. *)
Theorem meta_press_routing :
  forall (keys_pressed : list Z) (before after : list InputEvent) (e : InputEvent),
    existsb is_stop_event before = false ->
    is_stop_event e = true ->
    let shift := InputManager.held InputManager.KEY_LEFTSHIFT
                   (InputManager.member InputManager.KEY_LEFTSHIFT keys_pressed) before in
    let r := InputManager.scan_events keys_pressed (before ++ e :: after) in
    snd r = Some (if shift then "keyboard_code" else "keyboard_laura")%string
    /\ r = InputManager.scan_events keys_pressed (before ++ [e])
    /\ forall c, InputManager.member c (fst r)
                 = (c =? KEY_LEFTMETA)
                   || InputManager.held c (InputManager.member c keys_pressed) before.
Proof.
  intros keys before after e Hb He shift r. subst r shift.
  rewrite !(InputManagerFacts.scan_app_stop before e _ keys Hb He).
  destruct (InputManagerFacts.scan_without_stop before keys Hb) as [_ Hm].
  simpl. rewrite Hm. split; [reflexivity|]. split; [reflexivity|].
  intros c. now rewrite InputManagerFacts.member_add, Hm.
Qed.

(** Shift goes down, meta goes down, shift goes up, all in one batch:
    the event is routed to the code assistant and the key set still
    holds shift afterwards. *)
Lemma meta_press_routing_witness :
  let key (code value : Z) := {| ev_type := EV_KEY; ev_code := code; ev_value := value |} in
  let r := InputManager.scan_events []
             [key InputManager.KEY_LEFTSHIFT 1; key KEY_LEFTMETA 1;
              key InputManager.KEY_LEFTSHIFT 0] in
  snd r = Some "keyboard_code"%string
  /\ InputManager.member InputManager.KEY_LEFTSHIFT (fst r) = true.
Proof.
  intros key r.
  destruct (meta_press_routing [] [key InputManager.KEY_LEFTSHIFT 1]
              [key InputManager.KEY_LEFTSHIFT 0] (key KEY_LEFTMETA 1))
    as (Hr & _ & Hm).
  - reflexivity.
  - reflexivity.
  - split; [exact Hr|]. rewrite Hm. reflexivity.
Defined.

(** * Wake events in the main loop *)

Module PyTextFacts.

Import PyText.
Local Open Scope string_scope.

Lemma prefix_app (p s : string) : String.prefix p (p ++ s) = true.
Proof.
  induction p as [|c p IH]; simpl; [now destruct s|].
  destruct (ascii_dec c c); [exact IH|congruence].
Qed.

Lemma contains_prefix (p s : string) : contains p (p ++ s) = true.
Proof.
  pose proof (prefix_app p s) as Hp.
  destruct (p ++ s); cbn [contains]; rewrite Hp; reflexivity.
Qed.

Lemma has_char_app c (a b : string) :
  has_char c (a ++ b) = has_char c a || has_char c b.
Proof.
  induction a as [|x a IH]; simpl; [reflexivity|]. now rewrite IH, orb_assoc.
Qed.

(** The first piece of a split is the text before the first separator. *)
Lemma split_on_head sep s :
  exists pieces, split_on sep s = before_char sep s :: pieces.
Proof.
  induction s as [|c s [pieces IH]]; simpl; [eauto|].
  destruct (Ascii.eqb c sep); [eauto|]. rewrite IH. eauto.
Qed.

Lemma split_on_app sep (a b : string) :
  has_char sep a = false ->
  split_on sep (a ++ String sep b) = a :: split_on sep b.
Proof.
  induction a as [|c a IH]; simpl.
  - intros _. now rewrite Ascii.eqb_refl.
  - intros Hno. apply orb_false_iff in Hno as [Hc Ha].
    rewrite Hc, (IH Ha). reflexivity.
Qed.

Lemma before_char_app sep (a b : string) :
  before_char sep (a ++ b)
  = if has_char sep a then before_char sep a else a ++ before_char sep b.
Proof.
  induction a as [|c a IH]; simpl; [reflexivity|].
  destruct (Ascii.eqb c sep); simpl; [reflexivity|].
  rewrite IH. now destruct (has_char sep a).
Qed.

Lemma before_char_none sep s : has_char sep s = false -> before_char sep s = s.
Proof.
  induction s as [|c s IH]; simpl; [reflexivity|].
  intros Hno. apply orb_false_iff in Hno as [Hc Hs]. now rewrite Hc, IH.
Qed.

Lemma rstrip_char_snoc c s :
  rstrip_char c (s ++ String c EmptyString) = rstrip_char c s.
Proof.
  induction s as [|x s IH]; simpl.
  - now rewrite Ascii.eqb_refl.
  - now rewrite IH.
Qed.

Lemma rstrip_char_keeps c s : ends_with c s = false -> rstrip_char c s = s.
Proof.
  induction s as [|x s IH]; [reflexivity|].
  intros Hend. cbn [rstrip_char].
  destruct s as [|y s'].
  - simpl in *. now rewrite Hend.
  - rewrite IH by exact Hend. cbn [PyStr.is_empty]. now rewrite andb_false_r.
Qed.

End PyTextFacts.

Lemma model_name_of_wake_source (m : string) :
  Client.model_name_of (Client.wake_source m)
  = Val (PyText.rstrip_char ")" (PyText.before_char "(" m)).
Proof.
  unfold Client.model_name_of, Client.wake_source.
  change ("wakeword (" ++ m ++ ")")%string
    with ("wakeword " ++ String "(" (m ++ ")"))%string.
  rewrite PyTextFacts.split_on_app by reflexivity.
  destruct (PyTextFacts.split_on_head "(" (m ++ ")")) as [pieces ->].
  unfold PyText.item. simpl nth_error. cbv iota. f_equal.
  rewrite PyTextFacts.before_char_app.
  destruct (PyText.has_char "(" m) eqn:Hm; [reflexivity|].
  simpl PyText.before_char.
  rewrite PyTextFacts.rstrip_char_snoc, (PyTextFacts.before_char_none _ _ Hm).
  reflexivity.
Qed.

(** X9. The wake event built for a wake-word model gives the model name
    back when the main loop takes it apart again, provided the name
    holds no opening parenthesis and does not end with a closing one; in
    general what comes back is the name cut at its first "(" and rid of
    its trailing ")". *)
Theorem wake_source_round_trip :
  forall m : string,
    PyText.has_char "(" m = false ->
    PyText.ends_with ")" m = false ->
    Client.model_name_of (Client.wake_source m) = Val m.
Proof.
  intros m Hopen Hclose. rewrite model_name_of_wake_source.
  rewrite (PyTextFacts.before_char_none _ _ Hopen).
  now rewrite (PyTextFacts.rstrip_char_keeps _ _ Hclose).
Qed.

Lemma wake_source_round_trip_witness :
  Client.model_name_of (Client.wake_source "claudecode.pmdl") = Val "claudecode.pmdl"%string.
Proof.
  apply wake_source_round_trip; reflexivity.
Defined.

(** X10. A wake event never asks for both the code assistant and the
    note transfer, whatever the string; a keyboard event asks for
    neither; and the event of a wake-word model asks for the code
    assistant exactly when the name that the main loop reads off it is
    "claudecode.pmdl" (for the note transfer, "sendnote.pmdl"). *)
Theorem wake_routes_are_exclusive :
  (forall src : string,
      Client._should_route_to_claude_code src && Client._should_send_note_to_mac src = false)
  /\ (forall src : string,
         PyText.contains "wakeword" src = false ->
         Client._should_route_to_claude_code src = false
         /\ Client._should_send_note_to_mac src = false)
  /\ (forall m : string,
         Client._should_route_to_claude_code (Client.wake_source m)
         = String.eqb (PyText.rstrip_char ")" (PyText.before_char "(" m)) "claudecode.pmdl"
         /\ Client._should_send_note_to_mac (Client.wake_source m)
            = String.eqb (PyText.rstrip_char ")" (PyText.before_char "(" m)) "sendnote.pmdl").
Proof.
  split; [|split].
  - intros src.
    unfold Client._should_route_to_claude_code, Client._should_send_note_to_mac,
      Client.names_model_in. cbv zeta.
    destruct (PyStr.is_empty src || negb (PyText.contains "wakeword" src));
      [reflexivity|].
    destruct (PyText.has_char "(" src && PyText.has_char ")" src); [|reflexivity].
    destruct (Client.model_name_of src) as [name|]; [|reflexivity].
    simpl. rewrite !orb_false_r.
    destruct (String.eqb_spec name "claudecode.pmdl") as [->|]; reflexivity.
  - intros src Hno.
    unfold Client._should_route_to_claude_code, Client._should_send_note_to_mac,
      Client.names_model_in. cbv zeta.
    rewrite Hno. simpl negb. rewrite orb_true_r. auto.
  - intros m.
    assert (Hshape : forall words,
               Client.names_model_in words (Client.wake_source m)
               = existsb (String.eqb (PyText.rstrip_char ")" (PyText.before_char "(" m)))
                   words).
    { intros words. unfold Client.names_model_in.
      rewrite model_name_of_wake_source.
      unfold Client.wake_source.
      assert (Hword : PyText.contains "wakeword" ("wakeword (" ++ m ++ ")")%string = true)
        by exact (PyTextFacts.contains_prefix "wakeword" (" (" ++ m ++ ")")%string).
      assert (Hopen : PyText.has_char "(" ("wakeword (" ++ m ++ ")")%string = true)
        by reflexivity.
      assert (Hclose : PyText.has_char ")" ("wakeword (" ++ m ++ ")")%string = true).
      { rewrite PyTextFacts.has_char_app, PyTextFacts.has_char_app. simpl.
        now rewrite orb_true_r. }
      rewrite Hword, Hopen, Hclose. reflexivity. }
    unfold Client._should_route_to_claude_code, Client._should_send_note_to_mac.
    cbv zeta. rewrite !Hshape. simpl. now rewrite !orb_false_r.
Qed.
Lemma scan_events_names (evs : list InputEvent) :
  forall keys src,
    snd (InputManager.scan_events keys evs) = Some src ->
    src = "keyboard_code"%string \/ src = "keyboard_laura"%string.
Proof.
  induction evs as [|e evs IH]; intros keys src; simpl; [discriminate|].
  destruct (ev_type e =? EV_KEY); [|apply IH].
  destruct ((ev_code e =? KEY_LEFTMETA) && (ev_value e =? 1)); [|apply IH].
  destruct (InputManager.member _ _); simpl; intros [= <-]; auto.
Qed.

(** X11. What follows a wake event. When the keyboard reports a wake
    event, that event is the one returned - the wake-word detector is
    not consulted - and the main loop captures in push-to-talk mode.
    When the keyboard reports nothing and the detector names a model,
    the event is built from the model name, and the main loop reads
    the name off it again: if what it reads is "tookmycrazypills.pmdl"
    there is no capture at all, otherwise the timed capture runs as a
    first turn (initial timeout of 8 s). *)
Theorem capture_mode_follows_wake_source :
  forall (np_sqrt : Q -> Q) (T : Type) (R : Recognizer T) (E : Setup) (t : T)
         (ticks : list Tick) (keyboard_device : bool) (keys_pressed keys : list Z)
         (k : InputManager.KeyboardRead) (wakeword_model : option string) (src : string),
    InputManager.check_for_wake_events keyboard_device keys_pressed k wakeword_model
    = (keys, Val (Some src)) ->
    (InputManager._listen_keyboard_sync keyboard_device keys_pressed k
     = (keys, Val (Some src))
     /\ Client.capture_after_wake np_sqrt E t src ticks
        = Val (Some (capture_speech_push_to_talk E t ticks)))
    \/ (InputManager._listen_keyboard_sync keyboard_device keys_pressed k = (keys, Val None)
        /\ exists m,
            wakeword_model = Some m /\ src = Client.wake_source m
            /\ Client.capture_after_wake np_sqrt E t src ticks
               = if String.eqb (PyText.rstrip_char ")" (PyText.before_char "(" m))
                               "tookmycrazypills.pmdl"
                 then Val None
                 else Val (Some (capture_speech_with_unified_vad np_sqrt E t false ticks))).
Proof.
  intros np_sqrt T R E t ticks kb keys0 keys k wm src.
  unfold InputManager.check_for_wake_events.
  assert (Hnames : forall ks ev,
             InputManager._listen_keyboard_sync kb keys0 k = (ks, Val (Some ev)) ->
             ev = "keyboard_code"%string \/ ev = "keyboard_laura"%string).
  { intros ks ev. unfold InputManager._listen_keyboard_sync.
    destruct (negb kb); [discriminate|].
    destruct k as [|evs| |]; try discriminate.
    destruct (InputManager.scan_events keys0 evs) as [ks' ev'] eqn:Hscan.
    intros [= <- ->]. apply (scan_events_names evs keys0 ev).
    now rewrite Hscan. }
  destruct (InputManager._listen_keyboard_sync kb keys0 k) as [ks [[ev|]|]] eqn:Hkbd.
  - destruct (Hnames ks ev eq_refl) as [-> | ->]; simpl;
      intros [= <- <-]; left; split; reflexivity.
  - destruct wm as [m|]; [|discriminate].
    destruct (PyStr.is_empty m); [discriminate|].
    intros Heq.
    assert (Hsrc : src = Client.wake_source m)
      by (unfold Client.wake_source; congruence).
    assert (Hks : ks = keys) by congruence.
    subst src ks. right. split; [reflexivity|]. exists m.
    split; [reflexivity|]. split; [reflexivity|].
    unfold Client.capture_after_wake.
    rewrite model_name_of_wake_source.
    assert (Hword : PyText.contains "wakeword" (Client.wake_source m) = true)
      by exact (PyTextFacts.contains_prefix "wakeword" (" (" ++ m ++ ")")%string).
    rewrite Hword. reflexivity.
  - discriminate.
Qed.

(** A press of the left meta key while the detector also hears a wake
    word: the keyboard wins and the capture is push-to-talk. *)
Lemma capture_mode_follows_wake_source_witness :
  let press := {| ev_type := EV_KEY; ev_code := KEY_LEFTMETA; ev_value := 1 |} in
  Client.capture_after_wake Sample.sqrt_exact Sample.pi_setup Sample.ok_go
    "keyboard_laura" [Sample.stop_at 101]
  = Val (Some (capture_speech_push_to_talk Sample.pi_setup Sample.ok_go
                 [Sample.stop_at 101])).
Proof.
  intros press.
  destruct (capture_mode_follows_wake_source Sample.sqrt_exact _ _ Sample.pi_setup
              Sample.ok_go [Sample.stop_at 101] true [] [KEY_LEFTMETA]
              (InputManager.Events [press]) (Some "Laura.pmdl"%string)
              "keyboard_laura"%string eq_refl)
    as [[_ Hptt] | [Hnone _]].
  - exact Hptt.
  - discriminate Hnone.
Defined.

(** ** The transcriber ([src/audio/vosk_transcriber.py]) *)

Module PyStrWords.
Import PyStr.

Lemma split_lstrip s : split (lstrip s) = split s.
Proof.
  unfold split. induction s as [|c r IH]; simpl; [reflexivity|].
  destruct (isspace c) eqn:E; [exact IH|]. simpl. now rewrite E.
Qed.

Lemma split_from_rstrip s : forall cur, split_from cur (rstrip s) = split_from cur s.
Proof.
  induction s as [|c r IH]; intros cur; simpl; [reflexivity|].
  destruct (isspace c) eqn:E; simpl.
  - destruct (is_empty (rstrip r)) eqn:Er; simpl.
    + apply PyStrFacts.is_empty_true in Er.
      rewrite <- (IH EmptyString), Er. simpl. now destruct (is_empty cur).
    + rewrite E, IH. reflexivity.
  - rewrite E. apply IH.
Qed.

Lemma split_strip s : split (strip s) = split s.
Proof. unfold strip, split. rewrite split_from_rstrip. apply split_lstrip. Qed.

Lemma split_blank s : is_empty (strip s) = true -> split s = [].
Proof.
  intros H. apply PyStrFacts.is_empty_true in H.
  rewrite <- split_strip, H. reflexivity.
Qed.

(** Words on either side of a white-space character do not mix. *)
Lemma split_from_app (a b : string) (sp : ascii) :
  isspace sp = true ->
  forall cur, split_from cur (a ++ String sp b)
              = (split_from cur a ++ split_from EmptyString b)%list.
Proof.
  intros Hsp. induction a as [|c r IH]; intros cur; simpl.
  - rewrite Hsp. now destruct (is_empty cur).
  - destruct (isspace c).
    + destruct (is_empty cur); simpl; now rewrite IH.
    + apply IH.
Qed.

Lemma split_spaced (a b : string) :
  split (a ++ " " ++ b) = (split a ++ split b)%list.
Proof. unfold split. apply split_from_app. reflexivity. Qed.

End PyStrWords.

Module VoskFacts.
Import Vosk.

Local Open Scope string_scope.

Lemma split_join (complete_text chunk : string) :
  PyStr.split (join complete_text chunk)
  = (PyStr.split complete_text ++ PyStr.split chunk)%list.
Proof.
  unfold join. destruct (PyStr.is_empty complete_text) eqn:E.
  - apply PyStrFacts.is_empty_true in E. now subst.
  - rewrite PyStrWords.split_strip. apply PyStrWords.split_spaced.
Qed.

Lemma join_trimmed (complete_text chunk : string) :
  PyStr.strip chunk = chunk ->
  PyStr.strip (join complete_text chunk) = join complete_text chunk.
Proof.
  intros H. unfold join. destruct (PyStr.is_empty complete_text); [exact H|].
  apply PyStrFacts.strip_idem.
Qed.

Lemma process_frame_trimmed (v : VoskTranscriber) (frame : list byte) :
  PyStr.strip (complete_text v) = complete_text v ->
  PyStr.strip (complete_text (fst (vosk_process_frame v frame)))
  = complete_text (fst (vosk_process_frame v frame)).
Proof.
  intros H. unfold vosk_process_frame.
  destruct (endpoint (kaldi v) _); [|exact H].
  destruct (negb _); [|exact H]. simpl.
  apply join_trimmed, PyStrFacts.strip_idem.
Qed.

Lemma feed_trimmed (frames : list (list byte)) :
  forall v : VoskTranscriber,
    PyStr.strip (complete_text v) = complete_text v ->
    PyStr.strip (complete_text (feed v frames)) = complete_text (feed v frames).
Proof.
  induction frames as [|f frames IH]; intros v H; [exact H|].
  apply IH. apply process_frame_trimmed, H.
Qed.

End VoskFacts.

(** X12. The transcriber builds its transcript word by word. A frame
    that ends a segment appends the words decoded for that segment to
    the words of [complete_text], in order; any other frame leaves
    [complete_text] alone. Either way the text handed back with the
    frame has the words of [complete_text] followed by the words of the
    segment being decoded, and the final text has the words of
    [complete_text] followed by those of the audio still buffered. *)
Theorem transcript_grows_by_words :
  forall (v : Vosk.VoskTranscriber) (frame : list byte),
    let audio := (Vosk.heard v ++ [frame])%list in
    let decoded := PyStr.split (Vosk.decode (Vosk.kaldi v) audio) in
    PyStr.split (Vosk.complete_text (fst (Vosk.vosk_process_frame v frame)))
    = (PyStr.split (Vosk.complete_text v)
       ++ (if Vosk.endpoint (Vosk.kaldi v) audio then decoded else []))%list
    /\ (exists ev, snd (Vosk.vosk_process_frame v frame) = Val ev
                   /\ is_final ev = Vosk.endpoint (Vosk.kaldi v) audio
                   /\ PyStr.split (text ev)
                      = (PyStr.split (Vosk.complete_text v) ++ decoded)%list)
    /\ (exists final, snd (Vosk.vosk_get_final_text v) = Val final
                      /\ PyStr.split final
                         = (PyStr.split (Vosk.complete_text v)
                            ++ (if is_nil (Vosk.heard v) then []
                                else PyStr.split (Vosk.decode (Vosk.kaldi v)
                                                    (Vosk.heard v))))%list).
Proof.
  intros v frame audio decoded. unfold Vosk.vosk_process_frame.
  fold audio. split; [|split].
  - destruct (Vosk.endpoint (Vosk.kaldi v) audio); simpl.
    + destruct (PyStr.is_empty (PyStr.strip (Vosk.decode (Vosk.kaldi v) audio)))
        eqn:E; simpl.
      * unfold decoded. rewrite (PyStrWords.split_blank _ E).
        now rewrite app_nil_r.
      * rewrite VoskFacts.split_join, PyStrWords.split_strip. reflexivity.
    + now rewrite app_nil_r.
  - destruct (Vosk.endpoint (Vosk.kaldi v) audio); simpl.
    + destruct (PyStr.is_empty (PyStr.strip (Vosk.decode (Vosk.kaldi v) audio)))
        eqn:E; simpl; eexists; (split; [reflexivity|]); (split; [reflexivity|]);
        simpl.
      * unfold decoded. rewrite (PyStrWords.split_blank _ E).
        now rewrite app_nil_r.
      * rewrite VoskFacts.split_join, PyStrWords.split_strip. reflexivity.
    + eexists. split; [reflexivity|]. split; [reflexivity|]. simpl.
      rewrite VoskFacts.split_join, PyStrWords.split_strip. reflexivity.
  - unfold Vosk.vosk_get_final_text. eexists. split; [reflexivity|].
    rewrite PyStrWords.split_strip.
    destruct (is_nil (Vosk.heard v)); simpl.
    + now rewrite app_nil_r.
    + destruct (PyStr.is_empty (PyStr.strip (Vosk.decode (Vosk.kaldi v) (Vosk.heard v))))
        eqn:E; simpl.
      * rewrite (PyStrWords.split_blank _ E). now rewrite app_nil_r.
      * rewrite VoskFacts.split_join, PyStrWords.split_strip. reflexivity.
Qed.

(** X13. The transcript of the transcriber carries no white space at
    either end: from a reset, whatever frames are processed,
    [complete_text] is its own [strip()], so the [strip()] that ends
    [get_final_text] returns the stored [complete_text] unchanged. *)
Theorem transcript_stays_trimmed :
  forall (v : Vosk.VoskTranscriber) (frames : list (list byte)),
    let fed := feed (fst (Vosk.vosk_reset v)) frames in
    PyStr.strip (Vosk.complete_text fed) = Vosk.complete_text fed
    /\ snd (Vosk.vosk_get_final_text fed)
       = Val (Vosk.complete_text (fst (Vosk.vosk_get_final_text fed))).
Proof.
  intros v frames fed.
  assert (Hfed : PyStr.strip (Vosk.complete_text fed) = Vosk.complete_text fed)
    by (apply VoskFacts.feed_trimmed; reflexivity).
  split; [exact Hfed|].
  unfold Vosk.vosk_get_final_text. cbn [fst snd Vosk.complete_text]. f_equal.
  destruct (negb _); [|exact Hfed].
  apply VoskFacts.join_trimmed, PyStrFacts.strip_idem.
Qed.


(** ** The recognition server's client *)

Module ClientFacts.
Import VoskWebSocketClient.

Local Open Scope string_scope.

Lemma split_nil : PyStr.split "" = [].
Proof. reflexivity. Qed.

Lemma split_of_empty s : PyStr.is_empty s = true -> PyStr.split s = [].
Proof. intros H. apply PyStrFacts.is_empty_true in H. now subst. Qed.

Lemma split_current_text (c : State) :
  PyStr.split (_get_current_text c)
  = (PyStr.split (complete_text c) ++ PyStr.split (partial_text c))%list.
Proof.
  unfold _get_current_text.
  destruct (PyStr.is_empty (complete_text c)) eqn:Ec;
    destruct (PyStr.is_empty (partial_text c)) eqn:Ep; simpl.
  - now rewrite (split_of_empty _ Ec), (split_of_empty _ Ep).
  - now rewrite (split_of_empty _ Ec).
  - now rewrite (split_of_empty _ Ep), app_nil_r.
  - apply PyStrWords.split_spaced.
Qed.

Lemma split_add_chunk (c : State) (text : string) :
  PyStr.split (complete_text (add_chunk c text))
  = (PyStr.split (complete_text c) ++ PyStr.split text)%list.
Proof.
  unfold add_chunk. simpl.
  destruct (PyStr.is_empty (complete_text c)) eqn:Ec; simpl.
  - now rewrite (split_of_empty _ Ec).
  - apply PyStrWords.split_spaced.
Qed.

Lemma split_stripped_blank (r : Response) :
  PyStr.is_empty (stripped_text r) = true -> PyStr.split (stripped_text r) = [].
Proof. apply split_of_empty. Qed.

(** Without a final result among the messages, the loop reads them all
    and the transcript gains the words of the final chunks. *)
Lemma drain_words (polls : list (option Response)) :
  forall c : State,
    existsb is_final_result polls = false ->
    PyStr.split (complete_text (drain c polls))
    = (PyStr.split (complete_text c)
       ++ List.concat (map PyStr.split (chunks polls)))%list.
Proof.
  induction polls as [|[r|] polls IH]; intros c H; simpl in *.
  - now rewrite app_nil_r.
  - apply orb_false_iff in H. destruct H as [Hr H]. rewrite Hr.
    destruct (type_is r "partial") eqn:Hp.
    + assert (Hf : type_is r "final" = false).
      { unfold type_is in *. destruct (msg_type r) as [t|]; [|reflexivity].
        apply String.eqb_eq in Hp. subst. reflexivity. }
      rewrite Hf. simpl. rewrite IH by exact H.
      now destruct (negb (PyStr.is_empty (stripped_text r))).
    + destruct (type_is r "final") eqn:Hf; simpl.
      * rewrite IH by exact H.
        destruct (PyStr.is_empty (stripped_text r)) eqn:E; cbn [negb].
        -- now rewrite (split_of_empty _ E).
        -- now rewrite split_add_chunk, <- app_assoc.
      * apply IH, H.
  - apply IH, H.
Qed.

Lemma drain_connected (polls : list (option Response)) :
  forall c : State, connected (drain c polls) = connected c.
Proof.
  induction polls as [|[r|] polls IH]; intros c; simpl; [reflexivity| |apply IH].
  destruct (type_is r "final_result").
  - now destruct (negb (PyStr.is_empty (stripped_text r))).
  - destruct (type_is r "partial").
    + rewrite IH. now destruct (negb (PyStr.is_empty (stripped_text r))).
    + destruct (type_is r "final"); [|apply IH].
      rewrite IH. now destruct (negb (PyStr.is_empty (stripped_text r))).
Qed.

(** Up to the first final result, the messages read do not matter once
    that result carries text. *)
Lemma drain_final_result (before after : list (option Response)) (r : Response) :
  type_is r "final_result" = true ->
  PyStr.is_empty (stripped_text r) = false ->
  existsb is_final_result before = false ->
  forall c : State,
    complete_text (drain c (before ++ Some r :: after)) = stripped_text r.
Proof.
  intros Hr Ht. induction before as [|[q|] before IH]; intros H c; simpl in *.
  - now rewrite Hr, Ht.
  - apply orb_false_iff in H. destruct H as [Hq H]. rewrite Hq.
    destruct (type_is q "partial"); [now apply IH|].
    destruct (type_is q "final"); now apply IH.
  - now apply IH.
Qed.

Lemma drain_blank_result (before after : list (option Response)) (r : Response) :
  type_is r "final_result" = true ->
  PyStr.is_empty (stripped_text r) = true ->
  existsb is_final_result before = false ->
  forall c : State,
    drain c (before ++ Some r :: after) = drain c before.
Proof.
  intros Hr Ht. induction before as [|[q|] before IH]; intros H c; simpl in *.
  - now rewrite Hr, Ht.
  - apply orb_false_iff in H. destruct H as [Hq H]. rewrite Hq.
    destruct (type_is q "partial"); [now apply IH|].
    destruct (type_is q "final"); now apply IH.
  - now apply IH.
Qed.

Lemma drain_silent (polls : list (option Response)) :
  forallb (fun p => match p with None => true | Some _ => false end) polls = true ->
  forall c : State, drain c polls = c.
Proof.
  induction polls as [|[r|] polls IH]; intros H c; simpl in *;
    [reflexivity|discriminate|now apply IH].
Qed.

End ClientFacts.

(** X14. The client of the recognition server keeps its transcript by
    words as well. A ['final'] message appends the words of its text
    to those of [complete_text]; every other message leaves
    [complete_text] as it is. The text handed back has the words of
    the transcript followed, unless the message was a final chunk, by
    the words of the current partial text. *)
Theorem client_transcript_grows_by_words :
  forall (c : VoskWebSocketClient.State) (response : VoskWebSocketClient.Response),
    let after := fst (VoskWebSocketClient._process_response c response) in
    let ev := snd (VoskWebSocketClient._process_response c response) in
    let final := VoskWebSocketClient.type_is response "final"%string in
    PyStr.split (VoskWebSocketClient.complete_text after)
    = (PyStr.split (VoskWebSocketClient.complete_text c)
       ++ (if final then PyStr.split (VoskWebSocketClient.stripped_text response)
           else []))%list
    /\ is_final ev = final
    /\ PyStr.split (text ev)
       = (PyStr.split (VoskWebSocketClient.complete_text after)
          ++ (if final then []
              else PyStr.split (VoskWebSocketClient.partial_text after)))%list.
Proof.
  intros c response. unfold VoskWebSocketClient._process_response.
  destruct (VoskWebSocketClient.type_is response "final"%string); cbv zeta.
  - destruct (PyStr.is_empty (VoskWebSocketClient.stripped_text response)) eqn:E;
      cbn [negb fst snd is_final text].
    + rewrite (ClientFacts.split_of_empty _ E), !app_nil_r. auto.
    + rewrite ClientFacts.split_add_chunk, app_nil_r. auto.
  - destruct (VoskWebSocketClient.type_is response "partial"%string);
      cbn [fst snd is_final text]; rewrite ClientFacts.split_current_text;
      cbn [VoskWebSocketClient.set_partial_text VoskWebSocketClient.complete_text
           VoskWebSocketClient.partial_text]; rewrite app_nil_r; auto.
Qed.

(** X15. The first final result ends the reading. When the client is
    connected and its ['final'] command went out, the first
    ['final_result'] message stops [get_final_text] from reading any
    further: what is queued behind it never matters. If its text is not
    blank, that text, stripped, is what [get_final_text] returns -
    whatever the client had accumulated and whatever final chunks and
    partial texts were read before it. If its text is blank, the
    result is the one [get_final_text] gives when the messages stop
    just before it, so a later final result with text is never seen. *)
Theorem final_result_replaces_transcript :
  forall (c : VoskWebSocketClient.State)
         (before after : list (option VoskWebSocketClient.Response))
         (r : VoskWebSocketClient.Response),
    VoskWebSocketClient.connected c = true ->
    VoskWebSocketClient.type_is r "final_result"%string = true ->
    existsb VoskWebSocketClient.is_final_result before = false ->
    snd (VoskWebSocketClient.ws_get_final_text c true (before ++ Some r :: after))
    = if PyStr.is_empty (VoskWebSocketClient.stripped_text r)
      then snd (VoskWebSocketClient.ws_get_final_text c true before)
      else VoskWebSocketClient.stripped_text r.
Proof.
  intros c before after r Hc Hr Hb. unfold VoskWebSocketClient.ws_get_final_text.
  rewrite Hc. cbn [negb]. cbv zeta.
  destruct (PyStr.is_empty (VoskWebSocketClient.stripped_text r)) eqn:Ht.
  - now rewrite (ClientFacts.drain_blank_result before after r Hr Ht Hb c).
  - rewrite (ClientFacts.drain_final_result before after r Hr Ht Hb c), Ht.
    cbn [andb snd]. rewrite (ClientFacts.drain_final_result before after r Hr Ht Hb c).
    apply PyStrFacts.strip_idem.
Qed.

(** The transcript "turn on" with the chunk "the light" read while
    draining. A final result "turn off" replaces it all; after a blank
    final result the same "turn off" is never read and the transcript
    stays "turn on the light". *)
Lemma final_result_replaces_transcript_witness :
  let c := {| VoskWebSocketClient.connected := true;
              VoskWebSocketClient.complete_text := "turn on"%string;
              VoskWebSocketClient.partial_text := ""%string |} in
  let chunk := Some {| VoskWebSocketClient.msg_type := Some "final"%string;
                       VoskWebSocketClient.msg_text := Some "the light"%string |} in
  let turn_off := {| VoskWebSocketClient.msg_type := Some "final_result"%string;
                     VoskWebSocketClient.msg_text := Some " turn off "%string |} in
  let blank := {| VoskWebSocketClient.msg_type := Some "final_result"%string;
                  VoskWebSocketClient.msg_text := Some "  "%string |} in
  snd (VoskWebSocketClient.ws_get_final_text c true ([chunk] ++ Some turn_off :: []))
  = "turn off"%string
  /\ snd (VoskWebSocketClient.ws_get_final_text c true
            ([chunk] ++ Some blank :: [Some turn_off]))
     = "turn on the light"%string.
Proof.
  intros c chunk turn_off blank. split.
  - exact (final_result_replaces_transcript c [chunk] [] turn_off
             eq_refl eq_refl eq_refl).
  - exact (final_result_replaces_transcript c [chunk] [Some turn_off] blank
             eq_refl eq_refl eq_refl).
Defined.

(** X16. Without a final result, no final chunk is lost. When the
    client is connected, its ['final'] command went out and no
    ['final_result'] message arrives in time, the words returned by
    [get_final_text] are the words of the transcript followed by the
    words of every final chunk read, in order - provided there is at
    least one such word. *)
Theorem final_chunks_are_kept :
  forall (c : VoskWebSocketClient.State)
         (polls : list (option VoskWebSocketClient.Response)),
    let words :=
      (PyStr.split (VoskWebSocketClient.complete_text c)
       ++ List.concat (map PyStr.split (VoskWebSocketClient.chunks polls)))%list in
    VoskWebSocketClient.connected c = true ->
    existsb VoskWebSocketClient.is_final_result polls = false ->
    words <> [] ->
    PyStr.split (snd (VoskWebSocketClient.ws_get_final_text c true polls)) = words.
Proof.
  intros c polls words Hc Hn Hw. unfold VoskWebSocketClient.ws_get_final_text.
  rewrite Hc. cbn [negb]. cbv zeta.
  pose proof (ClientFacts.drain_words polls c Hn) as Hd.
  fold words in Hd.
  destruct (PyStr.is_empty (VoskWebSocketClient.complete_text
                              (VoskWebSocketClient.drain c polls))) eqn:E.
  - rewrite (ClientFacts.split_of_empty _ E) in Hd. now elim Hw.
  - cbn [andb snd]. now rewrite PyStrWords.split_strip.
Qed.

(** "turn on" so far, then a partial text and the chunks "the" and
    "kitchen light": the result reads "turn on the kitchen light". *)
Lemma final_chunks_are_kept_witness :
  PyStr.split
    (snd (VoskWebSocketClient.ws_get_final_text
            {| VoskWebSocketClient.connected := true;
               VoskWebSocketClient.complete_text := "turn on"%string;
               VoskWebSocketClient.partial_text := ""%string |}
            true
            [Some {| VoskWebSocketClient.msg_type := Some "final"%string;
                     VoskWebSocketClient.msg_text := Some " the"%string |};
             None;
             Some {| VoskWebSocketClient.msg_type := Some "partial"%string;
                     VoskWebSocketClient.msg_text := Some "kitchen"%string |};
             Some {| VoskWebSocketClient.msg_type := Some "final"%string;
                     VoskWebSocketClient.msg_text := Some "kitchen light"%string |}]))
  = ["turn"%string; "on"%string; "the"%string; "kitchen"%string; "light"%string]%string.
Proof.
  refine (final_chunks_are_kept
            {| VoskWebSocketClient.connected := true;
               VoskWebSocketClient.complete_text := "turn on"%string;
               VoskWebSocketClient.partial_text := ""%string |}
            [Some {| VoskWebSocketClient.msg_type := Some "final"%string;
                     VoskWebSocketClient.msg_text := Some " the"%string |};
             None;
             Some {| VoskWebSocketClient.msg_type := Some "partial"%string;
                     VoskWebSocketClient.msg_text := Some "kitchen"%string |};
             Some {| VoskWebSocketClient.msg_type := Some "final"%string;
                     VoskWebSocketClient.msg_text := Some "kitchen light"%string |}]
            eq_refl eq_refl _).
  vm_compute. discriminate.
Defined.

(** X17. Partial text stands in for a transcript only over a live
    connection. With an empty transcript and a server that sends
    nothing in time, [get_final_text] returns the partial text when
    the client is connected and its ['final'] command went out, and
    the empty string when the client is not connected or the command
    could not be sent. *)
Theorem partial_text_is_the_fallback :
  forall (c : VoskWebSocketClient.State) (sent : bool)
         (polls : list (option VoskWebSocketClient.Response)),
    VoskWebSocketClient.complete_text c = ""%string ->
    forallb (fun p => match p with None => true | Some _ => false end) polls = true ->
    snd (VoskWebSocketClient.ws_get_final_text c sent polls)
    = if VoskWebSocketClient.connected c && sent
      then PyStr.strip (VoskWebSocketClient.partial_text c)
      else ""%string.
Proof.
  intros c sent polls He Hs. unfold VoskWebSocketClient.ws_get_final_text.
  destruct (VoskWebSocketClient.connected c); cbn [negb andb].
  - destruct sent; cbn [negb snd].
    + cbv zeta. rewrite (ClientFacts.drain_silent polls Hs c), He. cbn [PyStr.is_empty andb].
      destruct (PyStr.is_empty (VoskWebSocketClient.partial_text c)) eqn:Ep;
        cbn [negb snd VoskWebSocketClient.set_complete_text
             VoskWebSocketClient.complete_text].
      * rewrite He. apply PyStrFacts.is_empty_true in Ep. now rewrite Ep.
      * reflexivity.
    + now rewrite He.
  - cbn [snd]. now rewrite He.
Qed.

(** The partial text "hello" with nothing final: returned over a live
    connection. *)
Lemma partial_text_is_the_fallback_witness :
  snd (VoskWebSocketClient.ws_get_final_text
         {| VoskWebSocketClient.connected := true;
            VoskWebSocketClient.complete_text := ""%string;
            VoskWebSocketClient.partial_text := "hello"%string |}
         true [None; None])
  = "hello"%string.
Proof.
  exact (partial_text_is_the_fallback
           {| VoskWebSocketClient.connected := true;
              VoskWebSocketClient.complete_text := ""%string;
              VoskWebSocketClient.partial_text := "hello"%string |}
           true [None; None] eq_refl eq_refl).
Defined.

(** X18. A client that cannot reach the server. When the client is not
    connected and [connect()] fails, [reset] raises, leaving the client
    not connected with both its texts cleared; from then on
    [process_frame] reports nothing - [(False, False, "")] - and leaves
    the client as it is, whatever would have been sent or received, and
    [get_final_text] returns the empty string. This is the recognizer
    [Offline.offline_recognizer]. *)
Theorem unreachable_server_client :
  forall (c : VoskWebSocketClient.State) (sent : bool)
         (polled : option VoskWebSocketClient.Response)
         (polls : list (option VoskWebSocketClient.Response))
         (pcm : list byte),
    VoskWebSocketClient.connected c = false ->
    let down := fst (VoskWebSocketClient.ws_reset c false) in
    snd (VoskWebSocketClient.ws_reset c false) = snd (Offline.offline_reset tt)
    /\ snd (VoskWebSocketClient.ws_reset c false) = Exc
    /\ VoskWebSocketClient.connected down = false
    /\ VoskWebSocketClient.complete_text down = ""%string
    /\ VoskWebSocketClient.partial_text down = ""%string
    /\ VoskWebSocketClient.ws_process_frame down sent polled
       = (down, {| is_final := false; confidence := Some 0%Q; text := ""%string |})
    /\ Val (snd (VoskWebSocketClient.ws_process_frame down sent polled))
       = snd (Offline.offline_process_frame tt pcm)
    /\ VoskWebSocketClient.ws_get_final_text down sent polls = (down, ""%string)
    /\ Val (snd (VoskWebSocketClient.ws_get_final_text down sent polls))
       = snd (Offline.offline_get_final_text tt).
Proof.
  intros c sent polled polls pcm Hc down.
  assert (Hdown : down = {| VoskWebSocketClient.connected := false;
                            VoskWebSocketClient.complete_text := ""%string;
                            VoskWebSocketClient.partial_text := ""%string |}).
  { unfold down, VoskWebSocketClient.ws_reset. cbn. now rewrite Hc. }
  assert (Hexc : snd (VoskWebSocketClient.ws_reset c false) = Exc).
  { unfold VoskWebSocketClient.ws_reset. cbn. now rewrite Hc. }
  rewrite Hexc, Hdown. repeat split.
Qed.

(** A client that held "turn on" and the partial text "the" when the
    server went away. *)
Lemma unreachable_server_client_witness :
  let c := {| VoskWebSocketClient.connected := false;
              VoskWebSocketClient.complete_text := "turn on"%string;
              VoskWebSocketClient.partial_text := "the"%string |} in
  snd (VoskWebSocketClient.ws_reset c false) = Exc
  /\ VoskWebSocketClient.partial_text (fst (VoskWebSocketClient.ws_reset c false))
     = ""%string.
Proof.
  intros c.
  destruct (unreachable_server_client c true None [] [] eq_refl)
    as (_ & Hexc & _ & _ & Hpartial & _).
  split; [exact Hexc|exact Hpartial].
Defined.

(** ** The range of the energy *)

Lemma byte_range (b : byte) : (0 <= Z.of_N (Byte.to_N b) <= 255)%Z.
Proof. destruct b; vm_compute; split; discriminate. Qed.

Lemma int16_of_range (lo hi : byte) : (-32768 <= int16_of lo hi <= 32767)%Z.
Proof.
  unfold int16_of. pose proof (byte_range lo). pose proof (byte_range hi).
  destruct (Z.ltb_spec (Z.of_N (Byte.to_N lo) + 256 * Z.of_N (Byte.to_N hi)) 32768); lia.
Qed.

Lemma frombuffer_int16_range (pcm_bytes : list byte) :
  Forall (fun z => -32768 <= z <= 32767)%Z (frombuffer_int16 pcm_bytes).
Proof.
  assert (Hall : forall n (p : list byte), (List.length p <= n)%nat ->
                   Forall (fun z => -32768 <= z <= 32767)%Z (frombuffer_int16 p)).
  { induction n as [|n IH]; intros p Hn.
    - destruct p; [constructor|simpl in Hn; lia].
    - destruct p as [|lo [|hi rest]]; simpl; try constructor.
      + apply int16_of_range.
      + apply IH. simpl in Hn. lia. }
  exact (Hall (List.length pcm_bytes) pcm_bytes (le_n _)).
Qed.

Lemma scaled_square_range (z : Z) :
  (-32768 <= z <= 32767)%Z ->
  (0 <= (inject_Z z / 32768) * (inject_Z z / 32768) <= 1)%Q.
Proof.
  intros Hz.
  assert (Hlo : (-1 <= inject_Z z / 32768)%Q).
  { apply Qle_shift_div_l; [reflexivity|]. unfold Qle. simpl. lia. }
  assert (Hhi : (inject_Z z / 32768 <= 1)%Q).
  { apply Qle_shift_div_r; [reflexivity|]. unfold Qle. simpl. lia. }
  generalize dependent (inject_Z z / 32768)%Q. intros x Hlo Hhi. split; nra.
Qed.

Lemma running_total_range (l : list Q) :
  Forall (fun x => 0 <= x <= 1)%Q l ->
  forall a : Q,
    (0 <= a)%Q ->
    (0 <= fold_left (fun a x => Qred (a + x)) l a
     <= a + inject_Z (Z.of_nat (List.length l)))%Q.
Proof.
  induction 1 as [|x l Hx Hl IH]; intros a Ha.
  - cbn [fold_left List.length]. change (inject_Z (Z.of_nat 0)) with 0%Q.
    split; [exact Ha|]. lra.
  - cbn [fold_left].
    assert (Hax : (0 <= Qred (a + x))%Q) by (rewrite Qred_correct; lra).
    destruct (IH _ Hax) as [Hlo Hhi]. split; [exact Hlo|].
    eapply Qle_trans; [exact Hhi|]. rewrite Qred_correct.
    replace (Z.of_nat (List.length (x :: l))) with (Z.of_nat (List.length l) + 1)%Z
      by (simpl List.length; lia).
    rewrite inject_Z_plus. change (inject_Z 1) with 1%Q.
    generalize (inject_Z (Z.of_nat (List.length l))). intros n. lra.
Qed.

Lemma mean_range (l : list Q) :
  l <> [] ->
  Forall (fun x => 0 <= x <= 1)%Q l ->
  (0 <= PyNum.mean l <= 1)%Q.
Proof.
  intros Hne Hall. unfold PyNum.mean.
  destruct (running_total_range l Hall 0%Q (Qle_refl 0)) as [Hlo Hhi].
  assert (Hpos : (0 < inject_Z (Z.of_nat (List.length l)))%Q).
  { destruct l; [congruence|]. unfold Qlt. simpl. lia. }
  split.
  - apply Qle_shift_div_l; [exact Hpos|]. lra.
  - apply Qle_shift_div_r; [exact Hpos|]. lra.
Qed.

Lemma frame_energy_range (np_sqrt : Q -> Q) (pcm_bytes : list byte) :
  (forall x, 0 <= x <= 1 -> 0 <= np_sqrt x <= 1)%Q ->
  (0 <= frame_energy np_sqrt pcm_bytes <= 1)%Q.
Proof.
  intros Hsqrt. unfold frame_energy.
  pose proof (frombuffer_int16_range pcm_bytes) as Hr.
  destruct (frombuffer_int16 pcm_bytes) as [|z zs] eqn:E; cbn [map is_nil].
  - split; [apply Qle_refl|discriminate].
  - apply Hsqrt. apply mean_range; [discriminate|].
    inversion Hr as [|? ? Hz Hzs]; subst.
    constructor; [now apply scaled_square_range|].
    apply Forall_forall. intros q Hq.
    apply in_map_iff in Hq. destruct Hq as (x & <- & Hx).
    apply in_map_iff in Hx. destruct Hx as (s & <- & Hs).
    apply scaled_square_range. exact (proj1 (Forall_forall _ _) Hzs s Hs).
Qed.

(** The square root of the samples keeps the unit interval. *)
Lemma sqrt_exact_unit (x : Q) :
  (0 <= x <= 1)%Q -> (0 <= Sample.sqrt_exact x <= 1)%Q.
Proof.
  intros [Hlo Hhi]. unfold Sample.sqrt_exact. cbv zeta.
  rewrite <- (Qred_correct x) in Hlo, Hhi.
  destruct (Qred x) as [n d]. unfold Qle in *. simpl in *.
  pose proof (Z.sqrt_nonneg n) as Hs.
  assert (Hle : (Z.sqrt n <= Z.sqrt (Z.pos d))%Z) by (apply Z.sqrt_le_mono; lia).
  change (Z.sqrt (Z.pos d)) with (Z.pos (Pos.sqrt d)) in Hle.
  split; lia.
Qed.

(** X19. The energy of a frame lies between 0 and 1, as a root mean
    square of samples scaled into [-1, 1] does whenever the square root
    keeps the unit interval. An [energy_threshold] of 1 or more is
    therefore out of reach: with it the timed capture never starts
    voice, whatever the microphone delivers. *)
Theorem energy_stays_in_unit_interval :
  forall np_sqrt : Q -> Q,
    (forall x, 0 <= x <= 1 -> 0 <= np_sqrt x <= 1)%Q ->
    (forall pcm_bytes : list byte, 0 <= frame_energy np_sqrt pcm_bytes <= 1)%Q
    /\ (forall (T : Type) (R : Recognizer T) (C : VadCtx) (t : T) (ticks : list Tick),
           1 <= frame_history_length C ->
           (1 <= energy_threshold C)%Q ->
           voice_started (next (vad_loop np_sqrt C (vad_start t) ticks)) = false).
Proof.
  intros np_sqrt Hsqrt. split.
  - intros pcm_bytes. now apply frame_energy_range.
  - intros T R C t ticks HK Hth.
    apply (quiet_stream_waits np_sqrt C ticks (vad_start t) HK eq_refl).
    + constructor.
    + apply Forall_forall. intros b _.
      eapply Qle_trans; [|exact Hth]. now apply frame_energy_range.
Qed.

(** The loudest frame there is, every sample at -32768, has energy 1. *)
Lemma energy_stays_in_unit_interval_witness :
  (0 <= frame_energy Sample.sqrt_exact (List.concat (List.repeat [x00; x80] 4)) <= 1)%Q.
Proof.
  exact (proj1 (energy_stays_in_unit_interval Sample.sqrt_exact sqrt_exact_unit)
           (List.concat (List.repeat [x00; x80] 4))).
Defined.
